(** * StageGL: the batching WebGL renderer of Easel

    A shallow embedding of the parts of the class [StageGL]
    (src/display/Stage.ts) that manage the vertex
    batch, the GPU texture slots, the blend (render mode) state and the
    texture dictionary, together with the properties of the renderer's
    specification that concern them.

    Conventions.
    - JavaScript numbers that come from the caller ([batchSize],
      [autoPurge], the [count] of [purgeTextures]) are values of
      [JS.number]: NaN, the two infinities, or a finite rational.  Finite
      doubles are rationals; comparison, halving and clamping are exact on
      doubles, and a sum is rounded to the nearest double ([JS.round64]),
      so the only idealisation is that products are not rounded.
    - The counters of the renderer ([_batchVertexCount], [_batchID],
      [_drawID], slot indices) are integers in [Z].
    - Objects that the source mutates through shared references (WebGL
      textures, images) live in heaps indexed by references. *)

From Stdlib Require Import ZArith QArith Qround Lia Lqa Bool List Ascii String.
From stdpp Require Import base option list gmap strings pretty.
From Equations Require Import Equations.

Local Open Scope Z_scope.

(** ** JavaScript numbers *)

Module JS.

Inductive number :=
| NaN
| PInf
| NInf
| Fin (q : Q).

Definition ofZ (z : Z) : number := Fin (inject_Z z).

(** [isNaN(x)] *)
Definition isNaN (x : number) : bool :=
  match x with NaN => true | _ => false end.

(** ToBoolean on a number: [0] and [NaN] are falsy. *)
Definition truthy (x : number) : bool :=
  match x with
  | NaN => false
  | Fin q => negb (Qeq_bool q 0)
  | _ => true
  end.

(** [x <= y] *)
Definition le (x y : number) : bool :=
  match x, y with
  | NaN, _ | _, NaN => false
  | NInf, _ => true
  | _, PInf => true
  | PInf, _ => false
  | _, NInf => false
  | Fin p, Fin q => Qle_bool p q
  end.

(** [x < y] *)
Definition lt (x y : number) : bool :=
  match x, y with
  | NaN, _ | _, NaN => false
  | PInf, _ => false
  | _, NInf => false
  | NInf, _ => true
  | _, PInf => true
  | Fin p, Fin q => negb (Qle_bool q p)
  end.

(** [x >= y] and [x > y] *)
Definition ge (x y : number) : bool := le y x.
Definition gt (x y : number) : bool := lt y x.

(** [x === y] on numbers *)
Definition eqb (x y : number) : bool :=
  match x, y with
  | PInf, PInf | NInf, NInf => true
  | Fin p, Fin q => Qeq_bool p q
  | _, _ => false
  end.

(** The same number (NaN counted as equal to itself): the relation in
    which results are compared. *)
Definition same (x y : number) : Prop :=
  match x, y with
  | NaN, NaN | PInf, PInf | NInf, NInf => True
  | Fin p, Fin q => (p == q)%Q
  | _, _ => False
  end.

(** [Math.min(x, y)] and [Math.max(x, y)] *)
Definition min (x y : number) : number :=
  match x, y with
  | NaN, _ | _, NaN => NaN
  | _, _ => if le x y then x else y
  end.

Definition max (x y : number) : number :=
  match x, y with
  | NaN, _ | _, NaN => NaN
  | _, _ => if le x y then y else x
  end.

(** [2^e] *)
Definition pow2 (e : Z) : Q :=
  if 0 <=? e then inject_Z (2 ^ e) else / inject_Z (2 ^ (- e)).

(** The binary exponent of a positive rational [q]: the [e] with
    [2^e <= q < 2^(e+1)]. *)
Definition exponent (q : Q) : Z :=
  let e := Z.log2 (Qnum q) - Z.log2 (Zpos (Qden q)) in
  if Qle_bool (pow2 e) q then e else e - 1.

(** The integer nearest to a rational; of two that are equally near, the
    even one. *)
Definition nearest (q : Q) : Z :=
  let f := Qfloor q in
  match (q - inject_Z f ?= 1 # 2)%Q with
  | Lt => f
  | Gt => f + 1
  | Eq => if Z.even f then f else f + 1
  end.

(** The double nearest to a positive rational (IEEE 754 binary64, round to
    nearest, ties to even): 53 significant bits, down to the exponent
    -1022 of the subnormal numbers; what rounds to 2^1024 is infinite. *)
Definition round64_pos (q : Q) : number :=
  let e := Z.max (exponent q) (-1022) in
  let ulp := pow2 (e - 52) in
  let r := (inject_Z (nearest (q / ulp)) * ulp)%Q in
  if Qle_bool (pow2 1024) r then PInf else Fin r.

(** The double nearest to a rational. *)
Definition round64 (q : Q) : number :=
  match (q ?= 0)%Q with
  | Eq => Fin q
  | Gt => round64_pos q
  | Lt =>
      match round64_pos (- q) with
      | Fin r => Fin (- r)
      | _ => NInf
      end
  end.

(** [x + y]: the exact sum, rounded. *)
Definition add (x y : number) : number :=
  match x, y with
  | NaN, _ | _, NaN => NaN
  | PInf, NInf | NInf, PInf => NaN
  | PInf, _ | _, PInf => PInf
  | NInf, _ | _, NInf => NInf
  | Fin p, Fin q => round64 (p + q)
  end.

(** The sign of a number that is not NaN. *)
Definition sign (x : number) : comparison :=
  match x with
  | NaN => Eq
  | PInf => Gt
  | NInf => Lt
  | Fin q => (q ?= 0)%Q
  end.

(** [x * y] *)
Definition mul (x y : number) : number :=
  match x, y with
  | NaN, _ | _, NaN => NaN
  | Fin p, Fin q => Fin (p * q)
  | _, _ =>
      match sign x, sign y with
      | Eq, _ | _, Eq => NaN
      | Gt, Gt | Lt, Lt => PInf
      | _, _ => NInf
      end
  end.

(** [x / 2] *)
Definition half (x : number) : number :=
  match x with
  | Fin p => Fin (p / 2)
  | other => other
  end.

(** Truncation of a rational towards zero. *)
Definition trunc (q : Q) : Z := Z.quot (Qnum q) (Zpos (Qden q)).

(** ToInt32 on an integer: reduction modulo 2^32 into [-2^31, 2^31). *)
Definition wrap32 (z : Z) : Z :=
  let m := z mod 2 ^ 32 in
  if 2 ^ 31 <=? m then m - 2 ^ 32 else m.

(** [x | 0]: ToInt32 *)
Definition toInt32 (x : number) : Z :=
  match x with
  | Fin q => wrap32 (trunc q)
  | _ => 0
  end.

(** [a % b] on integers: the sign follows the dividend; [None] is NaN
    (a zero divisor). *)
Definition rem (a b : Z) : option Z :=
  if b =? 0 then None else Some (Z.rem a b).

(** A value as an option field can hold it: [undefined], a number or a
    string. *)
Inductive value :=
| VUndefined
| VNum (n : number)
| VStr (s : string).

Section Coercions.

(** The StringNumericLiteral grammar of ECMAScript is not modelled: the
    numeric reading of a string is a parameter. *)
Variable StringToNumber : string -> number.

(** [Number(v)] *)
Definition Number (v : value) : number :=
  match v with
  | VUndefined => NaN
  | VNum n => n
  | VStr s => StringToNumber s
  end.

End Coercions.

End JS.

Import JS (number, NaN, PInf, NInf, Fin, value, VUndefined, VNum, VStr).

(** ** Constants of [StageGL] *)

Definition INDICES_PER_CARD : Z := 6.
Definition DEFAULT_MAX_BATCH_SIZE : Z := 10920.
Definition DEFAULT_MIN_BATCH_SIZE : Z := 170.

(** ** The constructor: batch capacity and auto-purge interval *)

Section Constructor.

Variable StringToNumber : string -> number.

(** [Math.max(Math.min(Number(batchSize) || DEFAULT_MAX_BATCH_SIZE,
      DEFAULT_MAX_BATCH_SIZE), DEFAULT_MIN_BATCH_SIZE) * INDICES_PER_CARD] *)
Definition maxBatchVertexCount (batchSize : value) : number :=
  let n := JS.Number StringToNumber batchSize in
  let requested := if JS.truthy n then n else JS.ofZ DEFAULT_MAX_BATCH_SIZE in
  JS.mul
    (JS.max (JS.min requested (JS.ofZ DEFAULT_MAX_BATCH_SIZE))
            (JS.ofZ DEFAULT_MIN_BATCH_SIZE))
    (JS.ofZ INDICES_PER_CARD).

End Constructor.

(** The capacity formula in the words of the specification:
    [min(max(configuredBatchSize, MIN_BATCH_SIZE), MAX_BATCH_SIZE) *
    verticesPerQuad]. *)
Definition capacity_spec (configuredBatchSize : number) : number :=
  JS.mul
    (JS.min (JS.max configuredBatchSize (JS.ofZ DEFAULT_MIN_BATCH_SIZE))
            (JS.ofZ DEFAULT_MAX_BATCH_SIZE))
    (JS.ofZ INDICES_PER_CARD).

(** [set autoPurge(value)]: the value stored in [_autoPurge]. *)
Definition set_autoPurge (value : number) : number :=
  let value := if JS.isNaN value then JS.ofZ 1200 else value in
  let value :=
    if negb (JS.eqb value (JS.ofZ (-1)))
    then (if JS.lt value (JS.ofZ 10) then JS.ofZ 10 else value)
    else value in
  value.

(** The field initialiser [_autoPurge = 1200] followed by the constructor's
    [autoPurge && (this.autoPurge = autoPurge)]. *)
Definition constructor_autoPurge (autoPurge : option number) : number :=
  match autoPurge with
  | Some v => if JS.truthy v then set_autoPurge v else JS.ofZ 1200
  | None => JS.ofZ 1200
  end.

(** [(this._autoPurge/2)|0], the modulus of the scheduling check in [draw]. *)
Definition purgeModulus (_autoPurge : number) : Z :=
  JS.toInt32 (JS.half _autoPurge).

(** [this._autoPurge !== -1 && !(this._drawID % ((this._autoPurge/2)|0))]:
    a remainder by zero is NaN, and [!NaN] is [true]. *)
Definition autoPurgeDue (_autoPurge : number) (_drawID : Z) : bool :=
  negb (JS.eqb _autoPurge (JS.ofZ (-1))) &&
  match JS.rem _drawID (purgeModulus _autoPurge) with
  | None => true
  | Some r => r =? 0
  end.


(** ** Objects on the heap

    WebGL textures and image sources are JavaScript objects that the
    renderer decorates with bookkeeping fields and reaches through several
    references at once (a texture sits in the dictionary, in a GPU slot and
    in local variables; an image is listed by its texture and held by the
    scene).  They are modelled as records in two heaps, and a reference is
    a key of the heap. *)

Abbreviation texref := nat (only parsing).
Abbreviation imgref := nat (only parsing).
Abbreviation fbref := nat (only parsing).

(** An image or canvas element used as a texture source. *)
Module Image.

(** What [instanceof] tells about the element; an [HTMLImageElement] carries
    its [src].  The [src] property of an element is the empty string or
    the resolved, absolute URL, so it is never the bare name of a member
    that objects inherit ("toString", ...), and [_textureIDs[src]] is
    [undefined] exactly when [_textureIDs] has no own entry. *)
Inductive source :=
| HTMLImageElement (src : string)
| HTMLCanvasElement
| OtherElement.

Record t := {
  element : source;
  complete : bool;          (* image.complete || image.naturalWidth *)
  width : Z;
  height : Z;
  _storeID : option Z;
  _drawID : option Z;
  _invalid : option bool;
  _isCanvas : bool;
}.

Definition with_storeID (v : option Z) (i : t) : t :=
  {| element := element i; complete := complete i; width := width i;
     height := height i; _storeID := v;
     _drawID := _drawID i; _invalid := _invalid i; _isCanvas := _isCanvas i |}.
Definition with_drawID (v : option Z) (i : t) : t :=
  {| element := element i; complete := complete i; width := width i;
     height := height i; _storeID := _storeID i;
     _drawID := v; _invalid := _invalid i; _isCanvas := _isCanvas i |}.
Definition with_invalid (v : option bool) (i : t) : t :=
  {| element := element i; complete := complete i; width := width i;
     height := height i; _storeID := _storeID i;
     _drawID := _drawID i; _invalid := v; _isCanvas := _isCanvas i |}.
Definition with_isCanvas (v : bool) (i : t) : t :=
  {| element := element i; complete := complete i; width := width i;
     height := height i; _storeID := _storeID i;
     _drawID := _drawID i; _invalid := _invalid i; _isCanvas := v |}.

End Image.

(** The interface [_WebGLTexture]: a WebGL texture with the renderer's
    fields.  A field that is [undefined] is [None]. *)
Module WebGLTexture.

Record t := {
  _frameBuffer : option fbref;
  _batchID : option Z;
  _storeID : option Z;
  _drawID : option Z;
  _imageData : option (list imgref);
  _activeIndex : option Z;
  width : option Z;
  height : option Z;
}.

(** A texture fresh from [gl.createTexture()]. *)
Definition fresh : t :=
  {| _frameBuffer := None; _batchID := None; _storeID := None; _drawID := None;
     _imageData := None; _activeIndex := None; width := None; height := None |}.

Definition with_frameBuffer (v : option fbref) (x : t) : t :=
  {| _frameBuffer := v; _batchID := _batchID x; _storeID := _storeID x;
     _drawID := _drawID x; _imageData := _imageData x;
     _activeIndex := _activeIndex x; width := width x; height := height x |}.
Definition with_batchID (v : option Z) (x : t) : t :=
  {| _frameBuffer := _frameBuffer x; _batchID := v; _storeID := _storeID x;
     _drawID := _drawID x; _imageData := _imageData x;
     _activeIndex := _activeIndex x; width := width x; height := height x |}.
Definition with_storeID (v : option Z) (x : t) : t :=
  {| _frameBuffer := _frameBuffer x; _batchID := _batchID x; _storeID := v;
     _drawID := _drawID x; _imageData := _imageData x;
     _activeIndex := _activeIndex x; width := width x; height := height x |}.
Definition with_drawID (v : option Z) (x : t) : t :=
  {| _frameBuffer := _frameBuffer x; _batchID := _batchID x;
     _storeID := _storeID x; _drawID := v; _imageData := _imageData x;
     _activeIndex := _activeIndex x; width := width x; height := height x |}.
Definition with_imageData (v : option (list imgref)) (x : t) : t :=
  {| _frameBuffer := _frameBuffer x; _batchID := _batchID x;
     _storeID := _storeID x; _drawID := _drawID x; _imageData := v;
     _activeIndex := _activeIndex x; width := width x; height := height x |}.
Definition with_activeIndex (v : option Z) (x : t) : t :=
  {| _frameBuffer := _frameBuffer x; _batchID := _batchID x;
     _storeID := _storeID x; _drawID := _drawID x; _imageData := _imageData x;
     _activeIndex := v; width := width x; height := height x |}.
Definition with_size (w h : option Z) (x : t) : t :=
  {| _frameBuffer := _frameBuffer x; _batchID := _batchID x;
     _storeID := _storeID x; _drawID := _drawID x; _imageData := _imageData x;
     _activeIndex := _activeIndex x; width := w; height := h |}.

End WebGLTexture.

(** A compiled and linked shader program ([_type] is "cover" or "batch"). *)
Record program := { program_id : nat; program_cover : bool }.

(** The two vertex attribute layouts of [_attributeConfig]. *)
Inductive config := config_default | config_micro.

(** The four attributes of a layout. *)
Inductive attribute := attr_position | attr_uv | attr_texture | attr_alpha.

(** A render target reference as the [_batchTexture*] and [_bufferTexture*]
    fields hold it: not yet assigned, [null], the stage itself, or a render
    texture. *)
Inductive surface :=
| SUndefined
| SNull
| SStage
| STexture (t : texref).

(** The entry of [_builtShaders] for a render mode: GL blend constants by
    name, and the mode's shader. *)
Record shaderData := {
  eqRGB : string; srcRGB : string; dstRGB : string;
  eqA : string; srcA : string; dstA : string;
  immediate : bool;
  shader : program;
}.

(** What is asked of [_fetchShaderProgram]: a cover or a batch shader, the
    custom fragment body (the vertex body is never customised on the paths
    modelled here), and the texture count pasted into the source. *)
Record shaderRequest := {
  coverShader : bool;
  customFRAG : option string;
  textureCount : Z;
}.

Inductive buildStatus := CompileFailed | LinkFailed | Linked.

(** What was last sent with [bufferSubData]. *)
Inductive bufferData :=
| ConfigArray (c : config) (a : attribute)
| COVER_VERT
| COVER_UV.

(** Everything observable that the renderer does, in the order it happens:
    console output, calls on the WebGL context, and the writes of a quad
    into the vertex arrays of a layout.  [gl_texParameters] stands for the
    four [texParameteri] calls of [setTextureParams], [gl_buildProgram] for
    the compile-attach-link sequence of [_fetchShaderProgram], and
    [gl_programSetup] for the attribute and uniform look-ups that follow.
    The blend calls take GL constants by name; [None] is [undefined]. *)
Inductive event :=
| console_log (msg : string)
| gl_useProgram (p : option program)
| gl_buildProgram (r : shaderRequest) (st : buildStatus)
| gl_programSetup (p : program)
| gl_bindFramebuffer (fb : option fbref)
| gl_clear
| gl_clearColor
| gl_bindBuffer (c : config) (a : attribute)
| gl_vertexAttribPointer (p : option program) (c : config) (a : attribute)
| gl_bufferSubData (c : config) (a : attribute) (d : bufferData)
| gl_uniformMatrix4fv
| gl_uniform1i
| gl_activeTexture (i : option Z)
| gl_bindTexture (t : surface)
| gl_texParameters
| gl_texImage2D_size (w h : Z)
| gl_texImage2D_image (i : imgref)
| gl_pixelStorei (premultiply : bool)
| gl_createTexture (t : option texref)
| gl_createFramebuffer (fb : option fbref)
| gl_framebufferTexture2D (t : texref)
| gl_deleteFramebuffer (fb : fbref)
| gl_deleteTexture (t : texref)
| gl_drawArrays (count : Z)
| gl_blendEquationSeparate (modeRGB modeAlpha : option string)
| gl_blendFuncSeparate (srcRGB dstRGB srcAlpha dstAlpha : option string)
| write_quad (c : config) (vertex : Z) (texIndex : option Z).

(** The WebGL context as far as the renderer depends on its answers: the
    texture unit limits, whether a shader builds, and whether the [n]-th
    object it is asked to create is created ([false]: [null] is
    returned). *)
Record WebGLContext := {
  MAX_TEXTURE_IMAGE_UNITS : Z;
  MAX_COMBINED_TEXTURE_IMAGE_UNITS : Z;
  buildProgram : shaderRequest -> buildStatus;
  createTexture : nat -> bool;
  createFramebuffer : nat -> bool;
}.

(** ** The renderer's state

    The fields of [StageGL] that the modelled methods read or write, under
    their names in the source, followed by the two heaps, the number of GL
    objects created so far (the next fresh reference) and the trace of
    events, most recent first. *)
Record StageGL := {
  vocalDebug : bool;
  autoClear : bool;
  _autoPurge : number;
  _directDraw : bool;
  _viewportWidth : Z;
  _viewportHeight : Z;
  _webGLContext : WebGLContext;
  _maxBatchVertexCount : number;
  _activeShader : option program;
  _mainShader : option program;
  batchReason : option string;
  _activeConfig : config;
  _bufferTextureOutput : surface;
  _bufferTextureConcat : surface;
  _bufferTextureTemp : surface;
  _batchTextureOutput : surface;
  _batchTextureConcat : surface;
  _batchTextureTemp : surface;
  _builtShaders : gmap string shaderData;
  _textureDictionary : list (option texref);
  _textureIDs : gmap string Z;
  _batchTextures : list (option texref);
  _baseTextures : list (option texref);
  _gpuTextureCount : Z;
  _gpuTextureMax : Z;
  _batchTextureCount : Z;
  _lastTextureInsert : Z;
  _renderMode : string;
  _immediateRender : bool;
  _batchVertexCount : Z;
  _batchID : Z;
  _drawID : Z;
  _renderPerDraw : Z;
  _slotBlacklist : list bool;
  _lastTrackedCanvas : Z;
  textures : gmap texref WebGLTexture.t;
  images : gmap imgref Image.t;
  allocated : nat;
  trace : list event;
}.

(** Field updates.  [StageGL_eta] rebuilds a state from its fields; the
    update of a field is that term with the field's projection replaced. *)
Definition StageGL_eta (s : StageGL) : StageGL :=
  Build_StageGL (vocalDebug s) (autoClear s) (_autoPurge s) (_directDraw s)
    (_viewportWidth s) (_viewportHeight s) (_webGLContext s)
    (_maxBatchVertexCount s) (_activeShader s) (_mainShader s) (batchReason s)
    (_activeConfig s) (_bufferTextureOutput s) (_bufferTextureConcat s)
    (_bufferTextureTemp s) (_batchTextureOutput s) (_batchTextureConcat s)
    (_batchTextureTemp s) (_builtShaders s) (_textureDictionary s)
    (_textureIDs s) (_batchTextures s) (_baseTextures s) (_gpuTextureCount s)
    (_gpuTextureMax s) (_batchTextureCount s) (_lastTextureInsert s)
    (_renderMode s) (_immediateRender s) (_batchVertexCount s) (_batchID s)
    (_drawID s) (_renderPerDraw s) (_slotBlacklist s) (_lastTrackedCanvas s)
    (textures s) (images s) (allocated s) (trace s).

Ltac field_update proj v :=
  let e := eval cbv delta [StageGL_eta] in StageGL_eta in
  lazymatch eval pattern proj in e with
  | ?F _ => let r := eval cbv beta in (F (fun _ => v)) in exact r
  end.

Definition with_autoPurge (v : number) : StageGL -> StageGL :=
  ltac:(field_update _autoPurge v).
Definition with_maxBatchVertexCount (v : number) : StageGL -> StageGL :=
  ltac:(field_update _maxBatchVertexCount v).
Definition with_activeShader (v : option program) : StageGL -> StageGL :=
  ltac:(field_update _activeShader v).
Definition with_mainShader (v : option program) : StageGL -> StageGL :=
  ltac:(field_update _mainShader v).
Definition with_batchReason (v : option string) : StageGL -> StageGL :=
  ltac:(field_update batchReason v).
Definition with_activeConfig (v : config) : StageGL -> StageGL :=
  ltac:(field_update _activeConfig v).
Definition with_bufferTextureOutput (v : surface) : StageGL -> StageGL :=
  ltac:(field_update _bufferTextureOutput v).
Definition with_bufferTextureConcat (v : surface) : StageGL -> StageGL :=
  ltac:(field_update _bufferTextureConcat v).
Definition with_bufferTextureTemp (v : surface) : StageGL -> StageGL :=
  ltac:(field_update _bufferTextureTemp v).
Definition with_batchTextureOutput (v : surface) : StageGL -> StageGL :=
  ltac:(field_update _batchTextureOutput v).
Definition with_batchTextureConcat (v : surface) : StageGL -> StageGL :=
  ltac:(field_update _batchTextureConcat v).
Definition with_batchTextureTemp (v : surface) : StageGL -> StageGL :=
  ltac:(field_update _batchTextureTemp v).
Definition with_builtShaders (v : gmap string shaderData) : StageGL -> StageGL :=
  ltac:(field_update _builtShaders v).
Definition with_textureDictionary (v : list (option texref)) : StageGL -> StageGL :=
  ltac:(field_update _textureDictionary v).
Definition with_textureIDs (v : gmap string Z) : StageGL -> StageGL :=
  ltac:(field_update _textureIDs v).
Definition with_batchTextures (v : list (option texref)) : StageGL -> StageGL :=
  ltac:(field_update _batchTextures v).
Definition with_baseTextures (v : list (option texref)) : StageGL -> StageGL :=
  ltac:(field_update _baseTextures v).
Definition with_gpuTextureCount (v : Z) : StageGL -> StageGL :=
  ltac:(field_update _gpuTextureCount v).
Definition with_gpuTextureMax (v : Z) : StageGL -> StageGL :=
  ltac:(field_update _gpuTextureMax v).
Definition with_batchTextureCount (v : Z) : StageGL -> StageGL :=
  ltac:(field_update _batchTextureCount v).
Definition with_lastTextureInsert (v : Z) : StageGL -> StageGL :=
  ltac:(field_update _lastTextureInsert v).
Definition with_renderMode (v : string) : StageGL -> StageGL :=
  ltac:(field_update _renderMode v).
Definition with_immediateRender (v : bool) : StageGL -> StageGL :=
  ltac:(field_update _immediateRender v).
Definition with_batchVertexCount (v : Z) : StageGL -> StageGL :=
  ltac:(field_update _batchVertexCount v).
Definition with_batchID (v : Z) : StageGL -> StageGL :=
  ltac:(field_update _batchID v).
Definition with_drawID (v : Z) : StageGL -> StageGL :=
  ltac:(field_update _drawID v).
Definition with_renderPerDraw (v : Z) : StageGL -> StageGL :=
  ltac:(field_update _renderPerDraw v).
Definition with_lastTrackedCanvas (v : Z) : StageGL -> StageGL :=
  ltac:(field_update _lastTrackedCanvas v).
Definition with_textures (v : gmap texref WebGLTexture.t) : StageGL -> StageGL :=
  ltac:(field_update textures v).
Definition with_images (v : gmap imgref Image.t) : StageGL -> StageGL :=
  ltac:(field_update images v).
Definition with_allocated (v : nat) : StageGL -> StageGL :=
  ltac:(field_update allocated v).
Definition with_trace (v : list event) : StageGL -> StageGL :=
  ltac:(field_update trace v).

(** ** Computations on the state

    A method is a function from the state to an outcome: a returned value, a
    JavaScript exception, or the exhaustion of the fuel of a bounded loop.
    Each outcome carries the state reached. *)

Inductive outcome (A : Type) :=
| Ret (a : A) (s : StageGL)
| Throw (e : string) (s : StageGL)
| OutOfFuel (s : StageGL).
Arguments Ret {A} a s.
Arguments Throw {A} e s.
Arguments OutOfFuel {A} s.

Definition M (A : Type) : Type := StageGL -> outcome A.

Definition ret {A} (a : A) : M A := fun s => Ret a s.

Definition bind {A B} (m : M A) (k : A -> M B) : M B :=
  fun s =>
    match m s with
    | Ret a s' => k a s'
    | Throw e s' => Throw e s'
    | OutOfFuel s' => OutOfFuel s'
    end.

(** stdpp's notations [x ← m; k] and [m;; k] for sequencing. *)
#[global] Instance M_ret : MRet M := @ret.
#[global] Instance M_bind : MBind M := fun A B k m => bind m k.

Definition throw {A} (e : string) : M A := fun s => Throw e s.
Definition get : M StageGL := fun s => Ret s s.
Definition gets {A} (f : StageGL -> A) : M A := fun s => Ret (f s) s.
Definition modify (f : StageGL -> StageGL) : M unit := fun s => Ret tt (f s).

(** [try { m } catch (e) { h e }] *)
Definition try_catch {A} (m : M A) (h : string -> M A) : M A :=
  fun s =>
    match m s with
    | Throw e s' => h e s'
    | r => r
    end.

Definition when (b : bool) (m : M unit) : M unit := if b then m else ret tt.

(** One event, and a list of events in the order they happen. *)
Definition emit (e : event) : M unit :=
  modify (fun s => with_trace (e :: trace s) s).
Definition emit_all (es : list event) : M unit :=
  modify (fun s => with_trace (rev es ++ trace s) s).

(** The state an outcome ends in. *)
Definition final {A} (o : outcome A) : StageGL :=
  match o with Ret _ s | Throw _ s | OutOfFuel s => s end.

(** *** JavaScript arrays and the heaps *)

(** [a[i]] for an array of object references; out of range, a hole or a
    negative index reads [undefined]. *)
Definition arr_get {A} (a : list (option A)) (i : Z) : option A :=
  if i <? 0 then None else mjoin (a !! Z.to_nat i).

(** [a[i] = v] for [0 <= i]: beyond the end the array grows, the gap is
    filled with holes.  (A negative index would set a property that is no
    element; no modelled path does it and the array is left as it is.) *)
Definition arr_set {A} (a : list (option A)) (i : Z) (v : option A)
  : list (option A) :=
  if i <? 0 then a
  else
    let n := Z.to_nat i in
    if (n <? length a)%nat then <[n := v]> a
    else a ++ replicate (n - length a) None ++ [v].

(** [a[i]] with [i] possibly [undefined]. *)
Definition arr_at {A} (a : list (option A)) (i : option Z) : option A :=
  match i with Some i => arr_get a i | None => None end.

(** The object behind a reference.  A reference never dangles in
    JavaScript; a key the heap does not hold reads as an object none of
    whose fields is set. *)
Definition noImage : Image.t :=
  {| Image.element := Image.OtherElement; Image.complete := false;
     Image.width := 0; Image.height := 0;
     Image._storeID := None; Image._drawID := None; Image._invalid := None;
     Image._isCanvas := false |}.

Definition tex (s : StageGL) (t : texref) : WebGLTexture.t :=
  default WebGLTexture.fresh (textures s !! t).
Definition img (s : StageGL) (i : imgref) : Image.t :=
  default noImage (images s !! i).

Definition set_tex (t : texref) (f : WebGLTexture.t -> WebGLTexture.t)
  (s : StageGL) : StageGL :=
  with_textures (<[t := f (tex s t)]> (textures s)) s.
Definition set_img (i : imgref) (f : Image.t -> Image.t)
  (s : StageGL) : StageGL :=
  with_images (<[i := f (img s i)]> (images s)) s.

(** ** Submitting geometry *)

(** The value of a surface's [_frameBuffer] property as [bindFramebuffer]
    receives it. *)
Inductive framebuffer :=
| fb_undefined
| fb_null
| fb_object (fb : fbref).

(** [x._frameBuffer] for a surface [x]: the stage's own [_frameBuffer] is
    [null]; reading the property of [undefined] or [null] is a TypeError. *)
Definition frameBufferOf (x : surface) : M framebuffer :=
  match x with
  | SUndefined | SNull =>
      throw "TypeError: cannot read properties of undefined (reading '_frameBuffer')"
  | SStage => mret fb_null
  | STexture t =>
      s ← get;
      mret (match WebGLTexture._frameBuffer (tex s t) with
            | Some fb => fb_object fb
            | None => fb_undefined
            end)
  end.

(** [x ? x._frameBuffer : null] *)
Definition frameBufferOrNull (x : surface) : M framebuffer :=
  match x with
  | SUndefined | SNull => mret fb_null
  | _ => frameBufferOf x
  end.

Definition bindFramebuffer (fb : framebuffer) : M unit :=
  emit (gl_bindFramebuffer
          (match fb with fb_object n => Some n | _ => None end)).

Definition slotSurface (o : option texref) : surface :=
  match o with Some t => STexture t | None => SUndefined end.

(** The events of [_renderBatch] for one attribute of the active layout:
    [bindBuffer], [vertexAttribPointer], [bufferSubData]. *)
Definition sendAttribute (p : option program) (c : config) (a : attribute)
  : list event :=
  [gl_bindBuffer c a; gl_vertexAttribPointer p c a;
   gl_bufferSubData c a (ConfigArray c a)].

(** [for (i = 0; i < _batchTextureCount; i++) { activeTexture; bindTexture }] *)
Definition bindBatchTextures (count : Z) (slots : list (option texref))
  : list event :=
  flat_map
    (fun i => [gl_activeTexture (Some i); gl_bindTexture (slotSurface (arr_get slots i))])
    (seqZ 0 count).

Definition showReason (r : option string) : string :=
  default "undefined" r.

(** [_renderBatch()]: draws all the cards in the buffer. *)
Definition _renderBatch : M unit :=
  s ← get;
  if _batchVertexCount s <=? 0 then mret tt
  else
    modify (fun s => with_renderPerDraw (_renderPerDraw s + 1) s);;
    when (vocalDebug s)
      (emit (console_log ("Batch[" +:+ pretty (_drawID s) +:+ ":" +:+
                          pretty (_batchID s) +:+ "] : " +:+
                          showReason (batchReason s))));;
    let shaderProgram := _activeShader s in
    let config := _activeConfig s in
    emit (gl_useProgram shaderProgram);;
    match shaderProgram with
    | None =>
        (* there is no program to read [positionAttribute] from *)
        emit (gl_bindBuffer config attr_position);;
        throw "TypeError: cannot read properties of undefined (reading 'positionAttribute')"
    | Some _ =>
        emit_all (sendAttribute shaderProgram config attr_position);;
        emit_all (sendAttribute shaderProgram config attr_texture);;
        emit_all (sendAttribute shaderProgram config attr_uv);;
        emit_all (sendAttribute shaderProgram config attr_alpha);;
        emit gl_uniformMatrix4fv;;
        emit_all (bindBatchTextures (_batchTextureCount s) (_batchTextures s));;
        emit (gl_drawArrays (_batchVertexCount s));;
        modify (with_batchVertexCount 0);;
        modify (fun s => with_batchID (_batchID s + 1) s)
    end.

(** [_renderCover()]: draws a card that covers the whole surface. *)
Definition _renderCover : M unit :=
  s ← get;
  modify (fun s => with_renderPerDraw (_renderPerDraw s + 1) s);;
  when (vocalDebug s)
    (emit (console_log ("Cover[" +:+ pretty (_drawID s) +:+ ":" +:+
                        pretty (_batchID s) +:+ "] : " +:+
                        showReason (batchReason s))));;
  let shaderProgram := _activeShader s in
  emit (gl_useProgram shaderProgram);;
  match shaderProgram with
  | None =>
      emit (gl_bindBuffer config_default attr_position);;
      throw "TypeError: cannot read properties of undefined (reading 'positionAttribute')"
  | Some _ =>
      emit_all [gl_bindBuffer config_default attr_position;
                gl_vertexAttribPointer shaderProgram config_default attr_position;
                gl_bufferSubData config_default attr_position COVER_VERT];;
      emit_all [gl_bindBuffer config_default attr_uv;
                gl_vertexAttribPointer shaderProgram config_default attr_uv;
                gl_bufferSubData config_default attr_uv COVER_UV];;
      emit gl_uniform1i;;
      emit (gl_drawArrays INDICES_PER_CARD);;
      modify (fun s => with_batchID (_batchID s + 1) s)
  end.

(** [setTextureParams(gl, isPOT)] *)
Definition setTextureParams : M unit := emit gl_texParameters.

(** [resizeTexture(texture, width, height)] *)
Definition resizeTexture (texture : surface) (w h : Z) : M unit :=
  match texture with
  | SUndefined | SNull => mret tt
  | SStage =>
      emit (gl_bindTexture SStage);; emit (gl_texImage2D_size w h)
  | STexture t =>
      s ← get;
      if bool_decide (WebGLTexture.width (tex s t) = Some w) &&
         bool_decide (WebGLTexture.height (tex s t) = Some h)
      then mret tt
      else
        emit (gl_bindTexture (STexture t));;
        emit (gl_texImage2D_size w h);;
        modify (set_tex t (WebGLTexture.with_size (Some w) (Some h)))
  end.

(** [getBaseTexture(w, h)]: [None] when the context returns no texture. *)
Definition getBaseTexture (w h : Z) : M (option texref) :=
  let width := if 0 <? w then w else 1 in
  let height := if 0 <? h then h else 1 in
  s ← get;
  let n := allocated s in
  modify (with_allocated (S n));;
  if createTexture (_webGLContext s) n then
    modify (with_textures (<[n := WebGLTexture.fresh]> (textures s)));;
    emit (gl_createTexture (Some n));;
    resizeTexture (STexture n) width height;;
    setTextureParams;;
    mret (Some n)
  else
    emit (gl_createTexture None);;
    setTextureParams;;
    mret None.

(** [getRenderBufferTexture(w, h)] *)
Definition getRenderBufferTexture (w h : Z) : M surface :=
  renderTexture ← getBaseTexture w h;
  match renderTexture with
  | None => mret SUndefined
  | Some t =>
      s ← get;
      let n := allocated s in
      modify (with_allocated (S n));;
      if createFramebuffer (_webGLContext s) n then
        emit (gl_createFramebuffer (Some n));;
        modify (set_tex t (WebGLTexture.with_size (Some w) (Some h)));;
        emit (gl_bindFramebuffer (Some n));;
        emit (gl_framebufferTexture2D t);;
        modify (set_tex t (WebGLTexture.with_frameBuffer (Some n)));;
        s ← get;
        let storeID := Z.of_nat (length (_textureDictionary s)) in
        modify (set_tex t (WebGLTexture.with_storeID (Some storeID)));;
        modify (with_textureDictionary
                  (arr_set (_textureDictionary s) storeID (Some t)));;
        emit (gl_bindFramebuffer None);;
        mret (STexture t)
      else
        emit (gl_createFramebuffer None);;
        mret SUndefined
  end.

(** [_getSafeTexture(w, h)]: the first base texture stands in for a texture
    that could not be created. *)
Definition _getSafeTexture (w h : Z) : M (option texref) :=
  texture ← getBaseTexture w h;
  match texture with
  | Some t => mret (Some t)
  | None =>
      emit (console_log "Problem creating texture, possible cause: using too much VRAM, please try releasing texture memory");;
      s ← get;
      mret (arr_get (_baseTextures s) 0)
  end.

(** [_fetchShaderProgram(coverShader, undefined, customFRAG, setup)]: a
    shader that does not compile throws from [_createShader], one that does
    not link throws after the active program is restored. *)
Definition _fetchShaderProgram (cover : bool) (frag : option string)
  : M program :=
  s ← get;
  emit (gl_useProgram None);;
  let request := {| coverShader := cover; customFRAG := frag;
                    textureCount := _batchTextureCount s |} in
  let status := buildProgram (_webGLContext s) request in
  emit (gl_buildProgram request status);;
  match status with
  | CompileFailed => throw "shader info log"
  | LinkFailed =>
      emit (gl_useProgram (_activeShader s));;
      throw "program info log"
  | Linked =>
      let shaderProgram :=
        {| program_id := allocated s; program_cover := cover |} in
      modify (with_allocated (S (allocated s)));;
      emit (gl_useProgram (Some shaderProgram));;
      emit (gl_programSetup shaderProgram);;
      emit (gl_useProgram (_activeShader s));;
      mret shaderProgram
  end.

(** ** The texture resource manager *)

(** What the renderer takes an image from: an image or canvas element, or
    (for a cached object) a render texture, which "knows how to look itself
    up". *)
Inductive source :=
| SrcImage (i : imgref)
| SrcTexture (t : texref).

Definition source_storeID (s : StageGL) (x : source) : option Z :=
  match x with
  | SrcImage i => Image._storeID (img s i)
  | SrcTexture t => WebGLTexture._storeID (tex s t)
  end.

Definition source_set_storeID (x : source) (v : option Z) : StageGL -> StageGL :=
  match x with
  | SrcImage i => set_img i (Image.with_storeID v)
  | SrcTexture t => set_tex t (WebGLTexture.with_storeID v)
  end.

Definition source_set_drawID (x : source) (v : option Z) : StageGL -> StageGL :=
  match x with
  | SrcImage i => set_img i (Image.with_drawID v)
  | SrcTexture t => set_tex t (WebGLTexture.with_drawID v)
  end.

(** [_killTextureObject(texture)] *)
Definition _killTextureObject (texture : option texref) : M unit :=
  match texture with
  | None => mret tt
  | Some t =>
      s ← get;
      (* remove linkage *)
      match WebGLTexture._storeID (tex s t) with
      | Some storeID =>
          if 0 <=? storeID then
            modify (with_textureDictionary
                      (arr_set (_textureDictionary s) storeID None));;
            modify (with_textureIDs
                      (filter (fun kv => kv.2 ≠ storeID) (_textureIDs s)));;
            match WebGLTexture._imageData (tex s t) with
            | Some data =>
                modify (fun s =>
                  foldr (fun i s => set_img i (Image.with_storeID None) s) s data)
            | None => mret tt
            end;;
            modify (set_tex t (fun x =>
              WebGLTexture.with_imageData None (WebGLTexture.with_storeID None x)))
          else mret tt
      | None => mret tt
      end;;
      (* make sure to drop it out of an active slot *)
      s ← get;
      match WebGLTexture._activeIndex (tex s t) with
      | Some activeIndex =>
          if bool_decide (arr_get (_batchTextures s) activeIndex = Some t) then
            modify (with_batchTextures
                      (arr_set (_batchTextures s) activeIndex
                               (arr_get (_baseTextures s) activeIndex)))
          else mret tt
      | None => mret tt
      end;;
      (* remove buffers if present *)
      s ← get;
      match WebGLTexture._frameBuffer (tex s t) with
      | Some fb => emit (gl_deleteFramebuffer fb)
      | None => mret tt
      end;;
      modify (set_tex t (WebGLTexture.with_frameBuffer None));;
      (* remove entry *)
      emit (gl_deleteTexture t)
  end.

(** [_updateTextureImageData(gl, image)] *)
Definition _updateTextureImageData (image : imgref) : M unit :=
  s ← get;
  let im := img s image in
  if negb (Image.complete im || Image._isCanvas im) then mret tt
  else
    match arr_at (_textureDictionary s) (Image._storeID im) with
    | None =>
        throw "TypeError: cannot read properties of undefined (reading '_activeIndex')"
    | Some t =>
        emit (gl_activeTexture (WebGLTexture._activeIndex (tex s t)));;
        emit (gl_bindTexture (STexture t));;
        setTextureParams;;
        emit (gl_pixelStorei true);;
        emit (gl_texImage2D_image image);;
        emit (gl_pixelStorei false);;
        match Image._invalid im with
        | Some _ => modify (set_img image (Image.with_invalid (Some false)))
        | None => mret tt
        end;;
        modify (set_tex t (WebGLTexture.with_size (Some (Image.width im))
                                                  (Some (Image.height im))))
    end.

(** [image && ((image._invalid === undefined && image._isCanvas) ||
    image._invalid)] for [image = texture._imageData && texture._imageData[0]] *)
Definition staleImage (s : StageGL) (t : texref) : option imgref :=
  match WebGLTexture._imageData (tex s t) with
  | Some (image :: _) =>
      let im := img s image in
      match Image._invalid im with
      | None => if Image._isCanvas im then Some image else None
      | Some b => if b then Some image else None
      end
  | _ => None
  end.

(** [!this._slotBlacklist[look]] is false *)
Definition blacklisted (s : StageGL) (look : Z) : bool :=
  if look <? 0 then false
  else default false (_slotBlacklist s !! Z.to_nat look).

(** [this._batchTextures[look]._batchID !== this._batchID &&
    !this._slotBlacklist[look]], for the occupant [o] of the slot *)
Definition eligible (s : StageGL) (look : Z) (o : texref) : bool :=
  negb (bool_decide (WebGLTexture._batchID (tex s o) = Some (_batchID s))) &&
  negb (blacklisted s look).

(** The [do ... while (look !== start)] scan of [_insertTextureInBatch]:
    [Some look] when a slot was found, [None] when the scan came back to
    [start].  The fuel bounds the number of slots looked at. *)
Fixpoint scanSlots (fuel : nat) (start look : Z) : M (option Z) :=
  match fuel with
  | O => fun s => OutOfFuel s
  | S fuel =>
      s ← get;
      match arr_get (_batchTextures s) look with
      | None =>
          throw "TypeError: cannot read properties of undefined (reading '_batchID')"
      | Some o =>
          if eligible s look o then mret (Some look)
          else
            match JS.rem (look + 1) (_batchTextureCount s) with
            | None =>
                throw "TypeError: cannot read properties of undefined (reading '_batchID')"
            | Some look' =>
                if look' =? start then mret None
                else scanSlots fuel start look'
            end
      end
  end.

(** The first half of [_insertTextureInBatch]'s insertion branch: "we've
    got to find it a spot" (from [let found = -1] to the flush that
    follows a scan that found nothing). *)
Definition findSlot : M Z :=
  s ← get;
  match JS.rem (_lastTextureInsert s + 1) (_batchTextureCount s) with
  | None =>
      throw "TypeError: cannot read properties of undefined (reading '_batchID')"
  | Some start =>
      found ← scanSlots (Z.to_nat (Z.abs (_batchTextureCount s))) start start;
      match found with
      | Some found => mret found
      | None =>
          (* we couldn't find anywhere for it go, meaning we're maxed out *)
          modify (with_batchReason (Some "textureOverflow"));;
          _renderBatch;;
          mret start
      end
  end.

(** [_insertTextureInBatch(gl, texture)] *)
Definition _insertTextureInBatch (texture : texref) : M unit :=
  s ← get;
  (if negb (bool_decide
             (arr_at (_batchTextures s) (WebGLTexture._activeIndex (tex s texture))
              = Some texture))
   then
     found ← findSlot;
     (* lets put it into that spot *)
     modify (fun s => with_batchTextures
                        (arr_set (_batchTextures s) found (Some texture)) s);;
     modify (set_tex texture (WebGLTexture.with_activeIndex (Some found)));;
     s ← get;
     match staleImage s texture with
     | Some image => _updateTextureImageData image
     | None => mret tt
     end;;
     modify (with_lastTextureInsert found)
   else if negb (bool_decide (WebGLTexture._drawID (tex s texture) = Some (_drawID s)))
   then
     match staleImage s texture with
     | Some image => _updateTextureImageData image
     | None => mret tt
     end
   else mret tt);;
  modify (fun s => set_tex texture (WebGLTexture.with_drawID (Some (_drawID s))) s);;
  modify (fun s => set_tex texture (WebGLTexture.with_batchID (Some (_batchID s))) s).

(** [_loadTextureImage(gl, image)]: [None] is [undefined]. *)
Definition _loadTextureImage (image : source) : M (option texref) :=
  s ← get;
  srcPath ←
    match image with
    | SrcImage i =>
        match Image.element (img s i) with
        | Image.HTMLImageElement src =>
            if bool_decide (src = "") then mret None else mret (Some src)
        | Image.HTMLCanvasElement =>
            (* canvases are already loaded and assumed unique so note that *)
            modify (set_img i (Image.with_isCanvas true));;
            modify (with_lastTrackedCanvas (_lastTrackedCanvas s + 1));;
            mret (Some ("canvas_" +:+ pretty (_lastTrackedCanvas s + 1)))
        | Image.OtherElement => mret None
        end
    | SrcTexture _ => mret None
    end;
  match srcPath with
  | None =>
      emit (console_log "Invalid image provided as source. Please ensure source is a correct DOM element.");;
      mret None
  | Some srcPath =>
      (* create the texture lookup and texture *)
      s ← get;
      '(storeID, texture) ←
        match _textureIDs s !! srcPath with
        | None =>
            let storeID := Z.of_nat (length (_textureDictionary s)) in
            modify (with_textureIDs (<[srcPath := storeID]> (_textureIDs s)));;
            modify (source_set_storeID image (Some storeID));;
            match image with
            | SrcImage i => modify (set_img i (Image.with_invalid (Some true)))
            | SrcTexture _ => mret tt
            end;;
            texture ← _getSafeTexture 1 1;
            modify (fun s => with_textureDictionary
                               (arr_set (_textureDictionary s) storeID texture) s);;
            mret (storeID, texture)
        | Some storeID =>
            modify (source_set_storeID image (Some storeID));;
            mret (storeID, arr_get (_textureDictionary s) storeID)
        end;
      match texture with
      | None =>
          throw "TypeError: cannot read properties of undefined (reading '_storeID')"
      | Some t =>
          (* allow the texture to track its references for cleanup, if it's
             not an error ref *)
          s ← get;
          (if bool_decide (WebGLTexture._storeID (tex s t) = Some (-1)) then mret tt
           else
             modify (set_tex t (WebGLTexture.with_storeID (Some storeID)));;
             match image with
             | SrcImage i =>
                 modify (set_tex t (fun x =>
                   WebGLTexture.with_imageData
                     (Some (default [] (WebGLTexture._imageData x) ++ [i])) x))
             | SrcTexture _ => mret tt
             end);;
          (* insert texture into batch *)
          _insertTextureInBatch t;;
          mret (Some t)
      end
  end.

(** ** The scene, as far as the renderer looks at it *)

(** A property that may be [undefined], [null] or set. *)
Inductive tri (A : Type) :=
| undefined
| null
| defined (a : A).
Arguments undefined {A}.
Arguments null {A}.
Arguments defined {A} a.

Definition truthy_tri {A} (x : tri A) : option A :=
  match x with defined a => Some a | _ => None end.

(** A display object.  [bitmapCache] holds the [_autoGenerated] flag of the
    cache manager; [image] is [Bitmap.image]; [currentFrame] is what
    [spriteSheet.getFrame(currentFrame)] returns for a [Sprite] ([None]:
    [null]) with the frame's image; [sheetImages] is [spriteSheet._images].
    The transform of an object and its source rectangle only feed the
    floating-point vertex positions and texture coordinates, which are not
    modelled. *)
#[local] Unset Elimination Schemes.
Inductive DisplayObject := {
  visible : bool;
  alpha : Q;
  compositeOperation : option string;
  cacheCanvas : tri source;
  filters : bool;
  bitmapCache : tri bool;
  children : option (list DisplayObject);
  _webGLRenderStyle : Z;
  image : option source;
  currentFrame : option (option source);
  sheetImages : list imgref;
}.
#[local] Set Elimination Schemes.

(** What [releaseTexture] may be handed. *)
Inductive item :=
| ItemFalsy
| ItemSource (x : source)
| ItemDisplay (d : DisplayObject).

Fixpoint forEach {A} (l : list A) (f : A -> M unit) : M unit :=
  match l with
  | [] => mret tt
  | x :: l => f x;; forEach l f
  end.

(** [data.indexOf(foundImage)] followed by [data.splice(index, 1)] when the
    index is not negative. *)
Fixpoint removeFirst (x : imgref) (data : list imgref) : list imgref :=
  match data with
  | [] => []
  | y :: data => if bool_decide (y = x) then data else y :: removeFirst x data
  end.

(** The end of [releaseTexture], from "remove it". *)
Definition releaseFound (foundImage : source) (safe : bool) : M unit :=
  s ← get;
  let texture := arr_at (_textureDictionary s) (source_storeID s foundImage) in
  if safe then
    match texture with
    | None =>
        throw "TypeError: cannot read properties of undefined (reading '_imageData')"
    | Some t =>
        match WebGLTexture._imageData (tex s t) with
        | None =>
            throw "TypeError: cannot read properties of undefined (reading 'indexOf')"
        | Some data =>
            let data :=
              match foundImage with
              | SrcImage i => removeFirst i data
              | SrcTexture _ => data
              end in
            modify (set_tex t (WebGLTexture.with_imageData (Some data)));;
            modify (source_set_storeID foundImage None);;
            if bool_decide (data = []) then _killTextureObject (Some t)
            else mret tt
        end
    end
  else _killTextureObject texture.

(** [releaseTexture(item, safe)] for an item that is a texture, an image
    or a canvas: the branch on [item._storeID]. *)
Definition releaseSource (x : source) (safe : bool) : M unit :=
  s ← get;
  match source_storeID s x with
  | Some storeID =>
      match x with
      | SrcTexture t =>
          if bool_decide (arr_get (_textureDictionary s) storeID = Some t) then
            (* this is a texture itself *)
            _killTextureObject (Some t);;
            modify (set_tex t (WebGLTexture.with_storeID None))
          else releaseFound x safe
      | SrcImage _ =>
          (* this is an image or canvas *)
          releaseFound x safe
      end
  | None =>
      when (vocalDebug s) (emit (console_log "No associated texture found on release"))
  end.

Section Collaborators.

(** [DisplayObject.uncache()] ends in [BitmapCache.release()], and
    [bitmapCache.define(...)] in [BitmapCache]; the class is not part of the
    sources at hand, so both are parameters.  [define] returns the
    [_cacheCanvas] it leaves in the cache manager. *)
Variable uncache : DisplayObject -> M unit.
Variable define : DisplayObject -> M (tri source).

(** [releaseTexture(item, safe)] for a display object. *)
Fixpoint releaseDisplayObject (d : DisplayObject) (safe : bool) : M unit :=
  (* this is a container object *)
  match children d with
  | Some l =>
      (fix each (l : list DisplayObject) : M unit :=
         match l with
         | [] => mret tt
         | c :: l => releaseDisplayObject c safe;; each l
         end) l
  | None => mret tt
  end;;
  (* this has a cache canvas *)
  match truthy_tri (cacheCanvas d) with
  | Some _ => uncache d
  | None => mret tt
  end;;
  if _webGLRenderStyle d =? 2 then
    (* this is a Bitmap class *)
    match image d with
    | Some foundImage => releaseFound foundImage safe
    | None =>
        throw "TypeError: cannot read properties of undefined (reading 'getImage')"
    end
  else if _webGLRenderStyle d =? 1 then
    (* this is a SpriteSheet, remove all its images *)
    forEach (sheetImages d) (fun i => releaseSource (SrcImage i) safe)
  else
    s ← get;
    when (vocalDebug s) (emit (console_log "No associated texture found on release")).

(** [releaseTexture(item, safe)] *)
Definition releaseTexture (i : item) (safe : bool) : M unit :=
  match i with
  | ItemFalsy => mret tt
  | ItemSource x => releaseSource x safe
  | ItemDisplay d => releaseDisplayObject d safe
  end.

End Collaborators.

(** [item._drawID + count <= this._drawID] *)
Definition expired (s : StageGL) (count : number) (i : imgref) : bool :=
  JS.le (JS.add (match Image._drawID (img s i) with
                 | Some d => JS.ofZ d
                 | None => NaN
                 end) count)
        (JS.ofZ (_drawID s)).

(** The inner loop of [purgeTextures] over [data = texture._imageData]: an
    item that is spliced out leaves the index where it is, so the loop
    visits every item once, in order; the result is what is left of
    [data]. *)
Fixpoint purgeData (count : number) (data : list imgref) : M (list imgref) :=
  match data with
  | [] => mret []
  | i :: data =>
      s ← get;
      if expired s count i then
        modify (set_img i (Image.with_storeID None));;
        purgeData count data
      else
        data ← purgeData count data;
        mret (i :: data)
  end.

(** One round of the outer loop of [purgeTextures], at index [i]. *)
Definition purgeAt (count : number) (i : nat) : M unit :=
  s ← get;
  match mjoin (_textureDictionary s !! i) with
  | None => mret tt
  | Some t =>
      match WebGLTexture._imageData (tex s t) with
      | None => mret tt
      | Some data =>
          data ← purgeData count data;
          modify (set_tex t (WebGLTexture.with_imageData (Some data)));;
          if bool_decide (data = []) then _killTextureObject (Some t)
          else mret tt
      end
  end.

(** [purgeTextures(count)] *)
Definition purgeTextures (count : number) : M unit :=
  let count := if JS.ge count (JS.ofZ 0) then count else JS.ofZ 100 in
  s ← get;
  forEach (seq 0 (length (_textureDictionary s))) (purgeAt count).

(** ** Render modes *)

(** An entry of [BLEND_SOURCES].  The GLSL text of a mode's shader is not
    reproduced: a mode that has one carries its own name in [b_shader]. *)
Record blendSource := {
  b_eqRGB : option string; b_srcRGB : option string; b_dstRGB : option string;
  b_eqA : option string; b_srcA : option string; b_dstA : option string;
  b_shader : option string;
}.

(** An entry with blend factors only, one that changes the alpha equation
    as well, and one with a shader. *)
Definition factors (srcRGB srcA dstRGB dstA : option string) : blendSource :=
  {| b_eqRGB := None; b_srcRGB := srcRGB; b_dstRGB := dstRGB;
     b_eqA := None; b_srcA := srcA; b_dstA := dstA; b_shader := None |}.
Definition factorsEq (eqA : string) (srcRGB srcA dstRGB dstA : option string)
  : blendSource :=
  {| b_eqRGB := None; b_srcRGB := srcRGB; b_dstRGB := dstRGB;
     b_eqA := Some eqA; b_srcA := srcA; b_dstA := dstA; b_shader := None |}.
Definition shaded (name : string) : blendSource :=
  {| b_eqRGB := None; b_srcRGB := None; b_dstRGB := None;
     b_eqA := None; b_srcA := None; b_dstA := None; b_shader := Some name |}.

Definition BLEND_TABLE : list (string * blendSource) :=
  [ ("source-over", factors None None None None);
    ("source-in", shaded "source-in");
    ("source-in_cheap",
       factors (Some "DST_ALPHA") (Some "ZERO") (Some "ZERO") (Some "SRC_ALPHA"));
    ("source-out", shaded "source-out");
    ("source-out_cheap",
       factorsEq "FUNC_SUBTRACT" (Some "ONE_MINUS_DST_ALPHA") (Some "ONE")
                 (Some "ZERO") (Some "SRC_ALPHA"));
    ("source-atop",
       factors (Some "DST_ALPHA") (Some "ZERO")
               (Some "ONE_MINUS_SRC_ALPHA") (Some "ONE"));
    ("destination-over",
       factors (Some "ONE_MINUS_DST_ALPHA") (Some "ONE_MINUS_DST_ALPHA")
               (Some "ONE") (Some "ONE"));
    ("destination-in", shaded "destination-in");
    ("destination-in_cheap",
       factors (Some "ZERO") (Some "DST_ALPHA") (Some "SRC_ALPHA") (Some "ZERO"));
    ("destination-out",
       factorsEq "FUNC_REVERSE_SUBTRACT" (Some "ZERO") (Some "DST_ALPHA")
                 (Some "ONE_MINUS_SRC_ALPHA") (Some "ONE"));
    ("destination-atop", shaded "destination-atop");
    ("destination-atop_cheap",
       factors (Some "ONE_MINUS_DST_ALPHA") (Some "ONE")
               (Some "SRC_ALPHA") (Some "ZERO"));
    ("copy", shaded "copy");
    ("copy_cheap", factors None None (Some "ZERO") (Some "ZERO"));
    ("xor", shaded "xor");
    ("multiply", shaded "multiply");
    ("multiply_cheap",
       factors (Some "ONE_MINUS_DST_ALPHA") (Some "ONE")
               (Some "SRC_COLOR") (Some "ONE"));
    ("screen",
       factors (Some "ONE") (Some "ONE")
               (Some "ONE_MINUS_SRC_COLOR") (Some "ONE_MINUS_SRC_ALPHA"));
    ("lighter", factors None None (Some "ONE") (Some "ONE"));
    ("lighten", shaded "lighten");
    ("darken", shaded "darken");
    ("overlay", shaded "overlay");
    ("hard-light", shaded "hard-light");
    ("soft-light", shaded "soft-light");
    ("color-dodge", shaded "color-dodge");
    ("color-burn", shaded "color-burn");
    ("difference", shaded "difference");
    ("exclusion", shaded "exclusion");
    ("hue", shaded "hue");
    ("saturation", shaded "saturation");
    ("color", shaded "color");
    ("luminosity", shaded "luminosity") ].

Fixpoint assoc {A} (k : string) (l : list (string * A)) : option A :=
  match l with
  | [] => None
  | (k', v) :: l => if String.eqb k k' then Some v else assoc k l
  end.

(** The own entry of [StageGL.BLEND_SOURCES] for a mode. *)
Definition BLEND_SOURCES (mode : string) : option blendSource :=
  assoc mode BLEND_TABLE.

(** The names under which every object finds a member of
    [Object.prototype]: for these [BLEND_SOURCES[name]] and
    [_builtShaders[name]] are not [undefined] even without an own entry.
    The member is a function (for "__proto__" the prototype itself), and
    none of the properties the renderer reads from it ([immediate],
    [shader], [eqRGB], ...) is defined. *)
Definition OBJECT_PROTOTYPE : list string :=
  [ "constructor"; "__defineGetter__"; "__defineSetter__"; "hasOwnProperty";
    "__lookupGetter__"; "__lookupSetter__"; "isPrototypeOf";
    "propertyIsEnumerable"; "toString"; "valueOf"; "__proto__";
    "toLocaleString" ].

Definition inherited (name : string) : bool :=
  existsb (String.eqb name) OBJECT_PROTOTYPE.

(** The object literal assigned to [_builtShaders[newMode]] in
    [_updateRenderMode]; its last property builds the shader and may
    throw, in which case nothing is assigned. *)
Definition buildShaderData (newMode : string) (blendSrc : blendSource)
  : M shaderData :=
  s ← get;
  program ←
    match b_shader blendSrc, _builtShaders s !! "source-over" with
    | None, Some sourceOver =>
        (* re-use source-over when we don't need a new shader *)
        mret (shader sourceOver)
    | frag, _ => _fetchShaderProgram true frag
    end;
  let shaderData :=
    {| eqRGB := default "FUNC_ADD" (b_eqRGB blendSrc);
       srcRGB := default "ONE" (b_srcRGB blendSrc);
       dstRGB := default "ONE_MINUS_SRC_ALPHA" (b_dstRGB blendSrc);
       eqA := default "FUNC_ADD" (b_eqA blendSrc);
       srcA := default "ONE" (b_srcA blendSrc);
       dstA := default "ONE_MINUS_SRC_ALPHA" (b_dstA blendSrc);
       immediate := bool_decide (is_Some (b_shader blendSrc));
       shader := program |} in
  modify (fun s => with_builtShaders (<[newMode := shaderData]> (_builtShaders s)) s);;
  mret shaderData.

(** [_updateRenderMode(newMode)] for a [newMode] that is no entry of
    [BLEND_SOURCES] but a name every object inherits: [blendSrc] is the
    inherited member, not [undefined], so no default is taken; and
    [_builtShaders[newMode]] is an own entry or, without one, the same
    member, so nothing is built.  [None] below is that member. *)
Definition switchToMember (newMode : string) : M unit :=
  s ← get;
  if bool_decide (_renderMode s = newMode) then mret tt
  else
    let shaderData := _builtShaders s !! newMode in
    let immediate := from_option immediate false shaderData in
    proceed ←
      (if immediate return M bool then
         if _directDraw s then
           when (vocalDebug s)
             (emit (console_log ("Illegal compositeOperation [" +:+ newMode +:+
                                 "] due to StageGL.directDraw = true, reverting to default")));;
           mret false
         else
           modify (with_activeConfig config_micro);;
           mret true
       else mret true);
    if proceed : bool then
      s ← get;
      fb ← frameBufferOrNull (_batchTextureOutput s);
      bindFramebuffer fb;;
      modify (with_batchReason (Some "shaderSwap"));;
      _renderBatch;;
      modify (with_renderMode newMode);;
      modify (with_immediateRender immediate);;
      emit (gl_blendEquationSeparate (eqRGB <$> shaderData) (eqA <$> shaderData));;
      emit (gl_blendFuncSeparate (srcRGB <$> shaderData) (dstRGB <$> shaderData)
                                 (srcA <$> shaderData) (dstA <$> shaderData))
    else mret tt.

(** [_updateRenderMode(newMode)]; [None] is [null] or [undefined].  Past
    the first test [newMode] is an entry of [BLEND_SOURCES], none of which
    is a name that objects inherit, so that [_builtShaders[newMode]] is
    [undefined] exactly when there is no own entry. *)
Definition _updateRenderMode (newMode : option string) : M unit :=
  let newMode := default "source-over" newMode in
  match BLEND_SOURCES newMode, inherited newMode with
  | None, true => switchToMember newMode
  | found, _ =>
  s ← get;
  '(newMode, blendSrc) ←
    match found return M (string * blendSource) with
    | Some blendSrc => mret (newMode, blendSrc)
    | None =>
        when (vocalDebug s)
          (emit (console_log ("Unknown compositeOperation [" +:+ newMode +:+
                              "], reverting to default")));;
        mret ("source-over", factors None None None None)
    end;
  if bool_decide (_renderMode s = newMode) then mret tt
  else
    shaderData ←
      match _builtShaders s !! newMode return M (option shaderData) with
      | Some shaderData => mret (Some shaderData)
      | None =>
          try_catch (d ← buildShaderData newMode blendSrc; mret (Some d))
            (fun e =>
               modify (fun s => with_builtShaders (delete newMode (_builtShaders s)) s);;
               emit (console_log "SHADER SWITCH FAILURE");;
               mret None)
      end;
    match shaderData with
    | None => mret tt
    | Some shaderData =>
        proceed ←
          (if immediate shaderData return M bool then
             if _directDraw s then
               when (vocalDebug s)
                 (emit (console_log ("Illegal compositeOperation [" +:+ newMode +:+
                                     "] due to StageGL.directDraw = true, reverting to default")));;
               mret false
             else
               modify (with_activeConfig config_micro);;
               mret true
           else mret true);
        if proceed : bool then
          s ← get;
          fb ← frameBufferOrNull (_batchTextureOutput s);
          bindFramebuffer fb;;
          modify (with_batchReason (Some "shaderSwap"));;
          _renderBatch;;
          modify (with_renderMode newMode);;
          modify (with_immediateRender (immediate shaderData));;
          emit (gl_blendEquationSeparate (Some (eqRGB shaderData))
                                         (Some (eqA shaderData)));;
          emit (gl_blendFuncSeparate (Some (srcRGB shaderData))
                                     (Some (dstRGB shaderData))
                                     (Some (srcA shaderData))
                                     (Some (dstA shaderData)))
        else mret tt
    end
  end.

(** ** Accumulating and flushing a frame *)

(** [_drawCover(out, dst, srcFilter)], for a [srcFilter] that is absent or a
    render texture.  (A [Filter] instance is only passed by [cacheDraw].) *)
Definition _drawCover (out : framebuffer) (dst : surface)
  (srcFilter : option surface) : M unit :=
  bindFramebuffer out;;
  match out with
  | fb_null => mret tt
  | _ => emit gl_clear
  end;;
  emit (gl_activeTexture (Some 0));;
  emit (gl_bindTexture dst);;
  setTextureParams;;
  s ← get;
  match srcFilter with
  | Some (STexture t) =>
      emit (gl_activeTexture (Some 1));;
      emit (gl_bindTexture (STexture t));;
      setTextureParams
  | Some SUndefined | None => mret tt
  | Some _ =>
      when (vocalDebug s) (emit (console_log "Unknown data handed to function: "))
  end;;
  match _builtShaders s !! _renderMode s with
  | None =>
      if inherited (_renderMode s) then
        (* the member every object inherits has no [shader] *)
        modify (with_activeShader None);;
        _renderCover
      else
        throw "TypeError: cannot read properties of undefined (reading 'shader')"
  | Some shaderData =>
      modify (with_activeShader (Some (shader shaderData)));;
      _renderCover
  end.

(** [_immediateBatchRender()] *)
Definition _immediateBatchRender : M unit :=
  s ← get;
  match _batchTextureConcat s with
  | SNull =>
      t ← getRenderBufferTexture (_viewportWidth s) (_viewportHeight s);
      modify (with_batchTextureConcat t)
  | concat =>
      resizeTexture concat (_viewportWidth s) (_viewportHeight s);;
      fb ← frameBufferOf concat;
      bindFramebuffer fb;;
      emit gl_clear
  end;;
  match _batchTextureTemp s with
  | SNull =>
      t ← getRenderBufferTexture (_viewportWidth s) (_viewportHeight s);
      modify (with_batchTextureTemp t);;
      fb ← frameBufferOf t;
      bindFramebuffer fb
  | temp =>
      resizeTexture temp (_viewportWidth s) (_viewportHeight s);;
      fb ← frameBufferOf temp;
      bindFramebuffer fb;;
      emit gl_clear
  end;;
  s ← get;
  let swap := _batchTextureOutput s in
  modify (with_batchTextureOutput (_batchTextureConcat s));;
  modify (with_batchTextureConcat swap);;
  modify (with_activeShader (_mainShader s));;
  modify (with_batchReason (Some "immediatePrep"));;
  _renderBatch;;
  modify (with_batchReason (Some "immediateResults"));;
  s ← get;
  out ← frameBufferOf (_batchTextureOutput s);
  _drawCover out (_batchTextureConcat s) (Some (_batchTextureTemp s));;
  s ← get;
  fb ← frameBufferOf (_batchTextureOutput s);
  bindFramebuffer fb.

(** [if (x) ...] on a composite operation: the empty string is falsy. *)
Definition truthy_string (x : option string) : option string :=
  match x with
  | Some m => if bool_decide (m = "") then None else Some m
  | None => None
  end.

(** [this._batchVertexCount + StageGL.INDICES_PER_CARD >
    this._maxBatchVertexCount] *)
Definition overflowing (s : StageGL) : bool :=
  JS.gt (JS.ofZ (_batchVertexCount s + INDICES_PER_CARD)) (_maxBatchVertexCount s).

Section Collaborators.

Variable define : DisplayObject -> M (tri source).

(** The cacheless-filter interruption of [_appendToBatch]: an object that
    has filters and no cache is given an automatic cache and drawn from
    it.  The result is the new value of [useCache]. *)
Definition cachelessFilter (item : DisplayObject) (ignoreCache : bool)
  : M (option (tri source)) :=
  s ← get;
  if negb (_directDraw s) && negb ignoreCache &&
     match cacheCanvas item with null => true | _ => false end && filters item
  then
    let autoGenerated :=
      match bitmapCache item with
      | null => true                (* a new BitmapCache, _autoGenerated *)
      | defined b => b
      | undefined => false
      end in
    if autoGenerated then
      modify (with_batchReason (Some "cachelessFilterInterupt"));;
      _renderBatch;;
      s ← get;
      let shaderBackup := _activeShader s in
      cacheCanvas ← define item;
      modify (with_activeShader shaderBackup);;
      s ← get;
      fb ← frameBufferOrNull (_batchTextureOutput s);
      bindFramebuffer fb;;
      mret (Some cacheCanvas)
    else mret None
  else mret None.

(** The texture of an image, put into the batch if needed; [None] stands
    for the [continue] after "Image source should not be lookup a non
    existent texture". *)
Definition textureFor (image : source) : M (option texref) :=
  s ← get;
  match source_storeID s image with
  | None =>
      (* this texture is new to us so load it and add it to the batch *)
      texture ← _loadTextureImage image;
      match texture with
      | Some t => mret (Some t)
      | None =>
          throw "TypeError: cannot read properties of undefined (reading '_activeIndex')"
      end
  | Some storeID =>
      match arr_get (_textureDictionary s) storeID with
      | None =>
          when (vocalDebug s)
            (emit (console_log "Image source should not be lookup a non existent texture, please report a bug."));;
          mret None
      | Some t =>
          (* put it in the batch if needed *)
          (if bool_decide (WebGLTexture._batchID (tex s t) = Some (_batchID s))
           then mret tt
           else _insertTextureInBatch t);;
          mret (Some t)
      end
  end.

(** The body of the loop of [_appendToBatch] for one child.  [recurse] is
    the call of [_appendToBatch] on the child itself, with the alpha it is
    given. *)
Definition appendItem (recurse : Q -> M unit) (item : DisplayObject)
  (concatAlpha : Q) (ignoreCache : bool) : M unit :=
  let useCache : option (tri source) :=
    if ignoreCache then None
    else match truthy_tri (cacheCanvas item) with
         | Some c => Some (defined c)
         | None => None
         end in
  if negb (visible item && negb (Qle_bool concatAlpha (35 # 10000))) then mret tt
  else
    let itemAlpha := alpha item in
    useCache ←
      match useCache return M (option (tri source)) with
      | None => cachelessFilter item ignoreCache
      | Some c => mret (Some c)
      end;
    match useCache, children item with
    | None, Some _ => recurse (itemAlpha * concatAlpha)%Q
    | _, _ =>
        s ← get;
        let containerRenderMode := _renderMode s in
        match truthy_string (compositeOperation item) with
        | Some m => _updateRenderMode (Some m)
        | None => mret tt
        end;;
        (* check for overflowing batch, if yes then force a render *)
        s ← get;
        (if overflowing s then
           modify (with_batchReason (Some "vertexOverflow"));;
           _renderBatch
         else mret tt);;
        (* get the image data, or abort if not present *)
        let image : option source :=
          match useCache with
          | Some c => truthy_tri c
          | None =>
              if _webGLRenderStyle item =? 2 then image item
              else if _webGLRenderStyle item =? 1 then
                match currentFrame item with
                | Some frameImage => frameImage
                | None => None
                end
              else None
          end in
        match image with
        | None => mret tt
        | Some image =>
            (* calculate texture *)
            texture ← textureFor image;
            match texture with
            | None => mret tt
            | Some t =>
                s ← get;
                let texIndex := WebGLTexture._activeIndex (tex s t) in
                modify (source_set_drawID image (Some (_drawID s)));;
                (* apply vertices, uvs, texture and alpha *)
                emit (write_quad (_activeConfig s) (_batchVertexCount s) texIndex);;
                modify (with_batchVertexCount (_batchVertexCount s + INDICES_PER_CARD));;
                (if _immediateRender s then
                   modify (with_activeConfig config_default);;
                   _immediateBatchRender
                 else mret tt);;
                s ← get;
                if bool_decide (_renderMode s = containerRenderMode) then mret tt
                else _updateRenderMode (Some containerRenderMode)
            end
        end
    end.

(** [_appendToBatch(container, concatMtx, concatAlpha, ignoreCache)] *)
Fixpoint _appendToBatch (container : DisplayObject) (concatAlpha : Q)
  (ignoreCache : bool) {struct container} : M unit :=
  s ← get;
  let previousRenderMode := _renderMode s in
  match truthy_string (compositeOperation container) with
  | Some m => _updateRenderMode (Some m)
  | None => mret tt
  end;;
  (* actually apply its data to the buffers *)
  match children container with
  | None =>
      throw "TypeError: cannot read properties of undefined (reading 'length')"
  | Some l =>
      (fix each (l : list DisplayObject) : M unit :=
         match l with
         | [] => mret tt
         | item :: l =>
             appendItem (fun a => _appendToBatch item a false)
                        item concatAlpha ignoreCache;;
             each l
         end) l
  end;;
  s ← get;
  if bool_decide (_renderMode s = previousRenderMode) then mret tt
  else _updateRenderMode (Some previousRenderMode).

(** [_drawContent(content, ignoreCache)] *)
Definition _drawContent (content : DisplayObject) (ignoreCache : bool)
  : M unit :=
  s ← get;
  modify (with_activeShader (_mainShader s));;
  frameBuffer ← frameBufferOrNull (_batchTextureOutput s);
  bindFramebuffer frameBuffer;;
  match frameBuffer with
  | fb_null => mret tt
  | _ => emit gl_clear
  end;;
  _appendToBatch content (alpha content) ignoreCache;;
  modify (with_batchReason (Some "contentEnd"));;
  _renderBatch.

(** [clear()] with a WebGL context *)
Definition clear : M unit :=
  emit (gl_bindFramebuffer None);;
  emit gl_clearColor;;
  emit gl_clear;;
  emit gl_clearColor.

(** [draw(context, ignoreCache)] with the WebGL context; the stage is the
    root container. *)
Definition draw (stage : DisplayObject) (ignoreCache : bool) : M bool :=
  s ← get;
  let storeBatchOutput := _batchTextureOutput s in
  let storeBatchConcat := _batchTextureConcat s in
  let storeBatchTemp := _batchTextureTemp s in
  modify (with_renderPerDraw 0);;
  modify (with_batchVertexCount 0);;
  modify (with_drawID (_drawID s + 1));;
  (if _directDraw s then
     modify (with_batchTextureOutput SStage);;
     when (autoClear s) clear
   else
     modify (with_batchTextureOutput (_bufferTextureOutput s));;
     modify (with_batchTextureConcat (_bufferTextureConcat s));;
     modify (with_batchTextureTemp (_bufferTextureTemp s)));;
  _updateRenderMode (Some "source-over");;
  _drawContent stage ignoreCache;;
  (if _directDraw s then mret tt
   else
     when (autoClear s) clear;;
     modify (with_batchReason (Some "finalOutput"));;
     s ← get;
     if _renderPerDraw s =? 0 then mret tt
     else _drawCover fb_null (_batchTextureOutput s) None);;
  (* batches may generate or swap around textures *)
  modify (fun s => with_bufferTextureOutput (_batchTextureOutput s) s);;
  modify (fun s => with_bufferTextureConcat (_batchTextureConcat s) s);;
  modify (fun s => with_bufferTextureTemp (_batchTextureTemp s) s);;
  modify (with_batchTextureOutput storeBatchOutput);;
  modify (with_batchTextureConcat storeBatchConcat);;
  modify (with_batchTextureTemp storeBatchTemp);;
  s ← get;
  (if autoPurgeDue (_autoPurge s) (_drawID s)
   then purgeTextures (_autoPurge s)
   else mret tt);;
  mret true.

End Collaborators.

(** ** Initialisation of the materials *)

(** [(x / 2)|0] *)
Definition halve (x : Z) : Z := JS.toInt32 (JS.half (JS.ofZ x)).

Definition inspect {A} (a : A) : {b : A | a = b} := exist _ a eq_refl.

Definition logReduction (s : StageGL) : StageGL :=
  if vocalDebug s then
    with_trace (console_log ("Reducing possible texture count due to errors: "
                             +:+ pretty (_batchTextureCount s)) :: trace s) s
  else s.

(** The loop of [_initMaterials] that builds the main batch shader:
    [while (!success) { try { ... } catch (e) { ... } }].  Every failed
    attempt with more than one texture halves [_batchTextureCount], which
    is the measure of the recursion. *)
Equations? compileMainShader (s : StageGL) : outcome unit
  by wf (Z.to_nat (_batchTextureCount s)) lt :=
compileMainShader s with inspect (_fetchShaderProgram false None s) := {
  | exist _ (Ret p s') _ => Ret tt (with_activeShader (Some p) s')
  | exist _ (OutOfFuel s') _ => OutOfFuel s'
  | exist _ (Throw e s') _ with inspect (_batchTextureCount s' <=? 1) := {
    | exist _ true _ => Throw ("Cannot compile shader " +:+ e) s'
    | exist _ false _ =>
        compileMainShader
          (logReduction
             (with_batchTextureCount (halve (_batchTextureCount s')) s')) } }.
Proof.
  assert (Hc : _batchTextureCount s' = _batchTextureCount s).
  { clear compileMainShader.
    match goal with H : _fetchShaderProgram _ _ _ = _ |- _ => revert H end.
    unfold _fetchShaderProgram.
    cbv [mbind M_bind bind get emit modify throw mret M_ret ret].
    destruct (buildProgram _ _); intros [= <- <-]; reflexivity. }
  assert (Hh : halve (_batchTextureCount s') < _batchTextureCount s').
  { match goal with H : (_ <=? 1) = false |- _ => apply Z.leb_gt in H end.
    unfold halve, JS.toInt32, JS.half, JS.ofZ, JS.trunc, JS.wrap32.
    cbn [Qnum Qden Qdiv Qmult Qinv inject_Z].
    set (c := _batchTextureCount s') in *.
    replace ((c * 1) `quot` Z.pos (1 * 2)) with (c `quot` 2) by (f_equal; lia).
    assert (0 <= Z.quot c 2 < c) by (rewrite Z.quot_div_nonneg by lia; split;
      [apply Z.div_pos; lia | apply Z.div_lt; lia]).
    pose proof (Z.mod_pos_bound (Z.quot c 2) (2 ^ 32) ltac:(lia)).
    pose proof (Z.mod_le (Z.quot c 2) (2 ^ 32) ltac:(lia) ltac:(lia)).
    destruct (2 ^ 31 <=? _); lia. }
  unfold logReduction.
  destruct (vocalDebug _); unfold with_trace, with_batchTextureCount;
    cbn [_batchTextureCount]; lia.
Qed.

(** [_initMaterials()] *)
Definition _initMaterials : M unit :=
  (* reset counters, clear containers *)
  modify (with_lastTextureInsert (-1));;
  modify (with_textureDictionary []);;
  modify (with_textureIDs ∅);;
  modify (with_baseTextures []);;
  modify (with_batchTextures []);;
  s ← get;
  modify (with_gpuTextureCount (MAX_TEXTURE_IMAGE_UNITS (_webGLContext s)));;
  modify (with_gpuTextureMax (MAX_COMBINED_TEXTURE_IMAGE_UNITS (_webGLContext s)));;
  modify (with_batchTextureCount (MAX_TEXTURE_IMAGE_UNITS (_webGLContext s)));;
  compileMainShader;;
  modify (fun s => with_mainShader (_activeShader s) s);;
  (* fill in blanks *)
  texture ← getBaseTexture 1 1;
  match texture with
  | None =>
      throw "Problems creating basic textures, known causes include using too much VRAM by not releasing WebGL texture instances"
  | Some t =>
      modify (set_tex t (WebGLTexture.with_storeID (Some (-1))));;
      s ← get;
      let blanks := replicate (Z.to_nat (_batchTextureCount s)) (Some t) in
      modify (with_baseTextures blanks);;
      modify (with_batchTextures blanks)
  end.

(** ** Construction *)

(** The options of the constructor that the model reads
    ([StageGLOptions]). *)
Record StageGLOptions := {
  opt_autoPurge : option number;
  opt_directDraw : option bool;
  opt_batchSize : value;
}.

(** An instance before the constructor's body runs: the field
    initialisers of the class, for a canvas bound to the context [gl]. *)
Definition initialStage (gl : WebGLContext) : StageGL :=
  {| vocalDebug := false; autoClear := true; _autoPurge := JS.ofZ 1200;
     _directDraw := false; _viewportWidth := 0; _viewportHeight := 0;
     _webGLContext := gl; _maxBatchVertexCount := JS.ofZ 0;
     _activeShader := None; _mainShader := None; batchReason := None;
     _activeConfig := config_default;
     _bufferTextureOutput := SUndefined; _bufferTextureConcat := SUndefined;
     _bufferTextureTemp := SUndefined;
     _batchTextureOutput := SStage; _batchTextureConcat := SUndefined;
     _batchTextureTemp := SUndefined;
     _builtShaders := ∅; _textureDictionary := []; _textureIDs := ∅;
     _batchTextures := []; _baseTextures := [];
     _gpuTextureCount := 8; _gpuTextureMax := 8; _batchTextureCount := 0;
     _lastTextureInsert := -1; _renderMode := ""; _immediateRender := false;
     _batchVertexCount := 0; _batchID := 0; _drawID := 0; _renderPerDraw := 0;
     _slotBlacklist := []; _lastTrackedCanvas := -1;
     textures := ∅; images := ∅; allocated := 0%nat; trace := [] |}.

(** [updateViewport(width, height)] *)
Definition updateViewport (width height : Z) : M unit :=
  let width := if Z.abs (JS.wrap32 width) =? 0 then 1 else Z.abs (JS.wrap32 width) in
  let height := if Z.abs (JS.wrap32 height) =? 0 then 1 else Z.abs (JS.wrap32 height) in
  modify (fun s => ltac:(field_update _viewportWidth width) s);;
  modify (fun s => ltac:(field_update _viewportHeight height) s);;
  s ← get;
  match _bufferTextureOutput s with
  | SStage | SNull => mret tt
  | x => resizeTexture x width height
  end;;
  match _bufferTextureConcat s with
  | SNull => mret tt
  | x => resizeTexture x width height
  end;;
  match _bufferTextureTemp s with
  | SNull => mret tt
  | x => resizeTexture x width height
  end.

(** [_initializeWebGL()] for a canvas of the given size whose context is
    available. *)
Definition _initializeWebGL (canvasWidth canvasHeight : Z) : M unit :=
  emit (gl_blendEquationSeparate (Some "FUNC_ADD") (Some "FUNC_ADD"));;
  emit (gl_blendFuncSeparate (Some "ONE") (Some "ONE_MINUS_SRC_ALPHA")
                             (Some "ONE") (Some "ONE_MINUS_SRC_ALPHA"));;
  (* _createBuffers(): the two layouts; the default one is active *)
  modify (with_activeConfig config_default);;
  _initMaterials;;
  _updateRenderMode (Some "source-over");;
  updateViewport canvasWidth canvasHeight;;
  s ← get;
  if _directDraw s then mret tt
  else
    t ← getRenderBufferTexture (_viewportWidth s) (_viewportHeight s);
    modify (with_bufferTextureOutput t).

(** [new StageGL(canvas, options)] *)
Definition constructor (StringToNumber : string -> number)
  (gl : WebGLContext) (canvasWidth canvasHeight : Z)
  (options : StageGLOptions) : outcome unit :=
  (modify (with_autoPurge (constructor_autoPurge (opt_autoPurge options)));;
   modify (fun s => ltac:(field_update _directDraw
                            (default true (opt_directDraw options))) s);;
   _initializeWebGL canvasWidth canvasHeight;;
   modify (with_maxBatchVertexCount
             (maxBatchVertexCount StringToNumber (opt_batchSize options))))
    (initialStage gl).

(** ** Colours *)

(** The object [{r, g, b, a}] that [colorToObj] returns. *)
Module Color.

Record t := { r : number; g : number; b : number; a : number }.

End Color.

(** The argument of [colorToObj]: [string|number]. *)
Inductive colorArg :=
| ColorString (color : string)
| ColorNumber (color : number).

(** [x / 255] *)
Definition div255 (x : number) : number :=
  match x with
  | Fin q => Fin (q / 255)
  | other => other
  end.

(** [Math.min(Math.max(0, x), 1)] *)
Definition clamp01 (x : number) : number :=
  JS.min (JS.max (JS.ofZ 0) x) (JS.ofZ 1).

(** [x & mask] on the 32-bit integer [x], and [x >>> n]. *)
Definition band (x mask : Z) : Z := Z.land x (JS.wrap32 mask).
Definition ushr (x n : Z) : Z := Z.shiftr (x mod 2 ^ 32) n.

(** [s.charAt(i)], [s.slice(from, to)] for [0 <= from <= to], and
    [s.slice(from, -1)]; a character stands for a UTF-16 code unit. *)
Definition charAt (s : string) (i : nat) : string :=
  match String.get i s with
  | Some c => String c ""
  | None => ""
  end.

Definition slice (s : string) (from to : nat) : string :=
  String.substring from (to - from) s.

Definition sliceToLast (s : string) (from : nat) : string :=
  String.substring from (String.length s - 1 - from) s.

(** [s.split(",")] *)
Fixpoint split_comma (s : string) : list string :=
  match s with
  | EmptyString => [EmptyString]
  | String c s' =>
      if Ascii.eqb c ","%char then EmptyString :: split_comma s'
      else match split_comma s' with
           | x :: l => String c x :: l
           | [] => [String c EmptyString]
           end
  end.

Section ColorToObj.

Variable StringToNumber : string -> number.

(** [Number(output[i])] *)
Definition numberAt (output : list string) (i : nat) : number :=
  JS.Number StringToNumber
    (match output !! i with Some x => VStr x | None => VUndefined end).

(** [StageGL.colorToObj(color)] *)
Definition colorToObj (color : colorArg) : Color.t :=
  let '(r, g, b, a) :=
    match color with
    | ColorString color =>
        if String.prefix "#" color then
          let color :=
            if (String.length color =? 4)%nat then
              "#" +:+ charAt color 1 +:+ charAt color 1
                  +:+ charAt color 2 +:+ charAt color 2
                  +:+ charAt color 3 +:+ charAt color 3
            else color in
          (div255 (StringToNumber ("0x" +:+ slice color 1 3)),
           div255 (StringToNumber ("0x" +:+ slice color 3 5)),
           div255 (StringToNumber ("0x" +:+ slice color 5 7)),
           if (7 <? String.length color)%nat
           then div255 (StringToNumber ("0x" +:+ slice color 7 9))
           else JS.ofZ 1)
        else if String.prefix "rgba(" color then
          let output := split_comma (sliceToLast color 5) in
          (div255 (numberAt output 0), div255 (numberAt output 1),
           div255 (numberAt output 2), numberAt output 3)
        else (JS.ofZ 0, JS.ofZ 0, JS.ofZ 0, JS.ofZ 0)
    | ColorNumber color =>
        (* >>> is an unsigned shift, as 0x80000000 and up are negative *)
        let c := JS.toInt32 color in
        (div255 (JS.ofZ (ushr (band c 0xFF000000) 24)),
         div255 (JS.ofZ (ushr (band c 0x00FF0000) 16)),
         div255 (JS.ofZ (ushr (band c 0x0000FF00) 8)),
         div255 (JS.ofZ (band c 0x000000FF)))
    end in
  {| Color.r := clamp01 r; Color.g := clamp01 g;
     Color.b := clamp01 b; Color.a := clamp01 a |}.

End ColorToObj.

(** ** Notions used in the statements *)

(** An auto-purge interval is well formed when it is the sentinel -1 or at
    least 10; it schedules soundly when, unless it is the sentinel, the
    modulus of the scheduling check is not zero. *)
Definition interval_wf (ap : number) : Prop :=
  JS.same ap (JS.ofZ (-1)) \/ JS.le (JS.ofZ 10) ap = true.

Definition modulus_nonzero (ap : number) : Prop :=
  JS.eqb ap (JS.ofZ (-1)) = false -> purgeModulus ap <> 0.

(** The events of a flush of the state [s], most recent first. *)
Definition flushEvents (s : StageGL) : list event :=
  [gl_drawArrays (_batchVertexCount s)] ++
  rev (bindBatchTextures (_batchTextureCount s) (_batchTextures s)) ++
  [gl_uniformMatrix4fv] ++
  rev (sendAttribute (_activeShader s) (_activeConfig s) attr_alpha) ++
  rev (sendAttribute (_activeShader s) (_activeConfig s) attr_uv) ++
  rev (sendAttribute (_activeShader s) (_activeConfig s) attr_texture) ++
  rev (sendAttribute (_activeShader s) (_activeConfig s) attr_position) ++
  [gl_useProgram (_activeShader s)] ++
  (if vocalDebug s then
     [console_log ("Batch[" +:+ pretty (_drawID s) +:+ ":" +:+
                   pretty (_batchID s) +:+ "] : " +:+
                   showReason (batchReason s))]
   else []).

(** The state after a flush that had vertices to submit. *)
Definition flushed (s : StageGL) : StageGL :=
  with_batchID (_batchID s + 1)
    (with_batchVertexCount 0
       (with_trace (flushEvents s ++ trace s)
          (with_renderPerDraw (_renderPerDraw s + 1) s))).

(** The state in which a flush stops when there is no active shader to
    read the attribute locations from. *)
Definition stalled (s : StageGL) : StageGL :=
  with_trace
    ([gl_bindBuffer (_activeConfig s) attr_position; gl_useProgram None] ++
     (if vocalDebug s then
        [console_log ("Batch[" +:+ pretty (_drawID s) +:+ ":" +:+
                      pretty (_batchID s) +:+ "] : " +:+
                      showReason (batchReason s))]
      else []) ++ trace s)
    (with_renderPerDraw (_renderPerDraw s + 1) s).

(** A flush can take place: there is a shader to draw with, or there is
    nothing to draw. *)
Definition can_flush (s : StageGL) : Prop :=
  _batchVertexCount s <= 0 \/ is_Some (_activeShader s).

(** What [_renderBatch] comes to in the state [s]. *)
Definition flushOutcome (s : StageGL) : outcome unit :=
  if _batchVertexCount s <=? 0 then Ret tt s
  else
    match _activeShader s with
    | Some _ => Ret tt (flushed s)
    | None =>
        Throw "TypeError: cannot read properties of undefined (reading 'positionAttribute')"
          (stalled s)
    end.

(** Whether the main batch shader builds when [count] textures are asked
    for. *)
Definition mainShaderBuilds (gl : WebGLContext) (count : Z) : bool :=
  match buildProgram gl {| coverShader := false; customFRAG := None;
                           textureCount := count |} with
  | Linked => true
  | _ => false
  end.

(** [retries gl n c], the retry sequence in the words of the
    specification: starting with [n] textures, the attempts come to try
    [c] textures; every count before [c] is more than 1, fails to build
    and is halved by integer division. *)
Inductive retries (gl : WebGLContext) : Z -> Z -> Prop :=
| retries_first n : retries gl n n
| retries_halve n c :
    mainShaderBuilds gl n = false -> 1 < n ->
    retries gl (n / 2) c -> retries gl n c.

(** The three steps of [_killTextureObject] as state transformers: remove
    the linkage of a texture that is stored under an index, drop it out of
    its active slot, and delete its GL objects. *)
Definition unlink (t : texref) (s : StageGL) : StageGL :=
  match WebGLTexture._storeID (tex s t) with
  | Some storeID =>
      if 0 <=? storeID then
        let s1 :=
          with_textureIDs (filter (fun kv => kv.2 ≠ storeID) (_textureIDs s))
            (with_textureDictionary
               (arr_set (_textureDictionary s) storeID None) s) in
        let s2 :=
          match WebGLTexture._imageData (tex s t) with
          | Some data =>
              foldr (fun i s => set_img i (Image.with_storeID None) s) s1 data
          | None => s1
          end in
        set_tex t (fun x =>
          WebGLTexture.with_imageData None (WebGLTexture.with_storeID None x)) s2
      else s
  | None => s
  end.

Definition dropSlot (t : texref) (s : StageGL) : StageGL :=
  match WebGLTexture._activeIndex (tex s t) with
  | Some activeIndex =>
      if bool_decide (arr_get (_batchTextures s) activeIndex = Some t) then
        with_batchTextures
          (arr_set (_batchTextures s) activeIndex
                   (arr_get (_baseTextures s) activeIndex)) s
      else s
  | None => s
  end.

Definition deleteObjects (t : texref) (s : StageGL) : StageGL :=
  with_trace
    (gl_deleteTexture t ::
     match WebGLTexture._frameBuffer (tex s t) with
     | Some fb => [gl_deleteFramebuffer fb]
     | None => []
     end ++ trace s)
    (set_tex t (WebGLTexture.with_frameBuffer None) s).

(** The texture, if any, at an index of the dictionary. *)
Definition slot (s : StageGL) (i : nat) : option texref :=
  mjoin (_textureDictionary s !! i).

(** [_killTextureObject] removes the linkage of a texture only when its
    [_storeID] is a non-negative index. *)
Definition unkillable (s : StageGL) (t : texref) : Prop :=
  match WebGLTexture._storeID (tex s t) with
  | Some storeID => storeID < 0
  | None => True
  end.

(** A texture that lists image sources carries the index it is stored
    under, as [_loadTextureImage] sets it up. *)
Definition linked (s : StageGL) (t : texref) : Prop :=
  is_Some (WebGLTexture._imageData (tex s t)) -> ~ unkillable s t.

Definition well_linked (s : StageGL) : Prop :=
  forall i t, slot s i = Some t -> linked s t.

(** Nothing is left to purge from a texture at threshold [count]: none of
    its sources has expired, and if its list is empty the texture was
    killed already and could not be unlinked. *)
Definition settled (count : number) (s : StageGL) (t : texref) : Prop :=
  forall data, WebGLTexture._imageData (tex s t) = Some data ->
    (forall i, i ∈ data -> expired s count i = false) /\
    (data = [] ->
     unkillable s t /\ WebGLTexture._frameBuffer (tex s t) = None).

(** The draw stamps that [purgeTextures] compares are the same in two
    states. *)
Definition same_age (s s' : StageGL) : Prop :=
  _drawID s' = _drawID s /\
  forall i, Image._drawID (img s' i) = Image._drawID (img s i).

(** Two states differ at most in the GPU slots and the trace. *)
Definition same_store (s s' : StageGL) : Prop :=
  s' = with_trace (trace s') (with_batchTextures (_batchTextures s') s).

(** The textures stored below index [k] have nothing left to purge. *)
Definition settled_below (count : number) (k : nat) (s : StageGL) : Prop :=
  forall i t, (i < k)%nat -> slot s i = Some t -> settled count s t.

(** No texture stored below index [k] is left with an empty list of
    sources. *)
Definition clean_below (k : nat) (s : StageGL) : Prop :=
  forall i t, (i < k)%nat -> slot s i = Some t ->
    WebGLTexture._imageData (tex s t) <> Some [].

(** ** Example stages

    A context with two texture units on which every program links and
    every object is created, and stages built on it by the constructor for
    a canvas of 100 by 100 pixels. *)
Definition gl0 : WebGLContext :=
  {| MAX_TEXTURE_IMAGE_UNITS := 2; MAX_COMBINED_TEXTURE_IMAGE_UNITS := 2;
     buildProgram := fun _ => Linked;
     createTexture := fun _ => true; createFramebuffer := fun _ => true |}.

Definition exampleOptions (directDraw : option bool) : StageGLOptions :=
  {| opt_autoPurge := None; opt_directDraw := directDraw;
     opt_batchSize := VUndefined |}.

Definition exampleStage (directDraw : option bool) : StageGL :=
  final (constructor (fun _ => NaN) gl0 100 100 (exampleOptions directDraw)).

(** A loaded image element of 10 by 10 pixels. *)
Definition picture (src : string) : Image.t :=
  {| Image.element := Image.HTMLImageElement src; Image.complete := true;
     Image.width := 10; Image.height := 10;
     Image._storeID := None; Image._drawID := None; Image._invalid := None;
     Image._isCanvas := false |}.

(** Three images, the first two with the same [src]. *)
Definition withPictures (s : StageGL) : StageGL :=
  with_trace []
    (with_images (<[0%nat := picture "a.png"]>
                    (<[1%nat := picture "a.png"]>
                       (<[2%nat := picture "b.png"]> ∅))) s).

(** The stage after the two images of the same [src] were loaded: they
    share one texture. *)
Definition sharedStage : StageGL :=
  final ((_loadTextureImage (SrcImage 0%nat);;
          _loadTextureImage (SrcImage 1%nat);; mret tt)
           (withPictures (exampleStage (Some false)))).

(** The events of building a program and of logging: no buffer is
    uploaded, nothing is drawn and the blend state is not touched. *)
Definition buildOrLog (e : event) : bool :=
  match e with
  | console_log _ | gl_useProgram _ | gl_buildProgram _ _ | gl_programSetup _ =>
      true
  | _ => false
  end.

(** ** Example scenes *)

(** A visible bitmap of full alpha that shows image [i], with the given
    composite operation, and a container of such children. *)
Definition bitmap (i : imgref) (op : option string) : DisplayObject :=
  {| visible := true; alpha := 1; compositeOperation := op;
     cacheCanvas := undefined; filters := false; bitmapCache := undefined;
     children := None; _webGLRenderStyle := 2; image := Some (SrcImage i);
     currentFrame := None; sheetImages := [] |}.

Definition container (l : list DisplayObject) : DisplayObject :=
  {| visible := true; alpha := 1; compositeOperation := None;
     cacheCanvas := undefined; filters := false; bitmapCache := undefined;
     children := Some l; _webGLRenderStyle := 0; image := None;
     currentFrame := None; sheetImages := [] |}.

(** No object of the example scenes asks for a cache. *)
Definition nodefine : DisplayObject -> M (tri source) :=
  fun _ => mret undefined.

(** [_batchTextureOutput ? _batchTextureOutput._frameBuffer : null], as
    [bindFramebuffer] records it. *)
Definition outputFrameBuffer (s : StageGL) : option fbref :=
  match _batchTextureOutput s with
  | STexture t => WebGLTexture._frameBuffer (tex s t)
  | _ => None
  end.

(** The state in which [_updateRenderMode] flushes when it switches to an
    immediate mode: the micro layout is active already. *)
Definition swapState (s : StageGL) : StageGL :=
  with_batchReason (Some "shaderSwap") (with_activeConfig config_micro s).

(** The two blend calls that end [_updateRenderMode], most recent first. *)
Definition blendEvents (d : shaderData) : list event :=
  [gl_blendFuncSeparate (Some (srcRGB d)) (Some (dstRGB d))
                        (Some (srcA d)) (Some (dstA d));
   gl_blendEquationSeparate (Some (eqRGB d)) (Some (eqA d))].

(** The stage with one quad of image 0 pending under "source-over". *)
Definition pendingStage : StageGL :=
  final (_appendToBatch nodefine (container [bitmap 0%nat None]) 1 false
           (withPictures (exampleStage (Some false)))).

(** The stage with that quad pending and no active shader. *)
Definition shaderlessStage : StageGL :=
  with_activeShader None pendingStage.

(** A context on which the batch shader builds for two textures at most,
    and the state in which the loop of [_initMaterials] starts on it with
    eight. *)
Definition glTwo : WebGLContext :=
  {| MAX_TEXTURE_IMAGE_UNITS := 8; MAX_COMBINED_TEXTURE_IMAGE_UNITS := 8;
     buildProgram :=
       fun r => if coverShader r || (textureCount r <=? 2) then Linked
                else CompileFailed;
     createTexture := fun _ => true; createFramebuffer := fun _ => true |}.

Definition eightStage : StageGL :=
  with_batchTextureCount 8 (initialStage glTwo).

(** ** Notions for the texture slots *)

(** Every slot of the batch holds a texture (after [_initMaterials] the
    base textures fill them). *)
Definition slots_filled (s : StageGL) : Prop :=
  forall i, 0 <= i < _batchTextureCount s ->
    is_Some (arr_get (_batchTextures s) i).

(** No texture in a slot carries a batch stamp ahead of the batch
    counter. *)
Definition stamps_behind (s : StageGL) : Prop :=
  forall i o b, arr_get (_batchTextures s) i = Some o ->
    WebGLTexture._batchID (tex s o) = Some b -> b <= _batchID s.

(** [(this._lastTextureInsert+1) % this._batchTextureCount] *)
Definition startSlot (s : StageGL) : Z :=
  Z.rem (_lastTextureInsert s + 1) (_batchTextureCount s).

(** The occupant of slot [i] was used in the current batch. *)
Definition stamped_current (s : StageGL) (i : Z) : Prop :=
  exists o, arr_get (_batchTextures s) i = Some o /\
            WebGLTexture._batchID (tex s o) = Some (_batchID s).

(** A context with a single texture unit and the stage built on it. *)
Definition gl1 : WebGLContext :=
  {| MAX_TEXTURE_IMAGE_UNITS := 1; MAX_COMBINED_TEXTURE_IMAGE_UNITS := 1;
     buildProgram := fun _ => Linked;
     createTexture := fun _ => true; createFramebuffer := fun _ => true |}.

Definition singleSlotStage : StageGL :=
  withPictures
    (final (constructor (fun _ => NaN) gl1 100 100 (exampleOptions (Some false)))).

(** Images 0 and 2 were loaded outside of a batch: the texture of image 2
    sits in the only slot, stamped with the current batch; that of image 0
    has lost the slot; no vertex is pending. *)
Definition crowdedStage : StageGL :=
  final ((_loadTextureImage (SrcImage 0%nat);;
          _loadTextureImage (SrcImage 2%nat);; mret tt) singleSlotStage).

(** Images 0 and 2 were drawn: the quad of image 2 is pending, its texture
    sits in the only slot. *)
Definition fullStage : StageGL :=
  final (_appendToBatch nodefine
           (container [bitmap 0%nat None; bitmap 2%nat None]) 1 false
           singleSlotStage).


(** A context on which no cover shader compiles (the batch shader
    does), and the stage the constructor builds on it. *)
Definition glNoCover : WebGLContext :=
  {| MAX_TEXTURE_IMAGE_UNITS := 2; MAX_COMBINED_TEXTURE_IMAGE_UNITS := 2;
     buildProgram := fun r => if coverShader r then CompileFailed else Linked;
     createTexture := fun _ => true; createFramebuffer := fun _ => true |}.

Definition noCoverStage : StageGL :=
  final (constructor (fun _ => NaN) glNoCover 100 100 (exampleOptions (Some false))).

(** A colour channel after clamping: a number from 0 to 1, or NaN. *)
Definition unit_or_NaN (x : number) : Prop :=
  match x with
  | NaN => True
  | Fin q => (0 <= q <= 1)%Q
  | _ => False
  end.

(** The byte of weight [2 ^ k] of an integer, over 255. *)
Definition byteOver255 (z k : Z) : number :=
  Fin (inject_Z ((z / 2 ^ k) mod 256) / 255).



(** ** Notions for the capacity of the batch *)

(** What an event says about the vertex cursor: a quad is written at a
    cursor that leaves room for its six vertices below the capacity
    [cap], and no more vertices are drawn than the capacity. *)
Definition event_fits (cap : number) (e : event) : Prop :=
  match e with
  | write_quad _ vertex _ =>
      0 <= vertex /\ JS.le (JS.ofZ (vertex + INDICES_PER_CARD)) cap = true
  | gl_drawArrays count => JS.le (JS.ofZ count) cap = true
  | _ => True
  end.

(** The stage respects the capacity [cap] with [k] vertices to spare: the
    capacity is the configured one, the cursor is not negative and leaves
    room for [k] more vertices, and every event so far fits. *)
Definition within (cap : number) (k : Z) (s : StageGL) : Prop :=
  _maxBatchVertexCount s = cap /\
  0 <= _batchTextureCount s /\
  0 <= _batchVertexCount s /\
  JS.le (JS.ofZ (_batchVertexCount s + k)) cap = true /\
  Forall (event_fits cap) (trace s).

(** The slack asked for is at most one quad, and the capacity holds at
    least one quad. *)
Definition slack_ok (cap : number) (k : Z) : Prop :=
  0 <= k <= INDICES_PER_CARD /\ JS.le (JS.ofZ INDICES_PER_CARD) cap = true.

(** A computation keeps the stage within the capacity, whether it returns
    or throws, and does not run out of fuel. *)
Definition keeps (cap : number) (k : Z) {A} (m : M A) : Prop :=
  forall s, within cap k s ->
    match m s with
    | Ret _ s' | Throw _ s' => within cap k s'
    | OutOfFuel _ => False
    end.

(** The outcome of a computation leaves the stage within the capacity. *)
Definition lands (cap : number) (k : Z) {A} (o : outcome A) : Prop :=
  match o with
  | Ret _ s' | Throw _ s' => within cap k s'
  | OutOfFuel _ => False
  end.

(** An outcome that leaves room for a quad when it is a return. *)
Definition spares (cap : number) {A} (o : outcome A) : Prop :=
  match o with
  | Ret _ s' => within cap INDICES_PER_CARD s'
  | Throw _ s' => within cap 0 s'
  | OutOfFuel _ => False
  end.

(** The number of display objects in a scene. *)
Fixpoint sceneSize (d : DisplayObject) : nat :=
  match children d with
  | Some l =>
      S ((fix sum (l : list DisplayObject) : nat :=
            match l with
            | [] => O
            | c :: l => (sceneSize c + sum l)%nat
            end) l)
  | None => 1%nat
  end.

(** A drawing that comes back comes back with [true]. *)
Definition always_true (m : M bool) : Prop :=
  forall s, match m s with Ret b _ => b = true | _ => True end.

(** ** Notions for what a draw leaves alone *)

(** Where a computation ends, by a return or by an exception. *)
Definition ends {A} (P : StageGL -> Prop) (o : outcome A) : Prop :=
  match o with
  | Ret _ s' | Throw _ s' => P s'
  | OutOfFuel _ => True
  end.

Definition preserves (P : StageGL -> Prop) {A} (m : M A) : Prop :=
  forall s, P s -> ends P (m s).

(** The fields that are set when the stage is configured. *)
Definition settings (s : StageGL)
  : bool * bool * bool * number * number * Z * Z :=
  (vocalDebug s, autoClear s, _directDraw s, _autoPurge s,
   _maxBatchVertexCount s, _viewportWidth s, _viewportHeight s).

(** What the methods under [draw] leave as it is in [s0]: the count of
    draws, the settings and the textures the stage keeps between draws. *)
Definition kept (s0 s : StageGL) : Prop :=
  _drawID s = _drawID s0 /\
  settings s = settings s0 /\
  _bufferTextureOutput s = _bufferTextureOutput s0 /\
  _bufferTextureConcat s = _bufferTextureConcat s0 /\
  _bufferTextureTemp s = _bufferTextureTemp s0.

(** They also leave a missing second batch texture missing. *)
Definition framed (s0 s : StageGL) : Prop :=
  kept s0 s /\
  (_batchTextureConcat s0 = SUndefined -> _batchTextureConcat s = SUndefined).

(** Neither [_batchTextureConcat] nor [_bufferTextureConcat] was ever
    assigned. *)
Definition no_concat (s : StageGL) : Prop :=
  _batchTextureConcat s = SUndefined /\ _bufferTextureConcat s = SUndefined.

(** Where a computation ends when it returns. *)
Definition returns_in {A} (Q : StageGL -> Prop) (o : outcome A) : Prop :=
  match o with
  | Ret _ s' => Q s'
  | _ => True
  end.

(** The three surfaces a batch is rendered with. *)
Definition batch_surfaces (s : StageGL) : surface * surface * surface :=
  (_batchTextureOutput s, _batchTextureConcat s, _batchTextureTemp s).

(** * Properties *)

(** ** Numbers *)

Lemma Qle_bool_false (p q : Q) : Qle_bool p q = false <-> (q < p)%Q.
Proof.
  split; intros H.
  - destruct (Qlt_le_dec q p) as [Hlt|Hle]; [exact Hlt|].
    apply Qle_bool_iff in Hle. congruence.
  - destruct (Qle_bool p q) eqn:E; [|reflexivity].
    apply Qle_bool_iff in E. exfalso. exact (Qlt_not_le _ _ H E).
Qed.

(** Case analysis on a comparison of rationals, leaving the order in the
    context. *)
Ltac case_Qle p q :=
  let E := fresh "E" in
  destruct (Qle_bool p q) eqn:E;
  [apply Qle_bool_iff in E | apply Qle_bool_false in E].

Ltac case_Qeq p q :=
  let E := fresh "E" in
  destruct (Qeq_bool p q) eqn:E;
  [apply Qeq_bool_iff in E | apply Qeq_bool_neq in E].

Lemma same_refl (x : number) : JS.same x x.
Proof. destruct x; simpl; auto. reflexivity. Qed.

(** The truncated half of a rational that is at least 10 and below 2^33
    lies between 5 and 2^32. *)
Lemma trunc_half_bounds (q : Q) :
  (10 <= q)%Q -> (q < inject_Z (2 ^ 33))%Q ->
  5 <= JS.trunc (q / 2) < 2 ^ 32.
Proof.
  destruct q as [n d]. unfold Qle, Qlt, JS.trunc. cbn [Qnum Qden Qdiv Qmult Qinv inject_Z].
  intros Hlo Hhi.
  replace (n * 1) with n by lia.
  replace (Z.pos (d * 2)) with (2 * Z.pos d) by lia.
  assert (0 < Z.pos d) by lia.
  rewrite Z.quot_div_nonneg by lia.
  split.
  - apply Z.div_le_lower_bound; lia.
  - apply Z.div_lt_upper_bound; lia.
Qed.

Lemma wrap32_nonzero (z : Z) : 0 < z < 2 ^ 32 -> JS.wrap32 z <> 0.
Proof.
  intros H. unfold JS.wrap32. rewrite Z.mod_small by lia.
  destruct (2 ^ 31 <=? z) eqn:E; lia.
Qed.

(** The capacity the constructor computes lies between 170 and 10920
    quads, whatever the option holds. *)
Lemma maxBatchVertexCount_bounds (toNum : string -> number) (batchSize : value) :
  exists q, maxBatchVertexCount toNum batchSize = Fin q /\
            (1020 <= q)%Q /\ (q <= 65520)%Q.
Proof.
  unfold maxBatchVertexCount, DEFAULT_MAX_BATCH_SIZE, DEFAULT_MIN_BATCH_SIZE,
    INDICES_PER_CARD, JS.ofZ, inject_Z.
  destruct (JS.Number toNum batchSize) as [| | |q]; cbn -[Qle_bool Qmult].
  1-3: eexists; split; [reflexivity|]; split; lra.
  destruct (negb (Qeq_bool q 0)); cbn -[Qle_bool Qmult].
  2: eexists; split; [reflexivity|]; split; lra.
  case_Qle q (10920 # 1); cbn -[Qle_bool Qmult].
  - case_Qle q (170 # 1); cbn -[Qle_bool Qmult];
      eexists; (split; [reflexivity|]); split; lra.
  - eexists; split; [reflexivity|]; split; lra.
Qed.

(** C8, as the specification states it, fails for a batch size of 0: the
    constructor reads a falsy size as "not given" and takes the maximum,
    65520 vertices, where the formula clamps 0 up to the minimum, 1020
    vertices. *)
Lemma batch_capacity_zero :
  maxBatchVertexCount (fun _ => NaN) (VNum (Fin 0)) = Fin 65520 /\
  capacity_spec (JS.Number (fun _ => NaN) (VNum (Fin 0))) = Fin 1020 /\
  ~ JS.same (Fin 65520) (Fin 1020).
Proof.
  repeat split; try reflexivity. simpl. intros H. discriminate H.
Qed.

(** C8 (amended): for every [batchSize] whose numeric value is truthy
    (neither 0 nor NaN) the capacity [_maxBatchVertexCount] is the size
    clamped between [DEFAULT_MIN_BATCH_SIZE] and [DEFAULT_MAX_BATCH_SIZE],
    times [INDICES_PER_CARD]; for every other [batchSize] (0, a string
    that is no number, or none) it is [DEFAULT_MAX_BATCH_SIZE *
    INDICES_PER_CARD]. *)
Theorem batch_capacity_formula (toNum : string -> number) (batchSize : value) :
  let n := JS.Number toNum batchSize in
  (JS.truthy n = true ->
   JS.same (maxBatchVertexCount toNum batchSize) (capacity_spec n)) /\
  (JS.truthy n = false ->
   maxBatchVertexCount toNum batchSize
   = JS.ofZ (DEFAULT_MAX_BATCH_SIZE * INDICES_PER_CARD)).
Proof.
  intros n. unfold maxBatchVertexCount, capacity_spec. fold n.
  split; intros Ht; rewrite Ht; [|reflexivity].
  unfold DEFAULT_MAX_BATCH_SIZE, DEFAULT_MIN_BATCH_SIZE, INDICES_PER_CARD,
    JS.ofZ, inject_Z.
  destruct n as [| | |q]; try discriminate; try (vm_compute; reflexivity).
  cbn -[Qle_bool Qmult].
  repeat match goal with
         | |- context [Qle_bool ?a ?b] => case_Qle a b; cbn -[Qle_bool Qmult]
         end;
    try (exfalso; lra); first [reflexivity | apply same_refl].
Qed.

Lemma set_autoPurge_wf (value : number) : interval_wf (set_autoPurge value).
Proof.
  unfold interval_wf, set_autoPurge.
  destruct value as [| | |q]; try (right; reflexivity).
  cbn -[Qle_bool Qeq_bool]. unfold JS.ofZ, inject_Z.
  case_Qeq q (-1 # 1); cbn -[Qle_bool Qeq_bool].
  - left. exact E.
  - right. case_Qle (10 # 1) q; cbn -[Qle_bool]; [|reflexivity].
    apply Qle_bool_iff. exact E0.
Qed.

Lemma constructor_autoPurge_wf (autoPurge : option number) :
  interval_wf (constructor_autoPurge autoPurge).
Proof.
  unfold constructor_autoPurge.
  destruct autoPurge as [v|]; [destruct (JS.truthy v)|];
    first [apply set_autoPurge_wf | right; reflexivity].
Qed.

Lemma interval_modulus (ap : number) :
  interval_wf ap -> JS.lt ap (JS.ofZ (2 ^ 33)) = true -> modulus_nonzero ap.
Proof.
  unfold interval_wf, modulus_nonzero, purgeModulus.
  destruct ap as [| | |q]; cbn -[Qle_bool Qeq_bool Z.pow Qdiv];
    try discriminate; try (intros [[]|]; discriminate).
  intros Hwf Hlt Hne. apply Qeq_bool_neq in Hne.
  destruct Hwf as [Hwf|Hwf]; [contradiction|].
  apply Qle_bool_iff in Hwf. apply negb_true_iff, Qle_bool_false in Hlt.
  apply wrap32_nonzero.
  pose proof (trunc_half_bounds q Hwf Hlt). lia.
Qed.

(** C10, as stated, fails for large intervals: 2^33 = 8589934592 is stored
    as it is (it is at least 10), its half is 2^32, which [|0] reduces to
    0; the remainder of the draw counter by it is NaN, and the check runs
    the purge on every draw. *)
Lemma autoPurge_modulus_zero :
  set_autoPurge (Fin (8589934592 # 1)) = Fin (8589934592 # 1) /\
  JS.le (JS.ofZ 10) (set_autoPurge (Fin (8589934592 # 1))) = true /\
  purgeModulus (set_autoPurge (Fin (8589934592 # 1))) = 0 /\
  JS.rem 7 (purgeModulus (set_autoPurge (Fin (8589934592 # 1)))) = None /\
  autoPurgeDue (set_autoPurge (Fin (8589934592 # 1))) 7 = true.
Proof. vm_compute. repeat split. Qed.

(** C10 (amended): after construction and after every assignment to
    [autoPurge], the stored interval is exactly -1 or at least 10, and a
    NaN is stored as 1200; consequently, for every stored interval below
    2^33 the modulus [(_autoPurge/2)|0] that [draw] uses (when the interval
    is not -1) is not zero, and the remainder in the scheduling check is a
    number. *)
Theorem autoPurge_interval (value : number) (autoPurge : option number) :
  interval_wf (set_autoPurge value) /\
  interval_wf (constructor_autoPurge autoPurge) /\
  set_autoPurge NaN = JS.ofZ 1200 /\
  (JS.lt (set_autoPurge value) (JS.ofZ (2 ^ 33)) = true ->
   modulus_nonzero (set_autoPurge value)) /\
  (JS.lt (constructor_autoPurge autoPurge) (JS.ofZ (2 ^ 33)) = true ->
   modulus_nonzero (constructor_autoPurge autoPurge)).
Proof.
  repeat split.
  - apply set_autoPurge_wf.
  - apply constructor_autoPurge_wf.
  - apply interval_modulus, set_autoPurge_wf.
  - apply interval_modulus, constructor_autoPurge_wf.
Qed.

(** ** Rounding to doubles *)

Lemma nearest_comp (q q' : Q) : (q == q')%Q -> JS.nearest q = JS.nearest q'.
Proof.
  intros H. unfold JS.nearest. rewrite (Qfloor_comp _ _ H).
  assert (E : (q - inject_Z (Qfloor q') ?= 1 # 2)%Q
              = (q' - inject_Z (Qfloor q') ?= 1 # 2)%Q)
    by (apply Qcompare_comp; [now rewrite H | reflexivity]).
  now rewrite E.
Qed.

Lemma nearest_int (z : Z) : JS.nearest (inject_Z z) = z.
Proof.
  unfold JS.nearest. rewrite Qfloor_Z.
  assert (E : (inject_Z z - inject_Z z ?= 1 # 2)%Q = Lt).
  { unfold Qcompare, Qminus, Qplus, Qopp, inject_Z.
    cbn [Qnum Qden]. apply Z.compare_lt_iff. lia. }
  now rewrite E.
Qed.

Lemma pow2_nonneg (e : Z) : 0 <= e -> JS.pow2 e = inject_Z (2 ^ e).
Proof.
  intros H. unfold JS.pow2.
  destruct (0 <=? e) eqn:E; [reflexivity | apply Z.leb_gt in E; lia].
Qed.

Lemma pow2_neg (e : Z) : e < 0 -> JS.pow2 e = (/ inject_Z (2 ^ (- e)))%Q.
Proof.
  intros H. unfold JS.pow2.
  destruct (0 <=? e) eqn:E; [apply Z.leb_le in E; lia | reflexivity].
Qed.

Lemma exponent_int (z : Z) : 0 < z -> JS.exponent (inject_Z z) = Z.log2 z.
Proof.
  intros H. unfold JS.exponent. cbn [Qnum Qden inject_Z].
  change (Z.log2 1) with 0. rewrite Z.sub_0_r.
  pose proof (Z.log2_nonneg z) as Hn.
  pose proof (Z.log2_spec z H) as [Hlo _].
  rewrite pow2_nonneg by exact Hn.
  assert (E : Qle_bool (inject_Z (2 ^ Z.log2 z)) (inject_Z z) = true)
    by (apply Qle_bool_iff; rewrite <- Zle_Qle; exact Hlo).
  now rewrite E.
Qed.

(** A positive integer up to 2^53 is a double. *)
Lemma round64_pos_int (z : Z) :
  0 < z <= 2 ^ 53 -> JS.same (JS.round64_pos (inject_Z z)) (JS.ofZ z).
Proof.
  intros [Hpos Hle]. unfold JS.round64_pos. rewrite exponent_int by exact Hpos.
  pose proof (Z.log2_nonneg z) as Hn.
  pose proof (Z.log2_spec z Hpos) as [Hlo Hhi].
  assert (He : Z.log2 z <= 53).
  { pose proof (Z.log2_le_mono _ _ Hle) as H.
    now rewrite Z.log2_pow2 in H by lia. }
  rewrite Z.max_l by lia.
  set (e := Z.log2 z) in *.
  assert (Hr : exists m : Z,
            (inject_Z z / JS.pow2 (e - 52) == inject_Z m)%Q /\
            (inject_Z m * JS.pow2 (e - 52) == inject_Z z)%Q).
  { destruct (Z_lt_le_dec e 52) as [Hsmall|Hbig].
    - exists (z * 2 ^ (52 - e)). rewrite pow2_neg by lia.
      replace (- (e - 52)) with (52 - e) by lia.
      assert (Hp : 0 < 2 ^ (52 - e)) by (apply Z.pow_pos_nonneg; lia).
      assert (Hq : ~ (inject_Z (2 ^ (52 - e)) == 0)%Q).
      { intros E. unfold Qeq, inject_Z in E. cbn [Qnum Qden] in E. lia. }
      rewrite inject_Z_mult. split; field; exact Hq.
    - rewrite pow2_nonneg by lia.
      assert (Hcases : e = 52 \/ e = 53) by lia.
      destruct Hcases as [E|E]; rewrite E.
      + exists z. change (2 ^ (52 - 52)) with 1. split; field.
      + assert (Hz : z = 2 ^ 53) by (rewrite E in Hlo; lia).
        exists (2 ^ 52). subst z. split; reflexivity. }
  destruct Hr as (m & Hdiv & Hmul).
  rewrite (nearest_comp _ _ Hdiv), nearest_int.
  assert (Hbig : Qle_bool (JS.pow2 1024) (inject_Z m * JS.pow2 (e - 52)) = false).
  { apply Qle_bool_false. rewrite Hmul.
    rewrite pow2_nonneg by lia. rewrite <- Zlt_Qlt.
    apply Z.le_lt_trans with (2 ^ 53); [exact Hle|].
    apply Z.pow_lt_mono_r; lia. }
  rewrite Hbig. exact Hmul.
Qed.

(** Integers up to 2^53 either way are doubles: their sums are exact as
    long as they stay in that range. *)
Lemma round64_int (z : Z) :
  Z.abs z <= 2 ^ 53 -> JS.same (JS.round64 (inject_Z z)) (JS.ofZ z).
Proof.
  intros H. unfold JS.round64.
  destruct (inject_Z z ?= 0)%Q eqn:E.
  - reflexivity.
  - apply Qlt_alt in E. change 0%Q with (inject_Z 0) in E.
    rewrite <- Zlt_Qlt in E.
    assert (Hm : 0 < - z <= 2 ^ 53) by lia.
    pose proof (round64_pos_int (- z) Hm) as Hs.
    rewrite inject_Z_opp in Hs.
    destruct (JS.round64_pos (- inject_Z z)) as [| | |r]; try contradiction.
    cbn in Hs |- *. rewrite Hs. unfold JS.ofZ. rewrite inject_Z_opp. ring.
  - apply Qgt_alt in E. change 0%Q with (inject_Z 0) in E.
    rewrite <- Zlt_Qlt in E.
    apply round64_pos_int. lia.
Qed.

Lemma add_int (a b : Z) :
  Z.abs (a + b) <= 2 ^ 53 ->
  JS.same (JS.add (JS.ofZ a) (JS.ofZ b)) (JS.ofZ (a + b)).
Proof.
  intros H. unfold JS.add, JS.ofZ.
  pose proof (round64_int (a + b) H) as Hs.
  rewrite inject_Z_plus in Hs.
  destruct (JS.round64 (inject_Z a + inject_Z b)) as [| | |r];
    try contradiction.
  cbn in Hs |- *. rewrite Hs. unfold JS.ofZ. now rewrite inject_Z_plus.
Qed.

(** A sum that no double lies closer to than to a summand is that
    summand: 5 + 2^-70 is 5, and 2^53 + 1 is 2^53. *)
Lemma add_absorbs :
  JS.same (JS.add (JS.ofZ 5) (Fin (JS.pow2 (-70)))) (JS.ofZ 5) /\
  JS.same (JS.add (JS.ofZ (2 ^ 53)) (JS.ofZ 1)) (JS.ofZ (2 ^ 53)) /\
  JS.same (JS.add (JS.ofZ (2 ^ 53 + 2)) (JS.ofZ 1)) (JS.ofZ (2 ^ 53 + 4)).
Proof. split; [|split]; vm_compute; reflexivity. Qed.

(** ** Flushing *)

(** Unfolding of the monad's operations. *)
Ltac run :=
  cbv [mbind mret M_bind M_ret bind ret get gets modify emit emit_all when
       throw try_catch final].

Lemma renderBatch_empty (s : StageGL) :
  _batchVertexCount s <= 0 -> _renderBatch s = Ret tt s.
Proof.
  intros H. unfold _renderBatch. run.
  apply Z.leb_le in H. now rewrite H.
Qed.

Lemma renderBatch_pending (s : StageGL) :
  0 < _batchVertexCount s -> is_Some (_activeShader s) ->
  _renderBatch s = Ret tt (flushed s).
Proof.
  intros H [p Hp]. unfold _renderBatch. run.
  apply Z.leb_gt in H. rewrite H, Hp.
  unfold flushed, flushEvents. rewrite Hp.
  destruct (vocalDebug s); cbn; rewrite <- ?app_assoc; reflexivity.
Qed.

(** Without an active shader a flush of pending vertices stops at the
    first attribute. *)
Lemma renderBatch_stalls (s : StageGL) :
  0 < _batchVertexCount s -> _activeShader s = None ->
  _renderBatch s =
  Throw "TypeError: cannot read properties of undefined (reading 'positionAttribute')"
    (stalled s).
Proof.
  intros H Hp. unfold _renderBatch. run.
  apply Z.leb_gt in H. rewrite H, Hp. unfold stalled.
  destruct (vocalDebug s); reflexivity.
Qed.

(** What [_renderBatch] does, in every state. *)
Lemma renderBatch_outcome (s : StageGL) : _renderBatch s = flushOutcome s.
Proof.
  unfold flushOutcome. destruct (_batchVertexCount s <=? 0) eqn:E.
  - apply renderBatch_empty. now apply Z.leb_le.
  - apply Z.leb_gt in E. destruct (_activeShader s) as [p|] eqn:Hp.
    + apply renderBatch_pending; [exact E | rewrite Hp; eauto].
    + now apply renderBatch_stalls.
Qed.

(** With a shader active, or nothing pending, [_renderBatch] returns. *)
Lemma renderBatch_returns (s : StageGL) :
  can_flush s ->
  _renderBatch s = Ret tt (if _batchVertexCount s <=? 0 then s else flushed s).
Proof.
  intros Hs. rewrite renderBatch_outcome. unfold flushOutcome.
  destruct (_batchVertexCount s <=? 0) eqn:E; [reflexivity|].
  apply Z.leb_gt in E. destruct Hs as [Hs|[p Hp]]; [lia|]. now rewrite Hp.
Qed.

(** C4: a flush with no pending vertex returns at once and leaves the
    whole state as it is: the cursor, the batch counter, the buffers (no
    event is recorded).  A flush with pending vertices and an active shader
    draws them all, resets the cursor [_batchVertexCount] to zero and adds
    exactly one to the batch counter [_batchID].  With pending vertices
    and no active shader the flush throws a TypeError, and the cursor and
    the batch counter stay as they were. *)
Theorem renderBatch_flush (s : StageGL) :
  (_batchVertexCount s <= 0 -> _renderBatch s = Ret tt s) /\
  (0 < _batchVertexCount s -> is_Some (_activeShader s) ->
   exists s', _renderBatch s = Ret tt s' /\
              _batchVertexCount s' = 0 /\
              _batchID s' = _batchID s + 1 /\
              exists es, trace s' = gl_drawArrays (_batchVertexCount s) :: es ++ trace s) /\
  (0 < _batchVertexCount s -> _activeShader s = None ->
   exists e s', _renderBatch s = Throw e s' /\
                _batchVertexCount s' = _batchVertexCount s /\
                _batchID s' = _batchID s).
Proof.
  split; [apply renderBatch_empty|]. split.
  - intros H Hp. exists (flushed s). split; [now apply renderBatch_pending|].
    repeat split. eexists. unfold flushed, flushEvents. cbn [trace with_batchID with_batchVertexCount with_trace].
    rewrite <- app_assoc. reflexivity.
  - intros H Hp. eexists _, (stalled s).
    split; [now apply renderBatch_stalls|]. split; reflexivity.
Qed.

(** On the stage with one quad pending and no active shader the flush
    throws, and leaves the six vertices and the batch counter. *)
Lemma renderBatch_no_shader :
  exists e s',
    _renderBatch shaderlessStage = Throw e s' /\
    _batchVertexCount shaderlessStage = 6 /\
    _batchVertexCount s' = 6 /\
    _batchID s' = _batchID shaderlessStage.
Proof.
  eexists _, _. split; [vm_compute; reflexivity|].
  split; [vm_compute; reflexivity|]. split; vm_compute; reflexivity.
Qed.

(** ** Degradation of the texture count *)

Lemma halve_quot (c : Z) : halve c = JS.wrap32 (c `quot` 2).
Proof.
  unfold halve, JS.toInt32, JS.half, JS.ofZ, JS.trunc.
  cbn [Qnum Qden Qdiv Qmult Qinv inject_Z].
  f_equal. f_equal; lia.
Qed.

(** What [_fetchShaderProgram] does with the request for the main batch
    shader. *)
Lemma fetch_main_shader (s : StageGL) :
  (mainShaderBuilds (_webGLContext s) (_batchTextureCount s) = true /\
   exists p s', _fetchShaderProgram false None s = Ret p s' /\
                _batchTextureCount s' = _batchTextureCount s /\
                _webGLContext s' = _webGLContext s) \/
  (mainShaderBuilds (_webGLContext s) (_batchTextureCount s) = false /\
   exists e s', _fetchShaderProgram false None s = Throw e s' /\
                _batchTextureCount s' = _batchTextureCount s /\
                _webGLContext s' = _webGLContext s).
Proof.
  unfold mainShaderBuilds, _fetchShaderProgram. run.
  destruct (buildProgram _ _); [right | right | left];
    (split; [reflexivity|]); do 2 eexists; repeat split.
Qed.

(** The loop, one round unfolded. *)
Lemma compileMainShader_round (s : StageGL) :
  compileMainShader s =
  match _fetchShaderProgram false None s with
  | Ret p s' => Ret tt (with_activeShader (Some p) s')
  | OutOfFuel s' => OutOfFuel s'
  | Throw e s' =>
      if _batchTextureCount s' <=? 1
      then Throw ("Cannot compile shader " +:+ e) s'
      else compileMainShader
             (logReduction
                (with_batchTextureCount (halve (_batchTextureCount s')) s'))
  end.
Proof.
  revert s.
  apply (compileMainShader_elim
           (fun s r =>
              r = match _fetchShaderProgram false None s with
                  | Ret p s' => Ret tt (with_activeShader (Some p) s')
                  | OutOfFuel s' => OutOfFuel s'
                  | Throw e s' =>
                      if _batchTextureCount s' <=? 1
                      then Throw ("Cannot compile shader " +:+ e) s'
                      else compileMainShader
                             (logReduction
                                (with_batchTextureCount
                                   (halve (_batchTextureCount s')) s'))
                  end)).
  - intros s p s' e _. now rewrite e.
  - intros s s' e _. now rewrite e.
  - intros s e s' e1 e2 _ _. now rewrite e2, e1.
  - intros s e s' e1 e2 _ _ _. now rewrite e2, e1.
Qed.

Lemma logReduction_count (s : StageGL) :
  _batchTextureCount (logReduction s) = _batchTextureCount s /\
  _webGLContext (logReduction s) = _webGLContext s.
Proof. unfold logReduction. destruct (vocalDebug s); split; reflexivity. Qed.

(** The code's [(count / 2) | 0] is the integer division by 2 of a count
    above 1 that is below 2^32, as every texture unit count is. *)
Lemma halve_div (c : Z) : 1 < c < 2 ^ 32 -> halve c = c / 2.
Proof.
  intros H. rewrite halve_quot, Z.quot_div_nonneg by lia. unfold JS.wrap32.
  assert (1 <= c / 2 < 2 ^ 31).
  { split; [apply Z.div_le_lower_bound; lia
           | apply Z.div_lt_upper_bound; lia]. }
  rewrite Z.mod_small by lia.
  destruct (2 ^ 31 <=? c / 2) eqn:E; lia.
Qed.

(** The loop comes to an end, whatever the count it starts with. *)
Lemma compileMainShader_total (s : StageGL) :
  exists s', compileMainShader s = Ret tt s' \/
             exists e, compileMainShader s = Throw e s'.
Proof.
  apply (compileMainShader_elim
           (fun s r => exists s', r = Ret tt s' \/ exists e, r = Throw e s')).
  - intros; eauto.
  - intros s0 s' e _.
    destruct (fetch_main_shader s0)
      as [(_ & p & s1 & H & _)|(_ & e1 & s1 & H & _)]; congruence.
  - intros; eauto.
  - intros; assumption.
Qed.

(** The outcome of the loop from a state with [n] textures: it ends at a
    count [c] reached by halvings, with the shader built and active, or
    with an exception at a count of at most 1 that does not build. *)
Lemma compileMainShader_outcome (n : nat) :
  forall s, Z.to_nat (_batchTextureCount s) = n ->
  _batchTextureCount s < 2 ^ 32 ->
  exists c s',
    retries (_webGLContext s) (_batchTextureCount s) c /\
    _batchTextureCount s' = c /\
    ((mainShaderBuilds (_webGLContext s) c = true /\
      compileMainShader s = Ret tt s' /\ is_Some (_activeShader s')) \/
     (mainShaderBuilds (_webGLContext s) c = false /\ c <= 1 /\
      exists e, compileMainShader s = Throw e s')).
Proof.
  induction (lt_wf n) as [n _ IH]. intros s Hn Hint.
  rewrite compileMainShader_round.
  destruct (fetch_main_shader s) as [(Hb & p & s' & -> & Hc & Hg)|(Hb & e & s' & -> & Hc & Hg)].
  - exists (_batchTextureCount s), (with_activeShader (Some p) s').
    split; [constructor|]. split; [exact Hc|]. left. repeat split; eauto.
  - destruct (_batchTextureCount s' <=? 1) eqn:E.
    + apply Z.leb_le in E. exists (_batchTextureCount s), s'.
      split; [constructor|]. split; [exact Hc|]. right.
      repeat split; eauto. lia.
    + apply Z.leb_gt in E.
      set (s2 := logReduction _).
      destruct (logReduction_count
                  (with_batchTextureCount (halve (_batchTextureCount s')) s'))
        as [Hc2 Hg2]. fold s2 in Hc2, Hg2.
      change (_batchTextureCount s2 = halve (_batchTextureCount s')) in Hc2.
      change (_webGLContext s2 = _webGLContext s') in Hg2.
      rewrite halve_div in Hc2 by lia.
      assert (Hhalf : 1 <= _batchTextureCount s' / 2 < _batchTextureCount s')
        by (split; [apply Z.div_le_lower_bound; lia | apply Z.div_lt; lia]).
      assert (Hlt : (Z.to_nat (_batchTextureCount s2) < n)%nat)
        by (rewrite Hc2, <- Hn, <- Hc; lia).
      destruct (IH _ Hlt s2 eq_refl ltac:(lia)) as (c & s3 & Hr & Hc3 & Hout).
      rewrite Hg2, Hg in Hr, Hout. rewrite Hc2, Hc in Hr.
      exists c, s3. split; [|split; [exact Hc3 | exact Hout]].
      apply retries_halve; [exact Hb | lia | exact Hr].
Qed.

(** Counts reached by halvings from a count of at least 1 are at least
    1. *)
Lemma retries_min (gl : WebGLContext) (n c : Z) :
  retries gl n c -> 1 <= n -> 1 <= c.
Proof.
  induction 1 as [|n c Hb Hn Hr IH]; intros Hrange; [exact Hrange|].
  apply IH. apply Z.div_le_lower_bound; lia.
Qed.

(** The counts tried form a chain. *)
Lemma retries_linear (gl : WebGLContext) (n a b : Z) :
  retries gl n a -> retries gl n b -> retries gl a b \/ retries gl b a.
Proof.
  induction 1 as [|n a Hb Hn Hr IH]; intros H2; [now left|].
  inversion H2; subst.
  - right. now apply retries_halve.
  - now apply IH.
Qed.

(** C5: the loop of [_initMaterials] that builds the main batch shader
    terminates for every context and every starting count, with the
    shader built or with an exception.  From a starting count below 2^32
    (a texture unit count is a 32-bit integer) the counts it tries are
    those of the specification: after each failure at a count above 1 the
    count is halved by integer division and the build is tried again; the
    loop ends either with the shader built, or, if and only if the build
    still fails at a count of at most 1, with the exception "Cannot
    compile shader"; from a starting count of at least 1 the count never
    drops below 1, so the last attempt is then made with exactly one
    texture. *)
Theorem initMaterials_degradation (s : StageGL) :
  let gl := _webGLContext s in
  let n := _batchTextureCount s in
  (exists s', compileMainShader s = Ret tt s' \/
              exists e, compileMainShader s = Throw e s') /\
  (n < 2 ^ 32 ->
   exists c s',
     retries gl n c /\ _batchTextureCount s' = c /\
     ((mainShaderBuilds gl c = true /\
       compileMainShader s = Ret tt s' /\ is_Some (_activeShader s')) \/
      (mainShaderBuilds gl c = false /\ c <= 1 /\
       exists e, compileMainShader s = Throw e s')) /\
     (1 <= n -> 1 <= c) /\
     ((exists e s'', compileMainShader s = Throw e s'') <->
      (exists c', retries gl n c' /\ c' <= 1 /\ mainShaderBuilds gl c' = false))).
Proof.
  intros gl n. split; [apply compileMainShader_total|]. intros Hint.
  destruct (compileMainShader_outcome _ s eq_refl Hint)
    as (c & s' & Hr & Hc & Hout).
  exists c, s'. repeat split; try assumption.
  - intros Hn. now apply (retries_min _ _ _ Hr).
  - intros (e & s'' & He).
    destruct Hout as [(_ & Hret & _)|(Hb & Hle & _)]; [congruence|].
    exists c. now repeat split.
  - intros (c' & Hr' & Hle' & Hb').
    destruct Hout as [(Hb & _ & _)|(_ & _ & e & He)]; [|now eauto].
    exfalso.
    destruct (retries_linear _ _ _ _ Hr Hr') as [H|H]; inversion H; subst;
      try congruence; try lia.
    all: fold gl in Hb; try congruence.
Qed.

(** On a context that builds the batch shader for two textures at most,
    the loop that starts with eight follows the retry sequence. *)
Lemma initMaterials_degradation_eight :
  exists c s',
    retries glTwo 8 c /\ _batchTextureCount s' = c /\
    ((mainShaderBuilds glTwo c = true /\
      compileMainShader eightStage = Ret tt s' /\ is_Some (_activeShader s')) \/
     (mainShaderBuilds glTwo c = false /\ c <= 1 /\
      exists e, compileMainShader eightStage = Throw e s')) /\
    (1 <= 8 -> 1 <= c) /\
    ((exists e s'', compileMainShader eightStage = Throw e s'') <->
     (exists c', retries glTwo 8 c' /\ c' <= 1 /\
                 mainShaderBuilds glTwo c' = false)).
Proof.
  apply (proj2 (initMaterials_degradation eightStage)).
  vm_compute. reflexivity.
Defined.

(** ** The heaps *)

Lemma tex_set_tex_eq (s : StageGL) (t : texref) f :
  tex (set_tex t f s) t = f (tex s t).
Proof. unfold tex, set_tex. cbn. now rewrite lookup_insert_eq. Qed.

Lemma tex_set_tex_ne (s : StageGL) (t u : texref) f :
  t <> u -> tex (set_tex t f s) u = tex s u.
Proof. intros H. unfold tex, set_tex. cbn. now rewrite lookup_insert_ne. Qed.

Lemma img_set_img_eq (s : StageGL) (i : imgref) f :
  img (set_img i f s) i = f (img s i).
Proof. unfold img, set_img. cbn. now rewrite lookup_insert_eq. Qed.

Lemma img_set_img_ne (s : StageGL) (i j : imgref) f :
  i <> j -> img (set_img i f s) j = img s j.
Proof. intros H. unfold img, set_img. cbn. now rewrite lookup_insert_ne. Qed.

(** ** Killing a texture *)

Lemma killTextureObject_steps (t : texref) (s : StageGL) :
  _killTextureObject (Some t) s
  = Ret tt (deleteObjects t (dropSlot t (unlink t s))).
Proof.
  unfold _killTextureObject, deleteObjects, dropSlot, unlink. run.
  destruct (WebGLTexture._storeID (tex s t)) as [storeID|];
    [destruct (0 <=? storeID);
     [destruct (WebGLTexture._imageData (tex s t))|] |].
  all: match goal with
       | |- context [WebGLTexture._activeIndex (tex ?x ?u)] =>
           destruct (WebGLTexture._activeIndex (tex x u)) as [k|]
       end.
  all: try match goal with
       | |- context [bool_decide (?P)] => destruct (bool_decide P)
       end.
  all: match goal with
       | |- context [WebGLTexture._frameBuffer (tex ?x ?u)] =>
           destruct (WebGLTexture._frameBuffer (tex x u))
       end; reflexivity.
Qed.

Lemma deleteObjects_trace (t : texref) (s : StageGL) :
  exists es, trace (deleteObjects t s) = gl_deleteTexture t :: es ++ trace s.
Proof. unfold deleteObjects. cbn. eauto. Qed.

Lemma dropSlot_trace (t : texref) (s : StageGL) :
  trace (dropSlot t s) = trace s.
Proof.
  unfold dropSlot. destruct (WebGLTexture._activeIndex _); [|reflexivity].
  destruct (bool_decide _); reflexivity.
Qed.

Lemma foldr_unmark_trace (data : list imgref) (s : StageGL) :
  trace (foldr (fun i s => set_img i (Image.with_storeID None) s) s data)
  = trace s.
Proof. induction data as [|i data IH]; [reflexivity|exact IH]. Qed.

Lemma unlink_trace (t : texref) (s : StageGL) : trace (unlink t s) = trace s.
Proof.
  unfold unlink. destruct (WebGLTexture._storeID _) as [storeID|]; [|reflexivity].
  destruct (0 <=? storeID); [|reflexivity].
  destruct (WebGLTexture._imageData _); cbn; [|reflexivity].
  now rewrite foldr_unmark_trace.
Qed.

(** A kill ends with the texture deleted. *)
Lemma killTextureObject_deletes (t : texref) (s : StageGL) :
  exists s' es,
    _killTextureObject (Some t) s = Ret tt s' /\
    trace s' = gl_deleteTexture t :: es ++ trace s.
Proof.
  rewrite killTextureObject_steps.
  destruct (deleteObjects_trace t (dropSlot t (unlink t s))) as [es H].
  exists (deleteObjects t (dropSlot t (unlink t s))), es.
  split; [reflexivity|]. now rewrite H, dropSlot_trace, unlink_trace.
Qed.

Lemma foldr_unmark_img (data : list imgref) (s : StageGL) (a : imgref) :
  Image._storeID (img s a) = None ->
  Image._storeID
    (img (foldr (fun i s => set_img i (Image.with_storeID None) s) s data) a)
  = None.
Proof.
  intros H. induction data as [|i data IH]; [exact H|]. cbn [foldr].
  destruct (decide (i = a)) as [->|Hne].
  - now rewrite img_set_img_eq.
  - now rewrite img_set_img_ne.
Qed.

(** A kill does not give a store index back to an image. *)
Lemma kill_keeps_released (t : texref) (s : StageGL) (a : imgref) :
  Image._storeID (img s a) = None ->
  Image._storeID (img (deleteObjects t (dropSlot t (unlink t s))) a) = None.
Proof.
  intros H.
  assert (H1 : Image._storeID (img (unlink t s) a) = None).
  { unfold unlink. destruct (WebGLTexture._storeID _) as [storeID|]; [|exact H].
    destruct (0 <=? storeID); [|exact H].
    destruct (WebGLTexture._imageData _); [apply foldr_unmark_img|]; exact H. }
  assert (H2 : Image._storeID (img (dropSlot t (unlink t s)) a) = None).
  { unfold dropSlot. destruct (WebGLTexture._activeIndex _); [|exact H1].
    destruct (bool_decide _); exact H1. }
  exact H2.
Qed.

(** ** Releasing *)

Lemma removeFirst_length (a : imgref) (data : list imgref) :
  a ∈ data -> S (length (removeFirst a data)) = length data.
Proof.
  induction data as [|b data IH]; intros H; [now apply not_elem_of_nil in H|].
  cbn. case_bool_decide as E; [reflexivity|].
  cbn. f_equal. apply IH. apply elem_of_cons in H as [->|H]; [congruence|exact H].
Qed.

Lemma removeFirst_others (a b : imgref) (data : list imgref) :
  b <> a -> b ∈ removeFirst a data <-> b ∈ data.
Proof.
  intros Hne. induction data as [|c data IH]; [reflexivity|].
  cbn. case_bool_decide as E.
  - subst c. rewrite elem_of_cons. intuition congruence.
  - rewrite !elem_of_cons, IH. reflexivity.
Qed.

(** C7: in safe mode, releasing an image source [a] whose texture [t]
    lists the sources [data] takes the first occurrence of [a] out of the
    list and nothing else, and clears the source's store index; the
    texture is killed (and its GL texture deleted) exactly when the list
    is empty after that.  In particular, when the list holds [a] and at
    least one more source, the texture stays in the dictionary with the
    other sources, and no GL call is made. *)
Theorem releaseTexture_safe (uncache : DisplayObject -> M unit)
  (s : StageGL) (a : imgref) (storeID : Z) (t : texref) (data : list imgref) :
  Image._storeID (img s a) = Some storeID ->
  arr_get (_textureDictionary s) storeID = Some t ->
  WebGLTexture._imageData (tex s t) = Some data ->
  let data' := removeFirst a data in
  exists s',
    releaseTexture uncache (ItemSource (SrcImage a)) true s = Ret tt s' /\
    Image._storeID (img s' a) = None /\
    (data' <> [] ->
     WebGLTexture._imageData (tex s' t) = Some data' /\
     arr_get (_textureDictionary s') storeID = Some t /\
     trace s' = trace s) /\
    (data' = [] ->
     exists es, trace s' = gl_deleteTexture t :: es ++ trace s) /\
    (forall b, b <> a -> b ∈ data' <-> b ∈ data) /\
    (a ∈ data -> S (length data') = length data) /\
    (a ∈ data -> (2 <= length data)%nat -> data' <> []).
Proof.
  intros Ha Hd Ht data'.
  set (s1 := set_img a (Image.with_storeID None)
               (set_tex t (WebGLTexture.with_imageData (Some data')) s)).
  assert (Hs1 : Image._storeID (img s1 a) = None)
    by (unfold s1; now rewrite img_set_img_eq).
  assert (Hrun : releaseTexture uncache (ItemSource (SrcImage a)) true s
                 = if bool_decide (data' = [])
                   then _killTextureObject (Some t) s1 else Ret tt s1).
  { unfold releaseTexture, releaseSource, releaseFound. run.
    repeat (progress (cbn [source_storeID arr_at]; rewrite ?Ha, ?Hd, ?Ht)).
    fold data'. destruct (bool_decide (data' = [])); reflexivity. }
  rewrite Hrun. clear Hrun.
  assert (Hrest :
    (forall b, b <> a -> b ∈ data' <-> b ∈ data) /\
    (a ∈ data -> S (length data') = length data) /\
    (a ∈ data -> (2 <= length data)%nat -> data' <> [])).
  { split; [|split].
    - intros b Hb. now apply removeFirst_others.
    - apply removeFirst_length.
    - intros Hin Hlen Hnil. apply removeFirst_length in Hin.
      fold data' in Hin. rewrite Hnil in Hin. cbn in Hin. lia. }
  case_bool_decide as Hnil.
  - rewrite killTextureObject_steps. eexists. split; [reflexivity|].
    split; [now apply kill_keeps_released|].
    split; [intros Hne; contradiction|].
    split; [|exact Hrest]. intros _.
    destruct (deleteObjects_trace t (dropSlot t (unlink t s1))) as [es ->].
    exists es. now rewrite dropSlot_trace, unlink_trace.
  - exists s1. split; [reflexivity|]. split; [exact Hs1|].
    split; [|split; [intros Hn; contradiction|exact Hrest]].
    intros _. unfold s1. split; [|split; [exact Hd|reflexivity]].
    unfold tex, set_img, set_tex. cbn. now rewrite lookup_insert_eq.
Qed.

(** On the stage where two images share texture 5, releasing the first one
    leaves the texture, now listing the second image only, in the
    dictionary, and makes no GL call. *)
Lemma releaseTexture_safe_shared :
  exists s',
    releaseTexture (fun _ => mret tt) (ItemSource (SrcImage 0%nat)) true
      sharedStage = Ret tt s' /\
    WebGLTexture._imageData (tex s' 5%nat) = Some [1%nat] /\
    arr_get (_textureDictionary s') 1 = Some 5%nat /\
    trace s' = trace sharedStage.
Proof.
  destruct (releaseTexture_safe (fun _ => mret tt) sharedStage 0%nat 1 5%nat
              [0%nat; 1%nat])
    as (s' & Hrun & _ & Hkeep & _);
    [vm_compute; reflexivity | vm_compute; reflexivity
    | vm_compute; reflexivity |].
  exists s'. split; [exact Hrun|]. apply Hkeep. vm_compute. discriminate.
Defined.

(** ** Purging *)

Lemma with_textures_id (s : StageGL) : with_textures (textures s) s = s.
Proof. now destruct s. Qed.

Lemma with_images_id (s : StageGL) : with_images (images s) s = s.
Proof. now destruct s. Qed.

Lemma set_tex_id (s : StageGL) (t : texref) f x :
  textures s !! t = Some x -> f x = x -> set_tex t f s = s.
Proof.
  intros Hx Hf. unfold set_tex, tex. rewrite Hx. cbn. rewrite Hf.
  rewrite insert_id by exact Hx. apply with_textures_id.
Qed.

(** A texture one of whose renderer fields is set is in the heap. *)
Lemma tex_present (s : StageGL) (t : texref) data :
  WebGLTexture._imageData (tex s t) = Some data ->
  textures s !! t = Some (tex s t).
Proof.
  unfold tex. destruct (textures s !! t); [reflexivity|discriminate].
Qed.

Lemma same_age_refl (s : StageGL) : same_age s s.
Proof. now split. Qed.

Lemma same_age_trans (s1 s2 s3 : StageGL) :
  same_age s1 s2 -> same_age s2 s3 -> same_age s1 s3.
Proof.
  intros [H1 H2] [H3 H4]. split; [congruence|].
  intros i. now rewrite H4, H2.
Qed.

Lemma same_age_expired (s s' : StageGL) (c : number) (i : imgref) :
  same_age s s' -> expired s' c i = expired s c i.
Proof. intros [H1 H2]. unfold expired. now rewrite H1, H2. Qed.

Lemma same_age_unmark (s : StageGL) (i : imgref) :
  same_age s (set_img i (Image.with_storeID None) s).
Proof.
  split; [reflexivity|]. intros j. destruct (decide (i = j)) as [->|Hne].
  - now rewrite img_set_img_eq.
  - now rewrite img_set_img_ne.
Qed.

(** The inner loop: it returns the sources that have not expired, and
    touches nothing but the store index of the others. *)
Lemma purgeData_spec (c : number) (data : list imgref) :
  forall s, exists s',
    purgeData c data s
    = Ret (filter (fun i => expired s c i = false) data) s' /\
    s' = with_images (images s') s /\
    same_age s s' /\
    ((forall i, i ∈ data -> expired s c i = false) -> s' = s).
Proof.
  induction data as [|i data IH]; intros s.
  - exists s. cbn. repeat split; auto. now rewrite with_images_id.
  - cbn [purgeData]. run. destruct (expired s c i) eqn:E.
    + set (s0 := set_img i (Image.with_storeID None) s).
      destruct (IH s0) as (s' & Hrun & Heq & Hage & _).
      exists s'. rewrite Hrun.
      assert (Hage0 : same_age s s0) by apply same_age_unmark.
      split; [|split; [|split]].
      * rewrite filter_cons_False by (rewrite E; discriminate).
        f_equal. apply list_filter_iff. intros j.
        now rewrite (same_age_expired _ _ c j Hage0).
      * rewrite Heq at 1. reflexivity.
      * now apply (same_age_trans _ s0).
      * intros Hall. specialize (Hall i ltac:(left)). congruence.
    + destruct (IH s) as (s' & Hrun & Heq & Hage & Hid).
      exists s'. rewrite Hrun.
      split; [|split; [|split]]; auto.
      * now rewrite filter_cons_True by exact E.
      * intros Hall. apply Hid. intros j Hj. apply Hall. now right.
Qed.

(** Clearing an entry of the dictionary is all that a kill does to it. *)
Lemma arr_set_None_lookup {A} (l : list (option A)) (id : Z) (i : nat) :
  mjoin (arr_set l id None !! i) = None \/
  arr_set l id None !! i = l !! i.
Proof.
  unfold arr_set. destruct (id <? 0); [now right|].
  destruct (Z.to_nat id <? length l)%nat eqn:E.
  - apply Nat.ltb_lt in E. destruct (decide (Z.to_nat id = i)) as [<-|Hne].
    + left. now rewrite list_lookup_insert_eq.
    + right. now apply list_lookup_insert_ne.
  - apply Nat.ltb_ge in E. destruct (decide (i < length l)%nat).
    + right. now rewrite lookup_app_l.
    + left. rewrite lookup_app_r by lia.
      destruct (decide (i - length l < Z.to_nat id - length l)%nat).
      * rewrite lookup_app_l by (rewrite length_replicate; lia).
        rewrite lookup_replicate_2 by lia. reflexivity.
      * rewrite lookup_app_r by (rewrite length_replicate; lia).
        rewrite length_replicate.
        destruct (i - length l - (Z.to_nat id - length l))%nat as [|[|?]];
          reflexivity.
Qed.

Lemma foldr_unmark_frame (data : list imgref) (s : StageGL) :
  let s' := foldr (fun i s => set_img i (Image.with_storeID None) s) s data in
  s' = with_images (images s') s /\ same_age s s'.
Proof.
  induction data as [|i data [IH1 IH2]]; cbn zeta.
  - split; [now rewrite with_images_id | apply same_age_refl].
  - cbn [foldr]. set (s' := foldr _ s data) in *. clearbody s'. split.
    + unfold set_img.
      transitivity
        (with_images (<[i := Image.with_storeID None (img s' i)]> (images s'))
           (with_images (images s') s)); [now rewrite <- IH1 | reflexivity].
    + eapply same_age_trans; [exact IH2 | apply same_age_unmark].
Qed.

Section Kill.

Variables (t : texref) (s : StageGL).

Let killed := deleteObjects t (dropSlot t (unlink t s)).

Lemma unlink_facts :
  same_age s (unlink t s) /\
  (forall i, slot (unlink t s) i = None \/ slot (unlink t s) i = slot s i) /\
  (forall u, u <> t -> tex (unlink t s) u = tex s u) /\
  (unkillable s t -> unlink t s = s) /\
  (~ unkillable s t ->
   tex (unlink t s) t
   = WebGLTexture.with_imageData None
       (WebGLTexture.with_storeID None (tex s t))) /\
  _batchTextures (unlink t s) = _batchTextures s /\
  _baseTextures (unlink t s) = _baseTextures s.
Proof.
  unfold unlink, unkillable.
  destruct (WebGLTexture._storeID (tex s t)) as [storeID|] eqn:Es.
  2: { repeat split; auto. intros H; contradiction H; exact I. }
  destruct (0 <=? storeID) eqn:E0.
  2: { apply Z.leb_gt in E0. repeat split; auto. intros H; contradiction. }
  apply Z.leb_le in E0.
  set (s1 := with_textureIDs _ _).
  set (s2 := match WebGLTexture._imageData (tex s t) with
             | Some data => _ | None => s1 end).
  assert (H2 : s2 = with_images (images s2) s1 /\ same_age s1 s2).
  { unfold s2. destruct (WebGLTexture._imageData (tex s t)).
    - apply foldr_unmark_frame.
    - split; [now rewrite with_images_id | apply same_age_refl]. }
  destruct H2 as [H2 [H2a H2b]].
  split; [|split; [|split; [|split; [|split; [|split]]]]].
  - split; [rewrite H2; reflexivity|]. intros i.
    transitivity (Image._drawID (img s2 i)); [reflexivity|]. apply H2b.
  - intros i. unfold slot. rewrite H2. cbn.
    destruct (arr_set_None_lookup (_textureDictionary s) storeID i) as [H|H];
      [now left | right; now rewrite H].
  - intros u Hu. rewrite tex_set_tex_ne by congruence. rewrite H2. reflexivity.
  - intros H. lia.
  - intros _. rewrite tex_set_tex_eq. rewrite H2. reflexivity.
  - rewrite H2. reflexivity.
  - rewrite H2. reflexivity.
Qed.

Lemma dropSlot_frame (s0 : StageGL) :
  dropSlot t s0 = with_batchTextures (_batchTextures (dropSlot t s0)) s0.
Proof.
  unfold dropSlot. destruct (WebGLTexture._activeIndex _).
  - destruct (bool_decide _); [reflexivity | now destruct s0].
  - now destruct s0.
Qed.

Lemma kill_facts :
  same_age s killed /\
  (forall i, slot killed i = None \/ slot killed i = slot s i) /\
  (forall u, u <> t -> tex killed u = tex s u) /\
  tex killed t = WebGLTexture.with_frameBuffer None (tex (unlink t s) t).
Proof.
  destruct unlink_facts as (Ha & Hs & Ht & _).
  unfold killed, deleteObjects. rewrite (dropSlot_frame (unlink t s)).
  split; [|split; [|split]].
  - destruct Ha as [Ha1 Ha2]. split; [exact Ha1 | exact Ha2].
  - exact Hs.
  - intros u Hu. unfold tex, set_tex. cbn. rewrite lookup_insert_ne by congruence.
    apply (Ht u Hu).
  - unfold tex, set_tex. cbn. now rewrite lookup_insert_eq.
Qed.

(** Killing again a texture that could not be unlinked and has no frame
    buffer changes the store no more. *)
Lemma kill_dead :
  unkillable s t -> WebGLTexture._frameBuffer (tex s t) = None ->
  textures s !! t = Some (tex s t) ->
  same_store s killed.
Proof.
  intros Hu Hf Hp. destruct unlink_facts as (_ & _ & _ & Hid & _).
  unfold killed. rewrite (Hid Hu). unfold same_store, deleteObjects.
  rewrite (dropSlot_frame s). cbn.
  unfold set_tex, tex. cbn. rewrite Hp. cbn.
  replace (WebGLTexture.with_frameBuffer None (tex s t)) with (tex s t)
    by (destruct (tex s t); cbn in *; now subst).
  rewrite insert_id by exact Hp. now destruct s.
Qed.

End Kill.

Lemma settled_frame (c : number) (s s' : StageGL) (u : texref) :
  same_age s s' -> tex s' u = tex s u -> settled c s u -> settled c s' u.
Proof.
  intros Ha Ht Hs data Hd. unfold unkillable. rewrite Ht in *.
  destruct (Hs data Hd) as [H1 H2]. split; [|exact H2].
  intros i Hi. rewrite (same_age_expired _ _ c i Ha). now apply H1.
Qed.

Lemma linked_frame (s s' : StageGL) (u : texref) :
  tex s' u = tex s u -> linked s u -> linked s' u.
Proof. unfold linked, unkillable. now intros ->. Qed.

Lemma unkillable_dec (s : StageGL) (t : texref) :
  unkillable s t \/ ~ unkillable s t.
Proof.
  unfold unkillable. destruct (WebGLTexture._storeID (tex s t)) as [id|];
    [lia | now left].
Qed.

Lemma filter_all {A} (P : A -> Prop) `{forall x, Decision (P x)} (l : list A) :
  (forall x, x ∈ l -> P x) -> filter P l = l.
Proof.
  induction l as [|x l IH]; intros H'; [reflexivity|].
  rewrite filter_cons_True by (apply H'; now left).
  f_equal. apply IH. intros y Hy. apply H'. now right.
Qed.

(** One round of the outer loop, whatever the state. *)
Lemma purgeAt_first (c : number) (k : nat) (s : StageGL) :
  exists s',
    purgeAt c k s = Ret tt s' /\
    same_age s s' /\
    (forall i, slot s' i = None \/ slot s' i = slot s i) /\
    (forall u, slot s k <> Some u -> tex s' u = tex s u) /\
    (forall t, slot s k = Some t ->
       settled c s' t /\
       (linked s t ->
        linked s' t /\ WebGLTexture._imageData (tex s' t) <> Some [])).
Proof.
  unfold purgeAt. run. fold (slot s k).
  destruct (slot s k) as [t|] eqn:Ek.
  2: { exists s. repeat split; auto using same_age_refl; intros; discriminate. }
  destruct (WebGLTexture._imageData (tex s t)) as [data|] eqn:Ed.
  2: { exists s. split; [reflexivity|]. split; [apply same_age_refl|].
       split; [now right|]. split; [reflexivity|].
       intros t' [= <-]. split.
       - intros d Hd. congruence.
       - intros Hl. split; [exact Hl | congruence]. }
  destruct (purgeData_spec c data s) as (s0 & Hrun & Heq & Hage & _).
  rewrite Hrun. set (data' := filter _ data) in *.
  set (s1 := set_tex t (WebGLTexture.with_imageData (Some data')) s0).
  assert (Ht0 : forall u, tex s0 u = tex s u) by (intros u; now rewrite Heq).
  assert (Hage1 : same_age s s1) by exact Hage.
  assert (Hslot1 : forall i, slot s1 i = slot s i)
    by (intros i; unfold slot, s1, set_tex; cbn; now rewrite Heq).
  assert (Ht1 : tex s1 t = WebGLTexture.with_imageData (Some data') (tex s t))
    by (unfold s1; now rewrite tex_set_tex_eq, Ht0).
  assert (Hu1 : forall u, u <> t -> tex s1 u = tex s u)
    by (intros u Hu; unfold s1; rewrite tex_set_tex_ne by congruence; apply Ht0).
  assert (Hfresh : forall i, i ∈ data' -> expired s c i = false).
  { intros i Hi. unfold data' in Hi. now apply list_elem_of_filter in Hi as [Hi _]. }
  case_bool_decide as Hnil.
  - (* the list is empty: the texture is killed *)
    rewrite killTextureObject_steps.
    destruct (kill_facts t s1) as (Hka & Hks & Hku & Hkt).
    destruct (unlink_facts t s1) as (_ & _ & _ & Hid & Hcl & _).
    eexists. split; [reflexivity|].
    split; [now apply (same_age_trans _ s1)|].
    split; [intros i; specialize (Hks i); rewrite Hslot1 in Hks; exact Hks|].
    split.
    { intros u Hu. rewrite Hku by congruence. apply Hu1. congruence. }
    intros t' [= <-].
    destruct (unkillable_dec s1 t) as [Hun|Hun].
    + assert (Hk : tex (deleteObjects t (dropSlot t (unlink t s1))) t
                   = WebGLTexture.with_frameBuffer None (tex s1 t))
        by (rewrite Hkt, (Hid Hun); reflexivity).
      split.
      * intros d Hd. rewrite Hk, Ht1 in Hd. cbn in Hd. injection Hd as <-.
        split; [intros i Hi; rewrite Hnil in Hi; now apply not_elem_of_nil in Hi|].
        intros _. split; [|now rewrite Hk].
        unfold unkillable in *. rewrite Hk. exact Hun.
      * intros Hl. exfalso. apply Hl; [now rewrite Ed|].
        unfold unkillable in *. now rewrite Ht1 in Hun.
    + assert (Hk : tex (deleteObjects t (dropSlot t (unlink t s1))) t
                   = WebGLTexture.with_frameBuffer None
                       (WebGLTexture.with_imageData None
                          (WebGLTexture.with_storeID None (tex s1 t))))
        by (rewrite Hkt, (Hcl Hun); reflexivity).
      split.
      * intros d Hd. rewrite Hk in Hd. discriminate.
      * intros _. split; [|rewrite Hk; discriminate].
        intros [d Hd]. rewrite Hk in Hd. discriminate.
  - (* sources are left *)
    exists s1. split; [reflexivity|]. split; [exact Hage1|].
    split; [intros i; right; apply Hslot1|].
    split; [intros u Hu; apply Hu1; congruence|].
    intros t' [= <-]. split.
    + intros d Hd. rewrite Ht1 in Hd. cbn in Hd. injection Hd as <-.
      split; [|contradiction].
      intros i Hi. rewrite (same_age_expired _ _ c i Hage1). now apply Hfresh.
    + intros Hl. split.
      * intros _ Hun. apply Hl; [now rewrite Ed|].
        unfold unkillable in *. now rewrite Ht1 in Hun.
      * rewrite Ht1. cbn. congruence.
Qed.

Lemma same_store_refl (s : StageGL) : same_store s s.
Proof. unfold same_store. now destruct s. Qed.

Lemma same_store_trans (s1 s2 s3 : StageGL) :
  same_store s1 s2 -> same_store s2 s3 -> same_store s1 s3.
Proof. unfold same_store. intros H1 H2. rewrite H2, H1. reflexivity. Qed.

Lemma same_store_settled (c : number) (s s' : StageGL) (t : texref) :
  same_store s s' -> settled c s t -> settled c s' t.
Proof.
  intros H. apply settled_frame.
  - split; [|intros i]; rewrite H; reflexivity.
  - now rewrite H.
Qed.

Lemma same_store_slot (s s' : StageGL) (i : nat) :
  same_store s s' -> slot s' i = slot s i.
Proof. intros H. now rewrite H. Qed.

(** One round of the outer loop over a settled texture: the store is left
    as it is. *)
Lemma purgeAt_settled (c : number) (k : nat) (s : StageGL) :
  (forall t, slot s k = Some t -> settled c s t) ->
  exists s',
    purgeAt c k s = Ret tt s' /\
    same_store s s' /\
    ((forall t, slot s k = Some t ->
        WebGLTexture._imageData (tex s t) <> Some []) -> s' = s).
Proof.
  intros Hs. unfold purgeAt. run. fold (slot s k).
  destruct (slot s k) as [t|] eqn:Ek.
  2: { exists s. auto using same_store_refl. }
  destruct (WebGLTexture._imageData (tex s t)) as [data|] eqn:Ed.
  2: { exists s. auto using same_store_refl. }
  destruct (Hs t eq_refl data Ed) as [Hfresh Hdead].
  destruct (purgeData_spec c data s) as (s0 & Hrun & _ & _ & Hid).
  rewrite Hrun, (Hid Hfresh), (filter_all _ _ Hfresh).
  assert (Hp : textures s !! t = Some (tex s t)) by (eapply tex_present; eauto).
  rewrite (set_tex_id s t _ _ Hp)
    by (destruct (tex s t); cbn in *; now subst).
  case_bool_decide as Hnil.
  - rewrite killTextureObject_steps. eexists. split; [reflexivity|].
    destruct (Hdead Hnil) as [Hu Hf].
    split; [now apply kill_dead|].
    intros Hclean. exfalso. apply (Hclean t eq_refl). now rewrite Ed, Hnil.
  - exists s. auto using same_store_refl.
Qed.

(** The outer loop of the first call: the indices already visited stay
    settled. *)
Lemma purge_loop_first (c : number) (n : nat) :
  forall k s, settled_below c k s ->
  exists s',
    forEach (seq k n) (purgeAt c) s = Ret tt s' /\
    (forall i, slot s' i = None \/ slot s' i = slot s i) /\
    settled_below c (k + n) s' /\
    (well_linked s -> clean_below k s ->
     well_linked s' /\ clean_below (k + n) s').
Proof.
  induction n as [|n IH]; intros k s Hinv.
  - exists s. rewrite Nat.add_0_r. cbn. auto.
  - cbn [seq forEach]. run.
    destruct (purgeAt_first c k s) as (s1 & Hrun & Hage & Hslot & Hoth & Hk).
    rewrite Hrun.
    assert (Hback : forall i t, slot s1 i = Some t -> slot s i = Some t).
    { intros i t Hi. destruct (Hslot i) as [H|H]; rewrite H in Hi;
        [discriminate | exact Hi]. }
    assert (Hinv1 : settled_below c (S k) s1).
    { intros i t Hi Hs1. apply Hback in Hs1.
      destruct (decide (slot s k = Some t)) as [E|E].
      - now apply Hk.
      - apply (settled_frame c s s1 t Hage (Hoth t E)).
        apply (Hinv i t); [|exact Hs1].
        destruct (decide (i = k)) as [->|]; [contradiction | lia]. }
    destruct (IH (S k) s1 Hinv1) as (s' & Hrun' & Hslot' & Hinv' & Hwl').
    exists s'. split; [exact Hrun'|].
    replace (k + S n)%nat with (S k + n)%nat by lia.
    split; [|split; [exact Hinv'|]].
    + intros i. destruct (Hslot' i) as [H|H]; [now left|].
      rewrite H. apply Hslot.
    + intros Hwl Hcl. apply Hwl'.
      * intros i t Hs1. apply Hback in Hs1.
        destruct (decide (slot s k = Some t)) as [E|E].
        -- apply (Hk t E). apply (Hwl k t E).
        -- apply (linked_frame s s1 t (Hoth t E)). apply (Hwl i t Hs1).
      * intros i t Hi Hs1. apply Hback in Hs1.
        destruct (decide (slot s k = Some t)) as [E|E].
        -- apply (Hk t E). apply (Hwl k t E).
        -- rewrite (Hoth t E). apply (Hcl i t); [|exact Hs1].
           destruct (decide (i = k)) as [->|]; [contradiction | lia].
Qed.

(** The outer loop over a store where every texture is settled. *)
Lemma purge_loop_settled (c : number) (n : nat) :
  forall k s, (forall i t, slot s i = Some t -> settled c s t) ->
  exists s',
    forEach (seq k n) (purgeAt c) s = Ret tt s' /\
    same_store s s' /\
    ((forall i t, slot s i = Some t ->
        WebGLTexture._imageData (tex s t) <> Some []) -> s' = s).
Proof.
  induction n as [|n IH]; intros k s Hall.
  - exists s. cbn. auto using same_store_refl.
  - cbn [seq forEach]. run.
    destruct (purgeAt_settled c k s (Hall k)) as (s1 & Hrun & Hst & Hid).
    rewrite Hrun.
    assert (Hall1 : forall i t, slot s1 i = Some t -> settled c s1 t).
    { intros i t Hi. rewrite (same_store_slot s s1 i Hst) in Hi.
      apply (same_store_settled c s s1 t Hst). now apply (Hall i). }
    destruct (IH (S k) s1 Hall1) as (s' & Hrun' & Hst' & Hid').
    exists s'. split; [exact Hrun'|].
    split; [now apply (same_store_trans s s1 s')|].
    intros Hcl. assert (E : s1 = s) by (apply Hid; intros t; apply Hcl).
    rewrite E in Hid'. now apply Hid'.
Qed.

Lemma slot_beyond (s : StageGL) (i : nat) :
  (length (_textureDictionary s) <= i)%nat -> slot s i = None.
Proof. intros H. unfold slot. now rewrite lookup_ge_None_2. Qed.

(** C9: for every threshold and every state, [purgeTextures] called twice
    in a row returns both times, and the second call leaves the texture
    dictionary, every texture (with its list of owning sources) and every
    image as the first call left them; it changes at most [_batchTextures]
    and the trace, by killing once more a texture that could not be removed
    from the dictionary, and changes nothing at all when every stored
    texture with a list of sources has a non-negative [_storeID]. *)
Theorem purgeTextures_idempotent (count : number) (s : StageGL) :
  exists s1 s2,
    purgeTextures count s = Ret tt s1 /\
    purgeTextures count s1 = Ret tt s2 /\
    _textureDictionary s2 = _textureDictionary s1 /\
    textures s2 = textures s1 /\
    images s2 = images s1 /\
    _drawID s2 = _drawID s1 /\
    (well_linked s -> s2 = s1).
Proof.
  unfold purgeTextures. run.
  set (c := if JS.ge count (JS.ofZ 0) then count else JS.ofZ 100).
  set (l := length (_textureDictionary s)).
  destruct (purge_loop_first c l 0 s) as (s1 & Hrun & Hslot & Hinv & Hwl).
  { intros i t Hi. lia. }
  assert (Hin : forall i t, slot s1 i = Some t -> (i < 0 + l)%nat).
  { intros i t Hi. destruct (decide (i < l)%nat) as [|Hge]; [lia|]. exfalso.
    destruct (Hslot i) as [H|H]; rewrite H in Hi; [discriminate|].
    rewrite slot_beyond in Hi by (fold l; lia). discriminate. }
  destruct (purge_loop_settled c (length (_textureDictionary s1)) 0 s1)
    as (s2 & Hrun2 & Hst & Hid).
  { intros i t Hi. apply (Hinv i t); [|exact Hi]. now apply (Hin i t). }
  exists s1, s2. split; [exact Hrun|]. split; [exact Hrun2|].
  repeat split; try (rewrite Hst; reflexivity).
  intros Hw. apply Hid. intros i t Hi.
  destruct Hwl as [_ Hcl]; [exact Hw | intros j u Hj; lia |].
  apply (Hcl i t); [|exact Hi]. now apply (Hin i t).
Qed.

(** ** Acquiring a texture slot *)

Lemma shift_back (n start k : Z) :
  0 < n -> 0 <= start < n -> 0 <= k < n ->
  (start + (k + 1)) mod n = start -> k + 1 = n.
Proof.
  intros Hn Hs Hk H.
  assert (H1 : (start + (k + 1)) mod n = (start + 0) mod n)
    by (rewrite Z.add_0_r, (Z.mod_small start n) by lia; exact H).
  destruct (Z.eq_dec (k + 1) n) as [|Hne]; [assumption|exfalso].
  assert (Hsmall : (k + 1) mod n = k + 1) by (apply Z.mod_small; lia).
  assert (H2 : ((start + (k + 1)) - (start + 0)) mod n = 0).
  { rewrite Zminus_mod, H1, Z.sub_diag. apply Z.mod_0_l. lia. }
  replace (start + (k + 1) - (start + 0)) with (k + 1) in H2 by lia.
  lia.
Qed.

Lemma shift_cover (n start i : Z) :
  0 < n -> 0 <= start < n -> 0 <= i < n ->
  exists j, 0 <= j < n /\ (start + j) mod n = i.
Proof.
  intros Hn Hs Hi. exists ((i - start) mod n). split.
  - apply Z.mod_pos_bound. lia.
  - rewrite Zplus_mod_idemp_r. replace (start + (i - start)) with i by lia.
    apply Z.mod_small. lia.
Qed.

Section Scan.

Variable s : StageGL.
Variable start : Z.

Let n := _batchTextureCount s.

Hypothesis Hn : 0 < n.
Hypothesis Hfilled : slots_filled s.
Hypothesis Hstart : 0 <= start < n.

(** The scan returns within [_batchTextureCount] rounds: either with a
    slot whose occupant is eligible or, back at [start], with nothing,
    and then no slot is eligible. *)
Lemma scanSlots_from (fuel : nat) :
  forall k, 0 <= k < n -> fuel = Z.to_nat (n - k) ->
    (forall j o, 0 <= j < k ->
       arr_get (_batchTextures s) ((start + j) mod n) = Some o ->
       eligible s ((start + j) mod n) o = false) ->
    exists r,
      scanSlots fuel start ((start + k) mod n) s = Ret r s /\
      match r with
      | Some found =>
          0 <= found < n /\
          exists o, arr_get (_batchTextures s) found = Some o /\
                    eligible s found o = true
      | None =>
          forall i o, 0 <= i < n -> arr_get (_batchTextures s) i = Some o ->
            eligible s i o = false
      end.
Proof.
  induction fuel as [|fuel IH]; intros k Hk Hfuel Hseen; [lia|].
  cbn [scanSlots]. run.
  set (look := (start + k) mod n).
  assert (Hlook : 0 <= look < n) by (apply Z.mod_pos_bound; lia).
  destruct (Hfilled look Hlook) as [o Ho]. rewrite Ho.
  destruct (eligible s look o) eqn:El.
  { exists (Some look). split; [reflexivity|]. split; [exact Hlook|]. eauto. }
  unfold JS.rem. fold n.
  destruct (n =? 0) eqn:En; [apply Z.eqb_eq in En; lia|].
  rewrite Z.rem_mod_nonneg by lia.
  assert (Hnext : (look + 1) mod n = (start + (k + 1)) mod n).
  { unfold look. rewrite Zplus_mod_idemp_l. f_equal. lia. }
  rewrite Hnext.
  assert (Hseen' : forall j o', 0 <= j < k + 1 ->
            arr_get (_batchTextures s) ((start + j) mod n) = Some o' ->
            eligible s ((start + j) mod n) o' = false).
  { intros j o' Hj Ho'. destruct (Z.eq_dec j k) as [->|Hne].
    - fold look in Ho' |- *. rewrite Ho in Ho'. injection Ho' as <-. exact El.
    - apply Hseen; [lia | exact Ho']. }
  destruct ((start + (k + 1)) mod n =? start) eqn:Eb.
  - apply Z.eqb_eq in Eb. apply shift_back in Eb; [|lia..].
    exists None. split; [reflexivity|].
    intros i o' Hi Ho'.
    destruct (shift_cover n start i Hn Hstart Hi) as (j & Hj & <-).
    apply Hseen'; [lia | exact Ho'].
  - apply Z.eqb_neq in Eb.
    assert (Hk' : k + 1 < n).
    { destruct (Z.eq_dec (k + 1) n) as [E|]; [|lia]. exfalso. apply Eb.
      rewrite E, Z.add_mod, Z.mod_same, Z.add_0_r, Z.mod_mod by lia.
      apply Z.mod_small. lia. }
    apply (IH (k + 1)); [lia | lia | exact Hseen'].
Qed.

Lemma scanSlots_spec :
  exists r,
    scanSlots (Z.to_nat (Z.abs n)) start start s = Ret r s /\
    match r with
    | Some found =>
        0 <= found < n /\
        exists o, arr_get (_batchTextures s) found = Some o /\
                  eligible s found o = true
    | None =>
        forall i o, 0 <= i < n -> arr_get (_batchTextures s) i = Some o ->
          eligible s i o = false
    end.
Proof.
  destruct (scanSlots_from (Z.to_nat (Z.abs n)) 0) as (r & Hr & Hspec);
    [lia | f_equal; lia | intros; lia |].
  rewrite Z.add_0_r, Z.mod_small in Hr by lia.
  exists r. split; [exact Hr | exact Hspec].
Qed.

End Scan.

(** [_updateTextureImageData] leaves the slots as they are, whether it
    returns or throws. *)
Lemma updateTextureImageData_slots (image : imgref) (s : StageGL) :
  exists s',
    (_updateTextureImageData image s = Ret tt s' \/
     exists e, _updateTextureImageData image s = Throw e s') /\
    _batchTextures s' = _batchTextures s.
Proof.
  unfold _updateTextureImageData, setTextureParams. run.
  destruct (negb _); [exists s; auto|].
  destruct (arr_at _ _) as [t|]; [|exists s; eauto].
  destruct (Image._invalid (img s image)); eexists; (split; [left; reflexivity|]);
    reflexivity.
Qed.

Lemma findSlot_spec (s : StageGL) :
  0 < _batchTextureCount s -> -1 <= _lastTextureInsert s -> slots_filled s ->
  can_flush s ->
  let swept := with_batchReason (Some "textureOverflow") s in
  exists found s1,
    findSlot s = Ret found s1 /\
    0 <= found < _batchTextureCount s /\
    ((exists o, arr_get (_batchTextures s) found = Some o /\
                eligible s found o = true /\ s1 = s) \/
     ((forall i o, 0 <= i < _batchTextureCount s ->
         arr_get (_batchTextures s) i = Some o -> eligible s i o = false) /\
      found = startSlot s /\
      s1 = if _batchVertexCount s <=? 0 then swept else flushed swept)).
Proof.
  intros Hn Hlast Hfilled Hflush swept. unfold findSlot. run. unfold JS.rem.
  destruct (_batchTextureCount s =? 0) eqn:En; [apply Z.eqb_eq in En; lia|].
  fold (startSlot s).
  assert (Hstart : 0 <= startSlot s < _batchTextureCount s).
  { unfold startSlot. rewrite Z.rem_mod_nonneg by lia.
    apply Z.mod_pos_bound. lia. }
  destruct (scanSlots_spec s (startSlot s) Hn Hfilled Hstart)
    as ([found|] & Hscan & Hspec); rewrite Hscan.
  - destruct Hspec as (Hfound & o & Ho & He).
    exists found, s. split; [reflexivity|]. split; [exact Hfound|].
    left. eauto.
  - rewrite renderBatch_returns by exact Hflush. fold swept.
    eexists _, _. split; [reflexivity|]. split; [exact Hstart|].
    right. repeat split. exact Hspec.
Qed.

(** With no vertex pending the flush does nothing: on the stage with a
    single slot whose occupant (texture 6) was used in the current batch,
    [_insertTextureInBatch] puts texture 5 in its place, with no GL call
    and the batch counter as it was. *)
Lemma insertTextureInBatch_evicts_current :
  let s := crowdedStage in
  exists s',
    _insertTextureInBatch 5%nat s = Ret tt s' /\
    _batchVertexCount s = 0 /\
    arr_get (_batchTextures s) 0 = Some 6%nat /\
    WebGLTexture._batchID (tex s 6%nat) = Some (_batchID s) /\
    arr_get (_batchTextures s') 0 = Some 5%nat /\
    _batchID s' = _batchID s /\
    WebGLTexture._batchID (tex s' 6%nat) = Some (_batchID s') /\
    trace s' = trace s.
Proof.
  eexists. split; [vm_compute; reflexivity|].
  split; [vm_compute; reflexivity|]. split; [vm_compute; reflexivity|].
  split; [vm_compute; reflexivity|]. split; [vm_compute; reflexivity|].
  split; [vm_compute; reflexivity|]. split; vm_compute; reflexivity.
Qed.

(** C3: slot acquisition in [_insertTextureInBatch], for a texture that
    is not in its slot, on a stage whose slots are all filled and carry no
    stamp ahead of the batch counter, and which has a shader to flush with
    or nothing to flush.  The search returns a slot.  Either
    the scan picked it, and its occupant is not stamped with the current
    batch and the slot is not blacklisted (the state is untouched); or no
    slot is eligible, the flush is called and the start slot is taken.
    The texture goes into that slot and no other slot changes.  Whenever
    the scan picked the slot or vertices were pending, the occupant that
    is replaced is not stamped with the batch counter of that moment. *)
Theorem insertTextureInBatch_eviction (s : StageGL) (t : texref) :
  0 < _batchTextureCount s -> -1 <= _lastTextureInsert s ->
  slots_filled s -> stamps_behind s -> can_flush s ->
  arr_at (_batchTextures s) (WebGLTexture._activeIndex (tex s t)) <> Some t ->
  let swept := with_batchReason (Some "textureOverflow") s in
  exists found s1,
    findSlot s = Ret found s1 /\
    0 <= found < _batchTextureCount s /\
    ((exists o, arr_get (_batchTextures s) found = Some o /\
                eligible s found o = true /\ s1 = s) \/
     ((forall i o, 0 <= i < _batchTextureCount s ->
         arr_get (_batchTextures s) i = Some o -> eligible s i o = false) /\
      found = startSlot s /\
      _renderBatch swept = Ret tt s1)) /\
    _batchTextures (final (_insertTextureInBatch t s))
    = arr_set (_batchTextures s) found (Some t) /\
    (0 < _batchVertexCount s \/
     (exists i o, 0 <= i < _batchTextureCount s /\
        arr_get (_batchTextures s) i = Some o /\ eligible s i o = true) ->
     ~ stamped_current s1 found).
Proof.
  intros Hn Hlast Hfilled Hbehind Hflush Hout swept.
  destruct (findSlot_spec s Hn Hlast Hfilled Hflush)
    as (found & s1 & Hfind & Hfound & Hcase).
  fold swept in Hcase.
  assert (Hslots : _batchTextures s1 = _batchTextures s /\
                   textures s1 = textures s).
  { destruct Hcase as [(o & _ & _ & ->)|(_ & _ & ->)]; [auto|].
    destruct (_batchVertexCount s <=? 0); split; reflexivity. }
  destruct Hslots as [Hslots Htex].
  exists found, s1. split; [exact Hfind|]. split; [exact Hfound|].
  split; [|split].
  - destruct Hcase as [H|(Hno & Hst & Hs1)]; [now left|right].
    repeat split; [exact Hno | exact Hst|].
    rewrite renderBatch_returns by exact Hflush. now rewrite Hs1.
  - unfold _insertTextureInBatch. run.
    rewrite bool_decide_false by exact Hout. cbn [negb]. rewrite Hfind.
    match goal with
    | |- context [staleImage ?s2 t] => destruct (staleImage s2 t) as [image|]
    end.
    + match goal with
      | |- context [_updateTextureImageData image ?s2] =>
          destruct (updateTextureImageData_slots image s2)
            as (s3 & [Hr|[e Hr]] & Hs3); rewrite Hr; cbn; rewrite ?Hs3; cbn;
            now rewrite Hslots
      end.
    + cbn. now rewrite Hslots.
  - intros Hsafe (o & Ho & Hstamp).
    assert (Ho' : arr_get (_batchTextures s) found = Some o)
      by now rewrite <- Hslots.
    assert (Hstamp' : WebGLTexture._batchID (tex s o) = Some (_batchID s1))
      by (unfold tex in *; now rewrite <- Htex).
    destruct Hcase as [(o' & Ho'' & He & ->)|(Hno & Hst & Hs1)].
    + rewrite Ho' in Ho''. injection Ho'' as <-.
      unfold eligible in He. apply andb_prop in He as [He _].
      apply negb_true_iff, bool_decide_eq_false in He. contradiction.
    + destruct Hsafe as [Hpos|(i & o' & Hi & Hio & He)].
      * apply Z.leb_gt in Hpos. rewrite Hpos in Hs1.
        rewrite Hs1 in Hstamp'. cbn in Hstamp'.
        specialize (Hbehind found o _ Ho' Hstamp'). lia.
      * rewrite (Hno i o' Hi Hio) in He. discriminate.
Qed.

(** On the stage with a single slot and the quad of image 2 pending, the
    texture of image 0 finds no eligible slot: the batch is flushed, and
    the occupant it replaces is behind the new batch counter. *)
Lemma insertTextureInBatch_eviction_full :
  exists found s1,
    findSlot fullStage = Ret found s1 /\
    found = 0 /\
    _batchID s1 = _batchID fullStage + 1 /\
    _batchTextures (final (_insertTextureInBatch 5%nat fullStage))
    = [Some 5%nat] /\
    ~ stamped_current s1 found.
Proof.
  destruct (insertTextureInBatch_eviction fullStage 5%nat)
    as (found & s1 & Hfind & _ & _ & Hput & Hsafe);
    [vm_compute; reflexivity | vm_compute; discriminate | | |
     right; vm_compute; eauto | vm_compute; discriminate |].
  - intros i Hi. change (_batchTextureCount fullStage) with 1 in Hi.
    assert (i = 0) as -> by lia. vm_compute. eauto.
  - intros i o b Ho Hb.
    assert (Hcases : o = 6%nat).
    { change (_batchTextures fullStage) with [Some 6%nat] in Ho.
      unfold arr_get in Ho. destruct (i <? 0); [discriminate Ho|].
      destruct (Z.to_nat i) as [|[|?]]; cbn in Ho;
        [now injection Ho | discriminate Ho | discriminate Ho]. }
    subst o. vm_compute in Hb. injection Hb as <-. vm_compute. discriminate.
  - assert (E : exists s0, findSlot fullStage = Ret 0 s0 /\
                           _batchID s0 = _batchID fullStage + 1)
      by (eexists; split; vm_compute; reflexivity).
    destruct E as (s0 & E & Eb). rewrite Hfind in E. injection E as Ef Es.
    exists found, s1. split; [exact Hfind|]. split; [exact Ef|].
    split; [rewrite Es; exact Eb|].
    split; [rewrite Hput, Ef; vm_compute; reflexivity|].
    apply Hsafe. left. vm_compute. reflexivity.
Defined.

(** ** Render modes under direct draw *)

(** On a direct-draw stage that has not built the shader of "multiply", the
    first request of that mode builds the program and stores its entry in
    [_builtShaders] before the mode is refused. *)
Lemma updateRenderMode_directDraw_builds :
  let s := exampleStage (Some true) in
  exists s',
    _updateRenderMode (Some "multiply") s = Ret tt s' /\
    _directDraw s = true /\ vocalDebug s = false /\
    _builtShaders s !! "multiply" = None /\
    is_Some (_builtShaders s' !! "multiply") /\
    allocated s' = S (allocated s) /\
    length (trace s') = (5 + length (trace s))%nat.
Proof.
  eexists. split; [vm_compute; reflexivity|].
  split; [vm_compute; reflexivity|]. split; [vm_compute; reflexivity|].
  split; [vm_compute; reflexivity|]. split; [vm_compute; eauto|].
  split; vm_compute; reflexivity.
Qed.

(** C6: on a direct-draw stage, a request of a mode whose entry in
    [BLEND_SOURCES] has a shader returns without an exception and leaves
    every field of the stage as it was, but for the shader cache: the
    render mode, the immediate flag, the active layout, the batch and its
    counters are unchanged, and the only events are those of building the
    program and of logging (no upload, no draw, no blend call).  When the
    mode's entry was built before (or the mode is the current one), the
    cache is unchanged too and the call does nothing but log at most one
    message, and nothing at all when [vocalDebug] is off. *)
Theorem updateRenderMode_directDraw (s : StageGL) (m frag : string)
  (b : blendSource) :
  _directDraw s = true ->
  BLEND_SOURCES m = Some b -> b_shader b = Some frag ->
  (forall d, _builtShaders s !! m = Some d -> immediate d = true) ->
  exists s' es,
    _updateRenderMode (Some m) s = Ret tt s' /\
    s' = with_trace (es ++ trace s)
           (with_allocated (allocated s')
              (with_builtShaders (_builtShaders s') s)) /\
    forallb buildOrLog es = true /\
    (forall k, k <> m -> _builtShaders s' !! k = _builtShaders s !! k) /\
    (is_Some (_builtShaders s !! m) \/ _renderMode s = m ->
     _builtShaders s' = _builtShaders s /\ allocated s' = allocated s /\
     (es = [] \/ exists msg, es = [console_log msg]) /\
     (vocalDebug s = false -> es = [])).
Proof.
  intros Hdd Hb Hsh Hcache.
  assert (Hid : forall s0 : StageGL,
            s0 = with_trace ([] ++ trace s0)
                   (with_allocated (allocated s0)
                      (with_builtShaders (_builtShaders s0) s0)))
    by (now intros []).
  unfold _updateRenderMode. run. cbn [default]. unfold id. rewrite Hb.
  case_bool_decide as Hmode.
  { exists s, []. repeat split; auto. }
  destruct (_builtShaders s !! m) as [d|] eqn:Ed.
  - rewrite (Hcache d eq_refl), Hdd.
    destruct (vocalDebug s) eqn:Ev; cbn.
    + eexists _, [_]. split; [reflexivity|].
      split; [now destruct s|]. repeat split; eauto. discriminate.
    + exists s, []. repeat split; auto.
  - unfold buildShaderData, _fetchShaderProgram. run. rewrite Hsh.
    destruct (buildProgram _ _) eqn:Eb; cbn; rewrite ?Hdd.
    + eexists _, [_; _; _]. split; [reflexivity|].
      split; [now destruct s|]. split; [reflexivity|]. split.
      * intros k Hk. cbn. now rewrite lookup_delete_ne.
      * intros [[? [=]]|?]; contradiction.
    + eexists _, [_; _; _; _]. split; [reflexivity|].
      split; [now destruct s|]. split; [reflexivity|]. split.
      * intros k Hk. cbn. now rewrite lookup_delete_ne.
      * intros [[? [=]]|?]; contradiction.
    + destruct (vocalDebug s) eqn:Ev; cbn.
      * eexists _, [_; _; _; _; _; _]. split; [reflexivity|].
        split; [now destruct s|]. split; [reflexivity|]. split.
        -- intros k Hk. cbn. now rewrite lookup_insert_ne.
        -- intros [[? [=]]|?]; contradiction.
      * eexists _, [_; _; _; _; _]. split; [reflexivity|].
        split; [now destruct s|]. split; [reflexivity|]. split.
        -- intros k Hk. cbn. now rewrite lookup_insert_ne.
        -- intros [[? [=]]|?]; contradiction.
Qed.

(** The stage built with [directDraw] refuses "multiply". *)
Lemma updateRenderMode_directDraw_multiply :
  exists s' es,
    _updateRenderMode (Some "multiply") (exampleStage (Some true)) = Ret tt s' /\
    s' = with_trace (es ++ trace (exampleStage (Some true)))
           (with_allocated (allocated s')
              (with_builtShaders (_builtShaders s') (exampleStage (Some true)))) /\
    forallb buildOrLog es = true.
Proof.
  destruct (updateRenderMode_directDraw (exampleStage (Some true))
              "multiply" "multiply" (shaded "multiply"))
    as (s' & es & H1 & H2 & H3 & _);
    [vm_compute; reflexivity | vm_compute; reflexivity
    | vm_compute; reflexivity | vm_compute; intros d [=] |].
  exists s', es. auto.
Defined.

(** No entry of [BLEND_SOURCES] goes by a name that objects inherit. *)
Lemma listed_not_inherited (m : string) (b : blendSource) :
  BLEND_SOURCES m = Some b -> inherited m = false.
Proof.
  unfold BLEND_SOURCES, BLEND_TABLE. cbn [assoc].
  repeat match goal with
         | |- (if String.eqb m ?k then _ else _) = Some _ -> _ =>
             destruct (String.eqb m k) eqn:E;
             [apply String.eqb_eq in E; subst m; intros _; reflexivity|];
             clear E
         end.
  discriminate.
Qed.

(** ** The flush at a change of render mode *)

(** A flush uploads the arrays of the layout that is active when it
    runs. *)
Lemma flushEvents_uploads (s : StageGL) (c : config) (a : attribute)
  (x : bufferData) :
  gl_bufferSubData c a x ∈ flushEvents s -> c = _activeConfig s.
Proof.
  rewrite list_elem_of_In. unfold flushEvents, sendAttribute.
  rewrite !in_app_iff, <- in_rev. unfold bindBatchTextures.
  rewrite in_flat_map. cbn [rev app In].
  intros H. repeat destruct H as [H|H]; try congruence; try contradiction.
  - destruct H as (i & _ & Hi). cbn in Hi.
    repeat destruct Hi as [Hi|Hi]; try congruence; contradiction.
  - destruct (vocalDebug s); cbn in H; [|contradiction].
    destruct H as [H|H]; [congruence | contradiction].
Qed.

Lemma frameBufferOrNull_returns (x : surface) (s : StageGL) :
  exists fb, frameBufferOrNull x s = Ret fb s /\
    match fb with fb_object n => Some n | _ => None end
    = match x with
      | STexture t => WebGLTexture._frameBuffer (tex s t)
      | _ => None
      end.
Proof.
  destruct x; cbn; run; eauto.
  destruct (WebGLTexture._frameBuffer (tex s t)); eauto.
Qed.

(** The end of [_updateRenderMode] once the mode is accepted, from a state
    with vertices pending. *)
Lemma switch_pending (s : StageGL) (m : string) (d : shaderData) :
  0 < _batchVertexCount s -> is_Some (_activeShader s) ->
  (fb ← frameBufferOrNull (_batchTextureOutput s);
   bindFramebuffer fb;;
   modify (with_batchReason (Some "shaderSwap"));;
   _renderBatch;;
   modify (with_renderMode m);;
   modify (with_immediateRender (immediate d));;
   emit (gl_blendEquationSeparate (Some (eqRGB d)) (Some (eqA d)));;
   emit (gl_blendFuncSeparate (Some (srcRGB d)) (Some (dstRGB d))
                              (Some (srcA d)) (Some (dstA d)))) s
  = Ret tt
      (with_trace
         (blendEvents d ++
          flushEvents (with_batchReason (Some "shaderSwap") s) ++
          gl_bindFramebuffer (outputFrameBuffer s) :: trace s)
         (with_immediateRender (immediate d)
            (with_renderMode m
               (with_batchID (_batchID s + 1)
                  (with_batchVertexCount 0
                     (with_renderPerDraw (_renderPerDraw s + 1)
                        (with_batchReason (Some "shaderSwap") s))))))).
Proof.
  intros Hpos Hshader.
  destruct (frameBufferOrNull_returns (_batchTextureOutput s) s)
    as (fb & Hfb & Hout).
  run. rewrite Hfb. unfold bindFramebuffer. run. rewrite Hout.
  fold (outputFrameBuffer s).
  rewrite renderBatch_pending by assumption.
  unfold flushed, blendEvents. destruct s; reflexivity.
Qed.

(** Runs the end of [_updateRenderMode] from a state with vertices
    pending. *)
Ltac switch_mode :=
  match goal with
  | |- context [frameBufferOrNull ?x ?s1] =>
      let fb := fresh "fb" in
      let Hfb := fresh "Hfb" in
      let Hout := fresh "Hout" in
      destruct (frameBufferOrNull_returns x s1) as (fb & Hfb & Hout);
      rewrite Hfb; unfold bindFramebuffer; run; rewrite Hout;
      rewrite renderBatch_pending by (cbn; assumption)
  end.

(** At the boundary to a mode without a shader of its own, the pending
    vertices are flushed from the layout they were written to, before the
    blend calls. *)
Lemma updateRenderMode_batched_flush (s : StageGL) (m : string)
  (b : blendSource) :
  BLEND_SOURCES m = Some b -> b_shader b = None ->
  _renderMode s <> m -> 0 < _batchVertexCount s ->
  is_Some (_activeShader s) ->
  (forall d, _builtShaders s !! m = Some d -> immediate d = false) ->
  is_Some (_builtShaders s !! "source-over") ->
  exists s' d,
    _updateRenderMode (Some m) s = Ret tt s' /\
    _builtShaders s' !! m = Some d /\
    trace s'
    = blendEvents d ++ flushEvents (with_batchReason (Some "shaderSwap") s) ++
      gl_bindFramebuffer (outputFrameBuffer s) :: trace s /\
    (forall c a x,
       gl_bufferSubData c a x
         ∈ flushEvents (with_batchReason (Some "shaderSwap") s) ->
       c = _activeConfig s) /\
    _activeConfig s' = _activeConfig s /\
    _batchVertexCount s' = 0 /\ _renderMode s' = m.
Proof.
  intros Hb Hsh Hmode Hpos Hshader Hcache [so Hso].
  unfold _updateRenderMode. run. cbn [default]. unfold id. rewrite Hb.
  rewrite bool_decide_false by exact Hmode.
  destruct (_builtShaders s !! m) as [d|] eqn:Ed.
  - rewrite (Hcache d eq_refl). switch_mode.
    eexists _, d. split; [reflexivity|].
    split; [exact Ed|]. split; [now destruct s|].
    repeat split.
    intros c a x Hx.
    exact (flushEvents_uploads (with_batchReason (Some "shaderSwap") s) c a x Hx).
  - unfold buildShaderData. run. rewrite Hsh, Hso. cbn. switch_mode.
    eexists _, _. split; [reflexivity|].
    split; [cbn; now rewrite lookup_insert_eq|].
    split; [now destruct s|].
    repeat split.
    intros c a x Hx.
    exact (flushEvents_uploads (with_batchReason (Some "shaderSwap") s) c a x Hx).
Qed.

(** C2: what [_updateRenderMode] does at the boundary to an immediate mode
    on a stage that does not draw directly, with vertices pending and a
    shader active to flush them with: it
    returns, and records (after the events of building the mode's shader,
    if it was not built) the binding of the output frame buffer, a flush,
    and then the two blend calls, in this order.  But the flush runs in
    the state where the micro layout was made the active one already: the
    arrays it uploads are those of the micro layout, whatever layout the
    pending quads were written to, and it draws and discards the pending
    vertex count. *)
Theorem updateRenderMode_immediate_flush (s : StageGL) (m frag : string)
  (b : blendSource) :
  BLEND_SOURCES m = Some b -> b_shader b = Some frag ->
  _directDraw s = false -> _renderMode s <> m -> 0 < _batchVertexCount s ->
  is_Some (_activeShader s) ->
  (forall d, _builtShaders s !! m = Some d -> immediate d = true) ->
  (_builtShaders s !! m = None ->
   buildProgram (_webGLContext s)
     {| coverShader := true; customFRAG := Some frag;
        textureCount := _batchTextureCount s |} = Linked) ->
  exists s' d es0,
    _updateRenderMode (Some m) s = Ret tt s' /\
    _builtShaders s' !! m = Some d /\
    trace s'
    = blendEvents d ++ flushEvents (swapState s) ++
      gl_bindFramebuffer (outputFrameBuffer s) :: es0 ++ trace s /\
    forallb buildOrLog es0 = true /\
    _activeConfig (swapState s) = config_micro /\
    (forall c a x,
       gl_bufferSubData c a x ∈ flushEvents (swapState s) -> c = config_micro) /\
    _batchVertexCount s' = 0 /\ _renderMode s' = m /\
    _immediateRender s' = true.
Proof.
  intros Hb Hsh Hdd Hmode Hpos Hshader Hcache Hbuild.
  unfold _updateRenderMode. run. cbn [default]. unfold id. rewrite Hb.
  rewrite bool_decide_false by exact Hmode.
  destruct (_builtShaders s !! m) as [d|] eqn:Ed.
  - rewrite (Hcache d eq_refl), Hdd. switch_mode.
    eexists _, d, []. split; [reflexivity|].
    split; [exact Ed|]. split; [now destruct s|].
    repeat split.
    intros c a x Hx. exact (flushEvents_uploads (swapState s) c a x Hx).
  - unfold buildShaderData, _fetchShaderProgram. run. rewrite Hsh.
    rewrite (Hbuild eq_refl). cbn. rewrite Hdd. switch_mode.
    eexists _, _, [_; _; _; _; _]. split; [reflexivity|].
    split; [cbn; now rewrite lookup_insert_eq|].
    split; [now destruct s|].
    repeat split.
    intros c a x Hx. exact (flushEvents_uploads (swapState s) c a x Hx).
Qed.

(** On the stage with one quad written to the default layout, the request
    of "multiply" flushes the micro layout. *)
Lemma updateRenderMode_immediate_flush_pending :
  exists s' d es0,
    _updateRenderMode (Some "multiply") pendingStage = Ret tt s' /\
    _activeConfig pendingStage = config_default /\
    _batchVertexCount pendingStage = 6 /\
    trace s'
    = blendEvents d ++ flushEvents (swapState pendingStage) ++
      gl_bindFramebuffer (outputFrameBuffer pendingStage) ::
      es0 ++ trace pendingStage /\
    (forall c a x,
       gl_bufferSubData c a x ∈ flushEvents (swapState pendingStage) ->
       c = config_micro) /\
    _batchVertexCount s' = 0.
Proof.
  destruct (updateRenderMode_immediate_flush pendingStage
              "multiply" "multiply" (shaded "multiply"))
    as (s' & d & es0 & Hrun & _ & Htr & _ & _ & Hup & Hcur & _);
    [vm_compute; reflexivity | vm_compute; reflexivity
    | vm_compute; reflexivity | vm_compute; discriminate
    | vm_compute; reflexivity | vm_compute; eauto
    | vm_compute; intros d0 [=]
    | intros _; vm_compute; reflexivity |].
  exists s', d, es0.
  split; [exact Hrun|]. split; [vm_compute; reflexivity|].
  split; [vm_compute; reflexivity|]. auto.
Defined.

(** * Further properties of the renderer *)

(** ** What a purge removes and what it keeps *)


(** The inner loop leaves the images that have not expired as they
    are. *)
Lemma purgeData_fresh (c : number) (data : list imgref) (a : imgref) :
  forall s, expired s c a = false ->
    img (final (purgeData c data s)) a = img s a.
Proof.
  induction data as [|i data IH]; intros s Ha; [reflexivity|].
  cbn [purgeData]. run. destruct (expired s c i) eqn:E.
  - set (s0 := set_img i (Image.with_storeID None) s).
    assert (Hne : i <> a) by congruence.
    assert (H0 : img s0 a = img s a) by (unfold s0; now rewrite img_set_img_ne).
    assert (Ha0 : expired s0 c a = false)
      by (rewrite (same_age_expired s s0 c a (same_age_unmark s i)); exact Ha).
    specialize (IH s0 Ha0). rewrite H0 in IH. exact IH.
  - specialize (IH s Ha).
    destruct (purgeData_spec c data s) as (s' & Hrun & _).
    rewrite Hrun in IH |- *. exact IH.
Qed.

(** Killing a texture whose list of sources is empty reaches no image. *)
Lemma kill_empty_images (t : texref) (s : StageGL) :
  WebGLTexture._imageData (tex s t) = Some [] ->
  images (deleteObjects t (dropSlot t (unlink t s))) = images s.
Proof.
  intros Hd.
  assert (H1 : images (unlink t s) = images s).
  { unfold unlink. destruct (WebGLTexture._storeID _) as [id|]; [|reflexivity].
    destruct (0 <=? id); [|reflexivity]. now rewrite Hd. }
  assert (H2 : images (dropSlot t (unlink t s)) = images (unlink t s)).
  { unfold dropSlot. destruct (WebGLTexture._activeIndex _); [|reflexivity].
    destruct (bool_decide _); reflexivity. }
  unfold deleteObjects. cbn. now rewrite H2, H1.
Qed.

Lemma purgeAt_fresh (c : number) (k : nat) (s : StageGL) (a : imgref) :
  expired s c a = false ->
  exists s', purgeAt c k s = Ret tt s' /\ img s' a = img s a /\
             expired s' c a = false.
Proof.
  intros Ha. unfold purgeAt. run.
  destruct (mjoin (_textureDictionary s !! k)) as [t|]; [|now exists s].
  destruct (WebGLTexture._imageData (tex s t)) as [data|]; [|now exists s].
  pose proof (purgeData_fresh c data a s Ha) as Hfresh.
  destruct (purgeData_spec c data s) as (s0 & Hrun & _ & Hage & _).
  rewrite Hrun in Hfresh |- *. cbn [final] in Hfresh.
  set (data' := filter _ data).
  set (s1 := set_tex t (WebGLTexture.with_imageData (Some data')) s0).
  assert (Hage1 : same_age s s1) by exact Hage.
  case_bool_decide as Hnil.
  - rewrite killTextureObject_steps. eexists. split; [reflexivity|].
    destruct (kill_facts t s1) as (Hka & _).
    assert (Himg : images (deleteObjects t (dropSlot t (unlink t s1)))
                   = images s0).
    { rewrite kill_empty_images; [reflexivity|].
      unfold s1. rewrite tex_set_tex_eq. cbn. now rewrite Hnil. }
    split.
    + unfold img. rewrite Himg. exact Hfresh.
    + rewrite (same_age_expired s _ c a
                 (same_age_trans _ _ _ Hage1 Hka)). exact Ha.
  - exists s1. split; [reflexivity|]. split; [exact Hfresh|].
    now rewrite (same_age_expired s s1 c a Hage1).
Qed.

Lemma purge_loop_fresh (c : number) (a : imgref) (n : nat) :
  forall k s, expired s c a = false ->
    exists s', forEach (seq k n) (purgeAt c) s = Ret tt s' /\
               img s' a = img s a.
Proof.
  induction n as [|n IH]; intros k s Ha; [now exists s|].
  cbn [seq forEach]. run.
  destruct (purgeAt_fresh c k s a Ha) as (s1 & Hrun & Himg & Ha1).
  rewrite Hrun. destruct (IH (S k) s1 Ha1) as (s' & Hrun' & Himg').
  exists s'. split; [exact Hrun'|]. now rewrite Himg'.
Qed.

(** X2: [purgeTextures] leaves every image that has not expired exactly as
    it was, with its [_storeID]; in particular an image that was never
    drawn (its [_drawID] is undefined, so that the sum compared is NaN) is
    never purged, whatever the threshold. *)
Theorem purgeTextures_keeps_fresh (count : number) (s : StageGL) :
  let c := if JS.ge count (JS.ofZ 0) then count else JS.ofZ 100 in
  (forall a, expired s c a = false ->
     exists s', purgeTextures count s = Ret tt s' /\ img s' a = img s a) /\
  (forall a, Image._drawID (img s a) = None ->
     exists s', purgeTextures count s = Ret tt s' /\ img s' a = img s a).
Proof.
  intros c.
  assert (H : forall a, expired s c a = false ->
            exists s', purgeTextures count s = Ret tt s' /\ img s' a = img s a).
  { intros a Ha. unfold purgeTextures. run. fold c.
    apply purge_loop_fresh. exact Ha. }
  split; [exact H|].
  intros a Ha. apply H. unfold expired. rewrite Ha. reflexivity.
Qed.

(** ** Changing the render mode *)




(** X4: when the program of a mode that is not built yet fails to compile
    or to link, [_updateRenderMode] returns with the stage as it was: the
    render mode, the blend state and the batch are untouched, nothing is
    flushed and no entry is stored in [_builtShaders], so that a later
    request tries the build again.  The call only leaves the events of
    the failed build and the message "SHADER SWITCH FAILURE". *)
Theorem updateRenderMode_build_failure (s : StageGL) (m : string)
  (b : blendSource) :
  BLEND_SOURCES m = Some b -> _renderMode s <> m ->
  _builtShaders s !! m = None ->
  (b_shader b = None -> _builtShaders s !! "source-over" = None) ->
  buildProgram (_webGLContext s)
    {| coverShader := true; customFRAG := b_shader b;
       textureCount := _batchTextureCount s |} <> Linked ->
  exists es,
    _updateRenderMode (Some m) s
    = Ret tt (with_trace (console_log "SHADER SWITCH FAILURE" :: es ++ trace s) s) /\
    forallb buildOrLog es = true.
Proof.
  intros Hb Hmode Hnone Hso Hfail.
  assert (Hdel : delete m (_builtShaders s) = _builtShaders s)
    by (apply delete_id; exact Hnone).
  unfold _updateRenderMode. run. cbn [default]. unfold id. rewrite Hb.
  rewrite bool_decide_false by exact Hmode. rewrite Hnone.
  unfold buildShaderData, _fetchShaderProgram. run.
  destruct (b_shader b) as [frag|] eqn:Ef.
  - destruct (buildProgram _ _) eqn:E; [| |contradiction]; cbn; rewrite Hdel.
    + exists [gl_buildProgram
                {| coverShader := true; customFRAG := Some frag;
                   textureCount := _batchTextureCount s |} CompileFailed;
              gl_useProgram None].
      split; [now destruct s | reflexivity].
    + exists [gl_useProgram (_activeShader s);
              gl_buildProgram
                {| coverShader := true; customFRAG := Some frag;
                   textureCount := _batchTextureCount s |} LinkFailed;
              gl_useProgram None].
      split; [now destruct s | reflexivity].
  - rewrite (Hso eq_refl).
    destruct (buildProgram _ _) eqn:E; [| |contradiction]; cbn; rewrite Hdel.
    + exists [gl_buildProgram
                {| coverShader := true; customFRAG := None;
                   textureCount := _batchTextureCount s |} CompileFailed;
              gl_useProgram None].
      split; [now destruct s | reflexivity].
    + exists [gl_useProgram (_activeShader s);
              gl_buildProgram
                {| coverShader := true; customFRAG := None;
                   textureCount := _batchTextureCount s |} LinkFailed;
              gl_useProgram None].
      split; [now destruct s | reflexivity].
Qed.

(** On the stage whose context compiles no cover shader, "multiply" is
    given up with the stage unchanged. *)
Lemma updateRenderMode_build_failure_multiply :
  exists es,
    _updateRenderMode (Some "multiply") noCoverStage
    = Ret tt (with_trace (console_log "SHADER SWITCH FAILURE" ::
                          es ++ trace noCoverStage) noCoverStage) /\
    forallb buildOrLog es = true.
Proof.
  apply (updateRenderMode_build_failure noCoverStage "multiply"
           (shaded "multiply"));
    [vm_compute; reflexivity | vm_compute; intros [=]
    | vm_compute; reflexivity | intros [=] | vm_compute; intros [=]].
Defined.



(** ** JavaScript arrays *)


Lemma arr_get_arr_set_ne {A} (l : list (option A)) (i j : Z) (v : option A) :
  0 <= i -> i <> j -> arr_get (arr_set l i v) j = arr_get l j.
Proof.
  intros Hi Hne. unfold arr_get, arr_set.
  destruct (i <? 0) eqn:E; [apply Z.ltb_lt in E; lia|].
  destruct (j <? 0) eqn:Ej; [reflexivity|]. apply Z.ltb_ge in Ej.
  assert (Hn : Z.to_nat i <> Z.to_nat j) by lia.
  destruct (Z.to_nat i <? length l)%nat eqn:El.
  - now rewrite list_lookup_insert_ne.
  - apply Nat.ltb_ge in El.
    destruct (decide (Z.to_nat j < length l)%nat) as [Hj|Hj].
    + now rewrite lookup_app_l.
    + rewrite lookup_app_r by lia.
      rewrite (lookup_ge_None_2 l) by lia.
      destruct (decide (Z.to_nat j - length l < Z.to_nat i - length l)%nat).
      * rewrite lookup_app_l by (rewrite length_replicate; lia).
        now rewrite lookup_replicate_2 by lia.
      * rewrite lookup_app_r by (rewrite length_replicate; lia).
        rewrite length_replicate.
        destruct (Z.to_nat j - length l - (Z.to_nat i - length l))%nat
          as [|k] eqn:Ek; [lia|]. now destruct k.
Qed.

(** ** The scan for a texture slot *)

Section ScanEnds.

Variable s : StageGL.
Variable start : Z.

Let n := _batchTextureCount s.

Hypothesis Hn : 0 < n.
Hypothesis Hstart : 0 <= start < n.

(** Whatever the slots hold, the scan ends within [_batchTextureCount]
    probes and leaves the state alone. *)
Lemma scanSlots_ends (fuel : nat) :
  forall k, 0 <= k < n -> fuel = Z.to_nat (n - k) ->
    (exists r, scanSlots fuel start ((start + k) mod n) s = Ret r s /\
               match r with Some found => 0 <= found < n | None => True end) \/
    (exists e, scanSlots fuel start ((start + k) mod n) s = Throw e s).
Proof.
  induction fuel as [|fuel IH]; intros k Hk Hfuel; [lia|].
  cbn [scanSlots]. run.
  set (look := (start + k) mod n).
  assert (Hlook : 0 <= look < n) by (apply Z.mod_pos_bound; lia).
  destruct (arr_get (_batchTextures s) look) as [o|]; [|right; eauto].
  destruct (eligible s look o); [left; exists (Some look); auto|].
  unfold JS.rem. fold n.
  destruct (n =? 0) eqn:En; [apply Z.eqb_eq in En; lia|].
  rewrite Z.rem_mod_nonneg by lia.
  assert (Hnext : (look + 1) mod n = (start + (k + 1)) mod n).
  { unfold look. rewrite Zplus_mod_idemp_l. f_equal. lia. }
  rewrite Hnext.
  destruct ((start + (k + 1)) mod n =? start) eqn:Eb.
  - left. exists None. auto.
  - apply Z.eqb_neq in Eb.
    assert (Hk' : k + 1 < n).
    { destruct (Z.eq_dec (k + 1) n) as [E|]; [|lia]. exfalso. apply Eb.
      rewrite E, Z.add_mod, Z.mod_same, Z.add_0_r, Z.mod_mod by lia.
      apply Z.mod_small. lia. }
    apply (IH (k + 1)); lia.
Qed.

End ScanEnds.



(** ** Putting a texture into the batch *)







(** ** Releasing without reference counting *)





(** ** The viewport *)



Lemma resizeTexture_viewport (x : surface) (w h : Z) (s : StageGL) :
  exists s', resizeTexture x w h s = Ret tt s' /\
             _viewportWidth s' = _viewportWidth s /\
             _viewportHeight s' = _viewportHeight s.
Proof.
  unfold resizeTexture. run. destruct x; try (eexists; repeat split; fail).
  destruct (_ && _); eexists; repeat split.
Qed.


(** ** Colours *)

Lemma clamp01_range (x : number) : unit_or_NaN (clamp01 x).
Proof.
  assert (H0 : unit_or_NaN (JS.ofZ 0)) by (split; unfold Qle; cbn; lia).
  assert (H1 : unit_or_NaN (JS.ofZ 1)) by (split; unfold Qle; cbn; lia).
  unfold clamp01. destruct x as [| | |q]; try exact I; try assumption.
  unfold JS.max, JS.min, JS.le, JS.ofZ in *.
  destruct (Qle_bool (inject_Z 0) q) eqn:E0.
  - destruct (Qle_bool q (inject_Z 1)) eqn:E1; [|exact H1].
    split; now apply Qle_bool_iff.
  - change (Qle_bool (inject_Z 0) (inject_Z 1)) with true. exact H0.
Qed.

Lemma clamp01_unit (q : Q) :
  (0 <= q <= 1)%Q -> clamp01 (Fin q) = Fin q.
Proof.
  intros [H0 H1]. unfold clamp01, JS.ofZ. cbn.
  apply Qle_bool_iff in H0. change (inject_Z 0) with 0%Q. rewrite H0. cbn.
  apply Qle_bool_iff in H1. change (inject_Z 1) with 1%Q. now rewrite H1.
Qed.

Lemma byte_unit (n : Z) : 0 <= n < 256 -> (0 <= inject_Z n / 255 <= 1)%Q.
Proof.
  intros H. unfold Qdiv, Qmult, Qle, inject_Z. cbn. lia.
Qed.

Lemma land_mod32 (x y : Z) :
  Z.land x y mod 2 ^ 32 = Z.land (x mod 2 ^ 32) (y mod 2 ^ 32).
Proof.
  rewrite <- !(Z.land_ones _ 32) by lia. apply Z.bits_inj'. intros n Hn.
  rewrite !Z.land_spec. destruct (Z.testbit x n), (Z.testbit y n),
    (Z.testbit (Z.ones 32) n); reflexivity.
Qed.

Lemma wrap32_mod (z : Z) : JS.wrap32 z mod 2 ^ 32 = z mod 2 ^ 32.
Proof.
  unfold JS.wrap32. destruct (2 ^ 31 <=? z mod 2 ^ 32).
  - replace (z mod 2 ^ 32 - 2 ^ 32) with (z mod 2 ^ 32 + (-1) * 2 ^ 32) by lia.
    rewrite Z.mod_add by lia. apply Z.mod_mod. lia.
  - apply Z.mod_mod. lia.
Qed.

(** A byte taken out of a 32-bit integer with a mask and an unsigned
    shift. *)
Lemma masked_byte (z k : Z) :
  0 <= z < 2 ^ 32 -> 0 <= k <= 24 ->
  ushr (band (JS.wrap32 z) (255 * 2 ^ k)) k = (z / 2 ^ k) mod 256.
Proof.
  intros Hz Hk. unfold ushr, band.
  rewrite land_mod32, !wrap32_mod.
  assert (Hm : 0 <= 255 * 2 ^ k < 2 ^ 32).
  { assert (2 ^ k <= 2 ^ 24) by (apply Z.pow_le_mono_r; lia). lia. }
  rewrite (Z.mod_small z), (Z.mod_small (255 * 2 ^ k)) by lia.
  rewrite Z.shiftr_land, (Z.shiftr_div_pow2 z) by lia.
  replace (Z.shiftr (255 * 2 ^ k) k) with (Z.ones 8).
  - apply Z.land_ones. lia.
  - rewrite Z.shiftr_div_pow2, Z.div_mul by lia. reflexivity.
Qed.

(** X10: for a colour given as a 32-bit number [0xRRGGBBAA], the four
    channels that [colorToObj] returns are the four bytes of the number,
    most significant first, each divided by 255 (the unsigned shift takes
    the red byte of numbers from [0x80000000] up, which [&] makes
    negative). *)
Theorem colorToObj_number_bytes (StringToNumber : string -> number) (z : Z) :
  0 <= z < 2 ^ 32 ->
  colorToObj StringToNumber (ColorNumber (JS.ofZ z))
  = {| Color.r := byteOver255 z 24; Color.g := byteOver255 z 16;
       Color.b := byteOver255 z 8; Color.a := byteOver255 z 0 |}.
Proof.
  intros Hz. unfold colorToObj, byteOver255.
  assert (Ht : JS.toInt32 (JS.ofZ z) = JS.wrap32 z).
  { unfold JS.toInt32, JS.ofZ, JS.trunc, inject_Z. cbn. now rewrite Z.quot_1_r. }
  rewrite Ht.
  change 0xFF000000 with (255 * 2 ^ 24).
  change 0x00FF0000 with (255 * 2 ^ 16).
  change 0x0000FF00 with (255 * 2 ^ 8).
  rewrite !masked_byte by lia.
  assert (Ha : band (JS.wrap32 z) 0x000000FF = (z / 2 ^ 0) mod 256).
  { pose proof (masked_byte z 0 Hz ltac:(lia)) as H.
    unfold ushr, band in H |- *.
    change (255 * 2 ^ 0) with 255 in H. rewrite Z.shiftr_0_r in H.
    rewrite <- H. symmetry. apply Z.mod_small.
    change (JS.wrap32 255) with (Z.ones 8). rewrite Z.land_ones by lia.
    pose proof (Z.mod_pos_bound (JS.wrap32 z) (2 ^ 8) ltac:(lia)). lia. }
  rewrite Ha. unfold div255, JS.ofZ.
  rewrite !clamp01_unit
    by (apply byte_unit; apply Z.mod_pos_bound; lia).
  reflexivity.
Qed.

Lemma colorToObj_number_bytes_orange :
  colorToObj (fun _ => NaN) (ColorNumber (JS.ofZ 0xFF8000FF))
  = {| Color.r := byteOver255 0xFF8000FF 24;
       Color.g := byteOver255 0xFF8000FF 16;
       Color.b := byteOver255 0xFF8000FF 8;
       Color.a := byteOver255 0xFF8000FF 0 |}.
Proof. apply colorToObj_number_bytes. lia. Defined.

(** X11: whatever its argument, [colorToObj] returns no channel outside
    the range from 0 to 1: a channel is NaN (a string with a part that
    reads as no number) or lies in the range; for a numeric argument,
    NaN and the infinities included, it is never NaN. *)
Theorem colorToObj_range (StringToNumber : string -> number)
  (color : colorArg) :
  let c := colorToObj StringToNumber color in
  (unit_or_NaN (Color.r c) /\ unit_or_NaN (Color.g c) /\
   unit_or_NaN (Color.b c) /\ unit_or_NaN (Color.a c)) /\
  (forall n, color = ColorNumber n ->
     Color.r c <> NaN /\ Color.g c <> NaN /\ Color.b c <> NaN /\
     Color.a c <> NaN).
Proof.
  cbn zeta. split.
  - unfold colorToObj.
    destruct (match color with ColorString _ => _ | ColorNumber _ => _ end)
      as [[[r g] b] a].
    cbn. repeat split; apply clamp01_range.
  - intros n ->. unfold colorToObj, div255, JS.ofZ, clamp01, JS.max, JS.min,
      JS.le. cbn.
    repeat split;
      repeat match goal with
             | |- context [Qle_bool ?x ?y] => destruct (Qle_bool x y)
             end; discriminate.
Qed.

(** X12: the forms of a colour string.  The short form [#rgb] gives the
    colour of [#rrggbb]; a string that starts neither with [#] nor with
    [rgba(], such as a colour name, gives transparent black, all four
    channels zero. *)
Theorem colorToObj_strings (StringToNumber : string -> number) :
  (forall c1 c2 c3 : ascii,
     colorToObj StringToNumber
       (ColorString (String "#" (String c1 (String c2 (String c3 "")))))
     = colorToObj StringToNumber
         (ColorString
            (String "#" (String c1 (String c1 (String c2 (String c2
               (String c3 (String c3 ""))))))))) /\
  (forall color,
     String.prefix "#" color = false -> String.prefix "rgba(" color = false ->
     colorToObj StringToNumber (ColorString color)
     = {| Color.r := JS.ofZ 0; Color.g := JS.ofZ 0;
          Color.b := JS.ofZ 0; Color.a := JS.ofZ 0 |}).
Proof.
  split.
  - intros c1 c2 c3. reflexivity.
  - intros color H1 H2. unfold colorToObj. rewrite H1, H2. reflexivity.
Qed.

(** ** Loading an image *)

(** Splits a conjunction into its parts. *)
Ltac conj := repeat match goal with |- _ /\ _ => split end.














(** * The capacity of the batch *)

Lemma le_ofZ_mono (a b : Z) (cap : number) :
  a <= b -> JS.le (JS.ofZ b) cap = true -> JS.le (JS.ofZ a) cap = true.
Proof.
  intros Hab. unfold JS.le, JS.ofZ. destruct cap as [| | |q]; try easy.
  intros H. apply Qle_bool_iff in H. apply Qle_bool_iff.
  eapply Qle_trans; [|exact H]. rewrite <- Zle_Qle. exact Hab.
Qed.

Lemma not_gt_le (a : Z) (cap : number) :
  JS.le (JS.ofZ 0) cap = true ->
  JS.gt (JS.ofZ a) cap = false -> JS.le (JS.ofZ a) cap = true.
Proof.
  unfold JS.gt, JS.lt, JS.le, JS.ofZ. destruct cap as [| | |q]; try easy.
  intros _ H. now apply negb_false_iff in H.
Qed.

Section Keeps.

Variable cap : number.
Variable k : Z.
Hypothesis Hok : slack_ok cap k.

Lemma keeps_ret {A} (a : A) : keeps cap k (mret a).
Proof. intros s H. exact H. Qed.

Lemma keeps_throw {A} (e : string) : keeps cap k (@throw A e).
Proof. intros s H. exact H. Qed.

Lemma keeps_bind {A B} (m : M A) (f : A -> M B) :
  keeps cap k m -> (forall a, keeps cap k (f a)) -> keeps cap k (m ≫= f).
Proof.
  intros Hm Hf s H. specialize (Hm s H). run. unfold mbind, M_bind, bind.
  destruct (m s) as [a s'|e s'|s']; [|exact Hm|exact Hm].
  apply (Hf a s' Hm).
Qed.

Lemma keeps_get {B} (f : StageGL -> M B) :
  (forall s0, keeps cap k (f s0)) -> keeps cap k (get ≫= f).
Proof. intros Hf s H. apply (Hf s s H). Qed.

Lemma keeps_modify (f : StageGL -> StageGL) :
  (forall s, within cap k s -> within cap k (f s)) -> keeps cap k (modify f).
Proof. intros Hf s H. apply (Hf s H). Qed.

Lemma keeps_emit (e : event) : event_fits cap e -> keeps cap k (emit e).
Proof.
  intros He s (H1 & H2 & H3 & H4 & H5). unfold emit, modify.
  split; [exact H1|]. split; [exact H2|]. split; [exact H3|].
  split; [exact H4|]. cbn. constructor; assumption.
Qed.

Lemma keeps_emit_all (es : list event) :
  Forall (event_fits cap) es -> keeps cap k (emit_all es).
Proof.
  intros He s (H1 & H2 & H3 & H4 & H5). unfold emit_all, modify.
  split; [exact H1|]. split; [exact H2|]. split; [exact H3|].
  split; [exact H4|]. cbn. apply Forall_app. split; [|exact H5].
  now apply Forall_rev.
Qed.

Lemma keeps_when (b : bool) (m : M unit) :
  keeps cap k m -> keeps cap k (when b m).
Proof. intros Hm. destruct b; [exact Hm | apply keeps_ret]. Qed.

Lemma keeps_try_catch {A} (m : M A) (h : string -> M A) :
  keeps cap k m -> (forall e, keeps cap k (h e)) ->
  keeps cap k (try_catch m h).
Proof.
  intros Hm Hh s H. specialize (Hm s H). unfold try_catch.
  destruct (m s) as [a s'|e s'|s']; [exact Hm | apply (Hh e s' Hm) | exact Hm].
Qed.

End Keeps.

(** Takes a computation apart, down to the calls of other methods. *)
Ltac keep_step :=
  lazymatch goal with
  | |- keeps _ _ (mret _) => apply keeps_ret
  | |- keeps _ _ (throw _) => apply keeps_throw
  | |- keeps _ _ (mbind _ get) => apply keeps_get; intros ?
  | |- keeps _ _ (mbind _ _) => apply keeps_bind; [|intros ?]
  | |- keeps _ _ (emit _) => apply keeps_emit; exact I
  | |- keeps _ _ (modify _) => apply keeps_modify; intros ? ?; assumption
  | |- keeps _ _ (when _ _) => apply keeps_when
  | |- keeps _ _ (try_catch _ _) => apply keeps_try_catch; [|intros ?]
  | |- keeps _ _ (match ?e with _ => _ end) => destruct e
  end.

Create HintDb keeps.

Ltac keep := repeat first [ keep_step | solve [eauto with keeps] ].

Section KeepsRender.

Variable cap : number.
Variable k : Z.
Hypothesis Hok : slack_ok cap k.

Lemma fits_zero : JS.le (JS.ofZ (0 + k)) cap = true.
Proof.
  destruct Hok as [Hk Hcap]. unfold INDICES_PER_CARD in *.
  apply (le_ofZ_mono _ 6); [lia | exact Hcap].
Qed.

Lemma sendAttribute_fits p c a :
  Forall (event_fits cap) (sendAttribute p c a).
Proof. unfold sendAttribute. repeat constructor. Qed.

Lemma bindBatchTextures_fits count slots :
  Forall (event_fits cap) (bindBatchTextures count slots).
Proof.
  unfold bindBatchTextures. apply Forall_flat_map, Forall_forall.
  intros i _. repeat constructor.
Qed.

Lemma keeps_renderBatch : keeps cap k _renderBatch.
Proof.
  intros s H. rewrite renderBatch_outcome. unfold flushOutcome.
  destruct (_batchVertexCount s <=? 0) eqn:E; [exact H|].
  destruct H as (H1 & H2 & H3 & H4 & H5).
  destruct (_activeShader s) as [p|] eqn:Hp; cycle 1.
  { unfold stalled. split; [exact H1|]. split; [exact H2|].
    split; [exact H3|]. split; [exact H4|].
    cbn [trace with_trace with_renderPerDraw].
    repeat (apply List.Forall_cons; [exact I|]).
    destruct (vocalDebug s); cbn [app];
      [apply List.Forall_cons; [exact I|]|]; exact H5. }
  unfold flushed.
  split; [exact H1|]. split; [exact H2|]. split; [cbn; lia|].
  split; [cbn -[Z.add]; apply fits_zero|].
  cbn [trace with_batchID with_batchVertexCount with_trace].
  apply Forall_app. split; [|exact H5].
  assert (Hdraw : event_fits cap (gl_drawArrays (_batchVertexCount s))).
  { cbn. destruct Hok as [Hk _].
    apply (le_ofZ_mono _ (_batchVertexCount s + k)); [lia|exact H4]. }
  unfold flushEvents. rewrite !Forall_app. conj.
  all: try (apply Forall_rev; first [apply sendAttribute_fits
                                    | apply bindBatchTextures_fits]).
  all: try (destruct (vocalDebug s)).
  all: repeat (apply List.Forall_cons; [first [exact I | exact Hdraw]|]).
  all: apply List.Forall_nil.
Qed.

Lemma keeps_renderCover : keeps cap k _renderCover.
Proof.
  unfold _renderCover. destruct Hok as [_ Hcap].
  repeat first
    [ keep_step
    | apply keeps_emit_all; repeat (apply List.Forall_cons; [exact I|]);
      apply List.Forall_nil
    | apply keeps_emit; exact Hcap ].
Qed.

Lemma keeps_setTextureParams : keeps cap k setTextureParams.
Proof. unfold setTextureParams. keep. Qed.

Lemma keeps_bindFramebuffer fb : keeps cap k (bindFramebuffer fb).
Proof. unfold bindFramebuffer. keep. Qed.

Lemma keeps_frameBufferOf x : keeps cap k (frameBufferOf x).
Proof. unfold frameBufferOf. keep. Qed.

Lemma keeps_frameBufferOrNull x : keeps cap k (frameBufferOrNull x).
Proof.
  unfold frameBufferOrNull. destruct x; try apply keeps_ret;
    apply keeps_frameBufferOf.
Qed.

Lemma keeps_resizeTexture x w h : keeps cap k (resizeTexture x w h).
Proof. unfold resizeTexture. keep. Qed.

Hint Resolve keeps_renderBatch keeps_renderCover keeps_setTextureParams
  keeps_bindFramebuffer keeps_frameBufferOf keeps_frameBufferOrNull
  keeps_resizeTexture : keeps.

Lemma keeps_getBaseTexture w h : keeps cap k (getBaseTexture w h).
Proof. unfold getBaseTexture. keep. Qed.

Hint Resolve keeps_getBaseTexture : keeps.

Lemma keeps_getRenderBufferTexture w h :
  keeps cap k (getRenderBufferTexture w h).
Proof. unfold getRenderBufferTexture. keep. Qed.

Lemma keeps_getSafeTexture w h : keeps cap k (_getSafeTexture w h).
Proof. unfold _getSafeTexture. keep. Qed.

Lemma keeps_fetchShaderProgram cover frag :
  keeps cap k (_fetchShaderProgram cover frag).
Proof. unfold _fetchShaderProgram. keep. Qed.

End KeepsRender.

#[export] Hint Resolve keeps_renderBatch keeps_renderCover
  keeps_setTextureParams keeps_bindFramebuffer keeps_frameBufferOf
  keeps_frameBufferOrNull keeps_resizeTexture keeps_getBaseTexture
  keeps_getRenderBufferTexture keeps_getSafeTexture keeps_fetchShaderProgram
  : keeps.

Section KeepsTextures.

Variable cap : number.
Variable k : Z.
Hypothesis Hok : slack_ok cap k.

Lemma within_unmark (data : list imgref) (s : StageGL) :
  within cap k s ->
  within cap k (foldr (fun i s => set_img i (Image.with_storeID None) s) s data).
Proof.
  intros H. destruct (foldr_unmark_frame data s) as [Heq _].
  cbn zeta in Heq. rewrite Heq. exact H.
Qed.

Lemma keeps_killTextureObject texture : keeps cap k (_killTextureObject texture).
Proof.
  unfold _killTextureObject.
  repeat first
    [ keep_step
    | apply keeps_modify; intros ? ?; now apply within_unmark ].
Qed.

Lemma keeps_updateTextureImageData image :
  keeps cap k (_updateTextureImageData image).
Proof. unfold _updateTextureImageData. keep. Qed.

Lemma keeps_findSlot : keeps cap k findSlot.
Proof.
  intros s H. unfold findSlot. run. unfold JS.rem.
  destruct (_batchTextureCount s =? 0) eqn:En; [exact H|].
  apply Z.eqb_neq in En.
  assert (Hn : 0 < _batchTextureCount s) by (destruct H as (_ & ? & _); lia).
  set (start := Z.rem (_lastTextureInsert s + 1) (_batchTextureCount s)).
  assert (Hbound : - _batchTextureCount s < start < _batchTextureCount s).
  { pose proof (Z.rem_bound_abs (_lastTextureInsert s + 1)
                  (_batchTextureCount s) ltac:(lia)) as Hb.
    fold start in Hb. lia. }
  destruct (Z_lt_le_dec start 0) as [Hneg|Hpos].
  - destruct (Z.to_nat (Z.abs (_batchTextureCount s))) as [|fuel] eqn:Ef;
      [lia|].
    cbn [scanSlots]. run. unfold arr_get.
    apply Z.ltb_lt in Hneg. rewrite Hneg. exact H.
  - destruct (scanSlots_ends s start Hn ltac:(lia)
                (Z.to_nat (Z.abs (_batchTextureCount s))) 0)
      as [(r & Hr & _)|(e & He)]; [lia | f_equal; lia | |].
    + rewrite Z.add_0_r, Z.mod_small in Hr by lia. rewrite Hr.
      destruct r as [found|]; [exact H|].
      pose proof (keeps_renderBatch cap k Hok
                    (with_batchReason (Some "textureOverflow") s) H) as Hf.
      destruct (_renderBatch _); exact Hf.
    + rewrite Z.add_0_r, Z.mod_small in He by lia. rewrite He. exact H.
Qed.

Hint Resolve keeps_killTextureObject keeps_updateTextureImageData
  keeps_findSlot : keeps.

Lemma keeps_insertTextureInBatch texture :
  keeps cap k (_insertTextureInBatch texture).
Proof. unfold _insertTextureInBatch. keep. Qed.

Hint Resolve keeps_insertTextureInBatch : keeps.

Lemma keeps_loadTextureImage image : keeps cap k (_loadTextureImage image).
Proof.
  unfold _loadTextureImage.
  repeat first
    [ keep_step
    | solve [eauto with keeps]
    | match goal with
      | |- keeps _ _ (let '(_, _) := ?e in _) => destruct e
      end
    | apply keeps_modify; intros ? ?; destruct image; assumption ].
Qed.

End KeepsTextures.

#[export] Hint Resolve keeps_killTextureObject keeps_updateTextureImageData
  keeps_findSlot keeps_insertTextureInBatch keeps_loadTextureImage : keeps.

Section KeepsModes.

Variable cap : number.
Variable k : Z.
Hypothesis Hok : slack_ok cap k.

Lemma keeps_buildShaderData newMode blendSrc :
  keeps cap k (buildShaderData newMode blendSrc).
Proof. unfold buildShaderData. keep. Qed.

Hint Resolve keeps_buildShaderData : keeps.

Lemma keeps_switchToMember newMode : keeps cap k (switchToMember newMode).
Proof. unfold switchToMember. cbv zeta. keep. Qed.

Hint Resolve keeps_switchToMember : keeps.

Lemma keeps_updateRenderMode newMode : keeps cap k (_updateRenderMode newMode).
Proof.
  unfold _updateRenderMode. cbv zeta.
  repeat first
    [ keep_step
    | solve [eauto with keeps]
    | match goal with
      | |- keeps _ _ (let '(_, _) := ?e in _) => destruct e
      end ].
Qed.

Lemma keeps_drawCover out dst srcFilter :
  keeps cap k (_drawCover out dst srcFilter).
Proof. unfold _drawCover. keep. Qed.

Hint Resolve keeps_updateRenderMode keeps_drawCover : keeps.

Lemma keeps_immediateBatchRender : keeps cap k _immediateBatchRender.
Proof. unfold _immediateBatchRender. keep. Qed.

Lemma keeps_clear : keeps cap k clear.
Proof. unfold clear. keep. Qed.

Lemma keeps_purgeData count data : keeps cap k (purgeData count data).
Proof. induction data as [|i data IH]; cbn [purgeData]; keep. Qed.

Hint Resolve keeps_purgeData : keeps.

Lemma keeps_purgeAt count i : keeps cap k (purgeAt count i).
Proof. unfold purgeAt. keep. Qed.

Hint Resolve keeps_purgeAt : keeps.

Lemma keeps_forEach {A} (l : list A) (f : A -> M unit) :
  (forall x, keeps cap k (f x)) -> keeps cap k (forEach l f).
Proof. intros Hf. induction l as [|x l IH]; cbn [forEach]; keep. Qed.

Lemma keeps_purgeTextures count : keeps cap k (purgeTextures count).
Proof.
  unfold purgeTextures. cbv zeta. keep_step. apply keeps_forEach.
  intros i. apply keeps_purgeAt.
Qed.

End KeepsModes.

#[export] Hint Resolve keeps_updateRenderMode keeps_drawCover
  keeps_immediateBatchRender keeps_clear keeps_purgeTextures : keeps.

Section KeepsBatch.

Variable cap : number.
Hypothesis Hcap : JS.le (JS.ofZ INDICES_PER_CARD) cap = true.

Variable define : DisplayObject -> M (tri source).
Hypothesis Hdefine : forall d, keeps cap 0 (define d).

Lemma slack0 : slack_ok cap 0.
Proof. split; [unfold INDICES_PER_CARD; lia | exact Hcap]. Qed.

Lemma slack6 : slack_ok cap INDICES_PER_CARD.
Proof. split; [unfold INDICES_PER_CARD; lia | exact Hcap]. Qed.

Hint Resolve slack0 slack6 : keeps.

Lemma within_weaken (s : StageGL) :
  within cap INDICES_PER_CARD s -> within cap 0 s.
Proof.
  intros (H1 & H2 & H3 & H4 & H5). repeat (split; [assumption|]).
  split; [|exact H5].
  apply (le_ofZ_mono _ (_batchVertexCount s + INDICES_PER_CARD));
    [unfold INDICES_PER_CARD; lia | exact H4].
Qed.

Lemma lands_keeps {A} (k : Z) (m : M A) (s : StageGL) :
  keeps cap k m -> within cap k s -> lands cap k (m s).
Proof. intros Hm H. exact (Hm s H). Qed.

Lemma lands_bind {A B} (k : Z) (m : M A) (f : A -> M B) (s : StageGL) :
  lands cap k (m s) -> (forall a, keeps cap k (f a)) ->
  lands cap k ((m ≫= f) s).
Proof.
  intros Hm Hf. unfold mbind, M_bind, bind.
  destruct (m s) as [a s'|e s'|s']; [|exact Hm|exact Hm].
  apply (Hf a s' Hm).
Qed.

Lemma lands_spares {A} (o : outcome A) :
  lands cap INDICES_PER_CARD o -> spares cap o.
Proof.
  destruct o as [a s'|e s'|s']; cbn; [auto | apply within_weaken | auto].
Qed.

(** From a quad to spare down to none. *)
Lemma lands_bind_spare {A B} (m : M A) (f : A -> M B) (s : StageGL) :
  spares cap (m s) ->
  (forall a s', within cap INDICES_PER_CARD s' -> lands cap 0 (f a s')) ->
  lands cap 0 ((m ≫= f) s).
Proof.
  intros Hm Hf. unfold mbind, M_bind, bind.
  destruct (m s) as [a s'|e s'|s']; [|exact Hm|exact Hm].
  apply (Hf a s' Hm).
Qed.

Lemma keeps_cachelessFilter item ignoreCache :
  keeps cap 0 (cachelessFilter define item ignoreCache).
Proof. unfold cachelessFilter. keep. Qed.

Lemma keeps_textureFor (k : Z) image :
  slack_ok cap k -> keeps cap k (textureFor image).
Proof. intros Hk. unfold textureFor. keep. Qed.

(** The check for an overflowing batch leaves room for a quad, unless the
    flush throws. *)
Lemma overflow_check (s : StageGL) :
  within cap 0 s ->
  spares cap
    ((if overflowing s
      then modify (with_batchReason (Some "vertexOverflow"));; _renderBatch
      else mret tt) s).
Proof.
  intros H. pose proof H as (H1 & H2 & H3 & H4 & H5).
  assert (H0 : JS.le (JS.ofZ 0) cap = true)
    by (apply (le_ofZ_mono _ INDICES_PER_CARD);
        [unfold INDICES_PER_CARD; lia | exact Hcap]).
  destruct (overflowing s) eqn:Eo.
  - change ((modify (with_batchReason (Some "vertexOverflow"));; _renderBatch) s)
      with (_renderBatch (with_batchReason (Some "vertexOverflow") s)).
    assert (Hf : lands cap 0 (_renderBatch
                                (with_batchReason (Some "vertexOverflow") s)))
      by (apply (keeps_renderBatch cap 0 slack0); exact H).
    rewrite renderBatch_outcome in Hf |- *. unfold flushOutcome in Hf |- *.
    change (_batchVertexCount (with_batchReason (Some "vertexOverflow") s))
      with (_batchVertexCount s) in Hf |- *.
    change (_activeShader (with_batchReason (Some "vertexOverflow") s))
      with (_activeShader s) in Hf |- *.
    destruct (_batchVertexCount s <=? 0) eqn:E.
    + (* nothing pending: the batch does not overflow *)
      apply Z.leb_le in E. assert (E0 : _batchVertexCount s = 0) by lia.
      unfold overflowing in Eo. rewrite E0, H1 in Eo.
      unfold JS.gt, JS.lt in Eo. unfold JS.le in Hcap.
      change (0 + INDICES_PER_CARD) with INDICES_PER_CARD in Eo.
      destruct cap as [| | |q]; try discriminate.
      cbn in Eo, Hcap. rewrite Hcap in Eo. discriminate.
    + destruct (_activeShader s) as [p|]; [|exact Hf].
      destruct Hf as (F1 & F2 & F3 & F4 & F5).
      split; [exact F1|]. split; [exact F2|]. split; [exact F3|].
      split; [exact Hcap | exact F5].
  - split; [exact H1|]. split; [exact H2|]. split; [exact H3|].
    split; [|exact H5].
    apply not_gt_le; [exact H0|].
    unfold overflowing in Eo. now rewrite H1 in Eo.
Qed.

(** Writing a quad where there is room for it. *)
Lemma within_write (s : StageGL) (image : source) (v : option Z)
  (texIndex : option Z) :
  within cap INDICES_PER_CARD s ->
  within cap 0
    (with_batchVertexCount (_batchVertexCount s + INDICES_PER_CARD)
       (with_trace
          (write_quad (_activeConfig s) (_batchVertexCount s) texIndex ::
           trace (source_set_drawID image v s))
          (source_set_drawID image v s))).
Proof.
  intros (H1 & H2 & H3 & H4 & H5).
  assert (Htr : trace (source_set_drawID image v s) = trace s)
    by (destruct image; reflexivity).
  rewrite Htr.
  split; [destruct image; exact H1|]. split; [destruct image; exact H2|].
  split; [cbn; unfold INDICES_PER_CARD; lia|].
  split.
  - cbn -[Z.add]. rewrite Z.add_0_r. exact H4.
  - cbn. constructor; [|exact H5]. split; [exact H3 | exact H4].
Qed.

(** One child of a container, given that its own children are appended
    within the capacity. *)
Lemma keeps_appendItem (recurse : Q -> M unit) (item : DisplayObject)
  (concatAlpha : Q) (ignoreCache : bool) :
  (forall a, keeps cap 0 (recurse a)) ->
  keeps cap 0 (appendItem define recurse item concatAlpha ignoreCache).
Proof.
  intros Hrec. unfold appendItem. cbv zeta.
  destruct (negb _); [apply keeps_ret|].
  apply keeps_bind.
  { destruct ignoreCache; [apply keeps_cachelessFilter|].
    destruct (truthy_tri (cacheCanvas item));
      [apply keeps_ret | apply keeps_cachelessFilter]. }
  intros useCache.
  assert (Hbody : forall (image : option source),
    keeps cap 0
      (s ← get;
       let containerRenderMode := _renderMode s in
       match truthy_string (compositeOperation item) with
       | Some m => _updateRenderMode (Some m)
       | None => mret tt
       end;;
       s ← get;
       (if overflowing s then
          modify (with_batchReason (Some "vertexOverflow"));; _renderBatch
        else mret tt);;
       match image with
       | None => mret tt
       | Some image =>
           texture ← textureFor image;
           match texture with
           | None => mret tt
           | Some t =>
               s ← get;
               let texIndex := WebGLTexture._activeIndex (tex s t) in
               modify (source_set_drawID image (Some (_drawID s)));;
               emit (write_quad (_activeConfig s) (_batchVertexCount s) texIndex);;
               modify (with_batchVertexCount
                         (_batchVertexCount s + INDICES_PER_CARD));;
               (if _immediateRender s then
                  modify (with_activeConfig config_default);;
                  _immediateBatchRender
                else mret tt);;
               s ← get;
               if bool_decide (_renderMode s = containerRenderMode) then mret tt
               else _updateRenderMode (Some containerRenderMode)
           end
       end)).
  { intros image. apply keeps_get. intros s0. cbv zeta.
    apply keeps_bind;
      [destruct (truthy_string _);
       [apply keeps_updateRenderMode; exact slack0 | apply keeps_ret]|].
    intros _. intros s1 H1.
    change (lands cap 0
              (((if overflowing s1 then
                   modify (with_batchReason (Some "vertexOverflow"));;
                   _renderBatch
                 else mret tt) ≫= (fun _ =>
                 match image with
                 | None => mret tt
                 | Some image =>
                     texture ← textureFor image;
                     match texture with
                     | None => mret tt
                     | Some t =>
                         s ← get;
                         let texIndex := WebGLTexture._activeIndex (tex s t) in
                         modify (source_set_drawID image (Some (_drawID s)));;
                         emit (write_quad (_activeConfig s)
                                 (_batchVertexCount s) texIndex);;
                         modify (with_batchVertexCount
                                   (_batchVertexCount s + INDICES_PER_CARD));;
                         (if _immediateRender s then
                            modify (with_activeConfig config_default);;
                            _immediateBatchRender
                          else mret tt);;
                         s ← get;
                         if bool_decide (_renderMode s = _renderMode s0)
                         then mret tt
                         else _updateRenderMode (Some (_renderMode s0))
                     end
                 end)) s1)).
    apply lands_bind_spare; [now apply overflow_check|].
    intros _ s2 H2. destruct image as [image|]; [|now apply within_weaken].
    apply lands_bind_spare;
      [apply lands_spares, (keeps_textureFor _ image slack6); exact H2|].
    intros [t|] s3 H3; [|now apply within_weaken].
    pose proof (within_write s3 image (Some (_drawID s3))
                  (WebGLTexture._activeIndex (tex s3 t)) H3) as H4.
    set (s4 := with_batchVertexCount _ _) in H4.
    change (lands cap 0
              (((if _immediateRender s3 then
                   modify (with_activeConfig config_default);;
                   _immediateBatchRender
                 else mret tt);;
                s ← get;
                if bool_decide (_renderMode s = _renderMode s0) then mret tt
                else _updateRenderMode (Some (_renderMode s0))) s4)).
    revert H4. generalize s4. clear s4.
    change (keeps cap 0
              ((if _immediateRender s3 then
                  modify (with_activeConfig config_default);;
                  _immediateBatchRender
                else mret tt);;
               s ← get;
               if bool_decide (_renderMode s = _renderMode s0) then mret tt
               else _updateRenderMode (Some (_renderMode s0)))).
    keep. }
  destruct useCache as [c|].
  - apply (Hbody (truthy_tri c)).
  - destruct (children item); [apply Hrec|].
    apply (Hbody
             (if _webGLRenderStyle item =? 2 then image item
              else if _webGLRenderStyle item =? 1 then
                match currentFrame item with
                | Some frameImage => frameImage
                | None => None
                end
              else None)).
Qed.

(** One unfolding of [_appendToBatch]. *)
Lemma appendToBatch_unfold (container : DisplayObject) (concatAlpha : Q)
  (ignoreCache : bool) :
  _appendToBatch define container concatAlpha ignoreCache =
  (s ← get;
   let previousRenderMode := _renderMode s in
   match truthy_string (compositeOperation container) with
   | Some m => _updateRenderMode (Some m)
   | None => mret tt
   end;;
   match children container with
   | None =>
       throw "TypeError: cannot read properties of undefined (reading 'length')"
   | Some l =>
       forEach l (fun item =>
         appendItem define (fun a => _appendToBatch define item a false)
                    item concatAlpha ignoreCache)
   end;;
   s ← get;
   if bool_decide (_renderMode s = previousRenderMode) then mret tt
   else _updateRenderMode (Some previousRenderMode)).
Proof.
  destruct container as [v al co cc fi bc [l|] st im cf sh]; [|reflexivity].
  cbn [_appendToBatch children compositeOperation].
  assert (E : (fix each (l : list DisplayObject) : M unit :=
                 match l with
                 | [] => mret tt
                 | item :: l =>
                     appendItem define
                       (fun a => _appendToBatch define item a false)
                       item concatAlpha ignoreCache;;
                     each l
                 end) l =
              forEach l (fun item =>
                appendItem define (fun a => _appendToBatch define item a false)
                           item concatAlpha ignoreCache)).
  { induction l as [|x l IH]; [reflexivity|]. cbn [forEach]. now rewrite <- IH. }
  now rewrite <- E.
Qed.

Lemma sceneSize_children (d : DisplayObject) (l : list DisplayObject)
  (c : DisplayObject) :
  children d = Some l -> In c l -> (sceneSize c < sceneSize d)%nat.
Proof.
  destruct d as [v al co cc fi bc ch st im cf sh]. cbn [children].
  intros -> Hin. cbn [sceneSize children].
  induction l as [|x l IH]; [destruct Hin|].
  destruct Hin as [->|Hin]; [lia|]. specialize (IH Hin). lia.
Qed.

Lemma keeps_appendToBatch_sized (n : nat) :
  forall container concatAlpha ignoreCache,
    (sceneSize container <= n)%nat ->
    keeps cap 0 (_appendToBatch define container concatAlpha ignoreCache).
Proof.
  induction n as [|n IH]; intros container concatAlpha ignoreCache Hn.
  { destruct container as [v al co cc fi bc [l|] st im cf sh];
      cbn [sceneSize children] in Hn; lia. }
  rewrite appendToBatch_unfold.
  apply keeps_get. intros s0. cbv zeta.
  apply keeps_bind;
    [destruct (truthy_string _);
     [apply keeps_updateRenderMode; exact slack0 | apply keeps_ret]|].
  intros _. apply keeps_bind.
  - destruct (children container) as [l|] eqn:Hch; [|apply keeps_throw].
    assert (Hl : forall c, In c l -> (sceneSize c <= n)%nat).
    { intros c Hc. pose proof (sceneSize_children container l c Hch Hc). lia. }
    clear Hch. induction l as [|x l IHl]; [apply keeps_ret|].
    cbn [forEach]. apply keeps_bind.
    + apply keeps_appendItem. intros a. apply IH. apply Hl. now left.
    + intros _. apply IHl. intros c Hc. apply Hl. now right.
  - intros _. apply keeps_get. intros s1.
    destruct (bool_decide _);
      [apply keeps_ret | apply keeps_updateRenderMode; exact slack0].
Qed.

(** Appending a scene to the batch stays within the capacity. *)
Lemma keeps_appendToBatch container concatAlpha ignoreCache :
  keeps cap 0 (_appendToBatch define container concatAlpha ignoreCache).
Proof. now apply (keeps_appendToBatch_sized (sceneSize container)). Qed.

Lemma keeps_drawContent content ignoreCache :
  keeps cap 0 (_drawContent define content ignoreCache).
Proof.
  unfold _drawContent.
  apply keeps_get. intros s0.
  apply keeps_bind; [apply keeps_modify; intros ? ?; assumption|]. intros _.
  apply keeps_bind; [apply keeps_frameBufferOrNull; exact slack0|].
  intros fb.
  apply keeps_bind; [apply keeps_bindFramebuffer; exact slack0|]. intros _.
  apply keeps_bind; [destruct fb; keep|]. intros _.
  apply keeps_bind; [apply keeps_appendToBatch|]. intros _.
  apply keeps_bind; [apply keeps_modify; intros ? ?; assumption|]. intros _.
  apply keeps_renderBatch; exact slack0.
Qed.

Lemma lands_get {A} (k : Z) (f : StageGL -> M A) (s : StageGL) :
  lands cap k (f s s) -> lands cap k ((get ≫= f) s).
Proof. intros H. exact H. Qed.

Lemma lands_modify {A} (k : Z) (g : StageGL -> StageGL) (f : unit -> M A)
  (s : StageGL) :
  lands cap k (f tt (g s)) -> lands cap k ((modify g ≫= f) s).
Proof. intros H. exact H. Qed.

(** A draw starts with an empty batch, so it needs no room to begin with. *)
Lemma lands_draw (stage : DisplayObject) (ignoreCache : bool) (s : StageGL) :
  _maxBatchVertexCount s = cap ->
  0 <= _batchTextureCount s ->
  Forall (event_fits cap) (trace s) ->
  lands cap 0 (draw define stage ignoreCache s).
Proof.
  intros Hmax Htex Htr. unfold draw.
  apply lands_get. cbv beta zeta.
  do 3 apply lands_modify.
  apply lands_keeps.
  - pose proof keeps_drawContent. pose proof slack0.
    keep.
  - split; [exact Hmax|]. split; [exact Htex|]. split; [cbn; lia|].
    split; [|exact Htr].
    apply (le_ofZ_mono _ INDICES_PER_CARD); [cbn; unfold INDICES_PER_CARD; lia|].
    exact Hcap.
Qed.

End KeepsBatch.

Lemma always_true_ret : always_true (mret true).
Proof. intros s. reflexivity. Qed.

Lemma always_true_bind {A} (m : M A) (f : A -> M bool) :
  (forall a, always_true (f a)) -> always_true (m ≫= f).
Proof.
  intros Hf s. unfold mbind, M_bind, bind.
  destruct (m s) as [a s'|e s'|s']; [apply Hf | exact I | exact I].
Qed.

Lemma draw_always_true define stage ignoreCache :
  always_true (draw define stage ignoreCache).
Proof.
  unfold draw.
  repeat lazymatch goal with
         | |- always_true (mbind _ _) => apply always_true_bind; intros ?
         | |- always_true (let _ := _ in _) => cbv zeta
         end.
  apply always_true_ret.
Qed.

(** X15: a draw keeps the batch within its capacity.  On a stage whose
    capacity [_maxBatchVertexCount] holds at least one quad, and whose
    quads and draw calls so far were within it, [draw] comes to an end: it
    returns [true] or throws.  Either way every quad it wrote starts at a
    vertex cursor that is not negative and leaves room for its six vertices
    below the capacity, no call of [gl.drawArrays] draws more vertices than
    the capacity, and the cursor it leaves is within the capacity.  The
    caches that [BitmapCache.define] draws are assumed to do the same. *)
Theorem draw_within_capacity (define : DisplayObject -> M (tri source))
  (stage : DisplayObject) (ignoreCache : bool) (s : StageGL) :
  JS.le (JS.ofZ INDICES_PER_CARD) (_maxBatchVertexCount s) = true ->
  0 <= _batchTextureCount s ->
  Forall (event_fits (_maxBatchVertexCount s)) (trace s) ->
  (forall d, keeps (_maxBatchVertexCount s) 0 (define d)) ->
  exists s',
    (draw define stage ignoreCache s = Ret true s' \/
     exists e, draw define stage ignoreCache s = Throw e s') /\
    _maxBatchVertexCount s' = _maxBatchVertexCount s /\
    0 <= _batchVertexCount s' /\
    JS.le (JS.ofZ (_batchVertexCount s')) (_maxBatchVertexCount s) = true /\
    Forall (event_fits (_maxBatchVertexCount s)) (trace s').
Proof.
  intros Hcap Htex Htr Hdefine.
  pose proof (lands_draw _ Hcap define Hdefine stage ignoreCache s
                eq_refl Htex Htr) as L.
  pose proof (draw_always_true define stage ignoreCache s) as T.
  destruct (draw define stage ignoreCache s) as [b s'|e s'|s'];
    [|exists s'|destruct L].
  - subst b. exists s'. destruct L as (H1 & H2 & H3 & H4 & H5).
    rewrite Z.add_0_r in H4. auto 10.
  - destruct L as (H1 & H2 & H3 & H4 & H5).
    rewrite Z.add_0_r in H4. eauto 10.
Qed.

Lemma draw_within_capacity_two_bitmaps :
  exists s',
    (draw nodefine (container [bitmap 0%nat None; bitmap 2%nat None]) false
       (withPictures (exampleStage (Some false))) = Ret true s' \/
     exists e,
       draw nodefine (container [bitmap 0%nat None; bitmap 2%nat None]) false
         (withPictures (exampleStage (Some false))) = Throw e s') /\
    _maxBatchVertexCount s' =
      _maxBatchVertexCount (withPictures (exampleStage (Some false))) /\
    0 <= _batchVertexCount s' /\
    JS.le (JS.ofZ (_batchVertexCount s'))
      (_maxBatchVertexCount (withPictures (exampleStage (Some false)))) = true /\
    Forall (event_fits
              (_maxBatchVertexCount (withPictures (exampleStage (Some false)))))
      (trace s').
Proof.
  apply (draw_within_capacity nodefine
           (container [bitmap 0%nat None; bitmap 2%nat None]) false
           (withPictures (exampleStage (Some false)))).
  - vm_compute; reflexivity.
  - vm_compute; intros [=].
  - apply List.Forall_nil.
  - intros d s H. exact H.
Defined.



(** * What a draw leaves alone *)

Section Preserves.

Variable P : StageGL -> Prop.

Lemma preserves_ret {A} (a : A) : preserves P (mret a).
Proof. intros s H. exact H. Qed.

Lemma preserves_throw {A} (e : string) : preserves P (@throw A e).
Proof. intros s H. exact H. Qed.

Lemma preserves_bind {A B} (m : M A) (f : A -> M B) :
  preserves P m -> (forall a, preserves P (f a)) -> preserves P (m ≫= f).
Proof.
  intros Hm Hf s H. specialize (Hm s H). unfold mbind, M_bind, bind.
  destruct (m s) as [a s'|e s'|s']; [|exact Hm|exact I].
  apply (Hf a s' Hm).
Qed.

(** The state that is read has the property. *)
Lemma preserves_get {B} (f : StageGL -> M B) :
  (forall s0, P s0 -> preserves P (f s0)) -> preserves P (get ≫= f).
Proof. intros Hf s H. apply (Hf s H s H). Qed.

Lemma preserves_modify (f : StageGL -> StageGL) :
  (forall s, P s -> P (f s)) -> preserves P (modify f).
Proof. intros Hf s H. apply (Hf s H). Qed.

Lemma preserves_when (b : bool) (m : M unit) :
  preserves P m -> preserves P (when b m).
Proof. intros Hm. destruct b; [exact Hm | apply preserves_ret]. Qed.

Lemma preserves_try_catch {A} (m : M A) (h : string -> M A) :
  preserves P m -> (forall e, preserves P (h e)) ->
  preserves P (try_catch m h).
Proof.
  intros Hm Hh s H. specialize (Hm s H). unfold try_catch.
  destruct (m s) as [a s'|e s'|s']; [exact Hm | apply (Hh e s' Hm) | exact I].
Qed.

Lemma preserves_forEach {A} (l : list A) (f : A -> M unit) :
  (forall x, preserves P (f x)) -> preserves P (forEach l f).
Proof.
  intros Hf. induction l as [|x l IH]; cbn [forEach];
    [apply preserves_ret|].
  apply preserves_bind; [apply Hf | intros _; exact IH].
Qed.

End Preserves.

Lemma framed_refl (s : StageGL) : framed s s.
Proof. unfold framed, kept. auto 10. Qed.

(** A property that the frame carries over is preserved by what keeps the
    frame. *)
Lemma preserves_framed (P : StageGL -> Prop) {A} (m : M A) :
  (forall s s', framed s s' -> P s -> P s') ->
  (forall s0, preserves (framed s0) m) -> preserves P m.
Proof.
  intros HP Hm s H. specialize (Hm s s (framed_refl s)).
  destruct (m s) as [a s'|e s'|s']; cbn in *; eauto.
Qed.

(** An assignment outside the frame. *)
Ltac frame_modify :=
  apply preserves_modify;
  let H := fresh in
  intros ? H;
  first [ exact H
        | match goal with
          | x : source |- _ => destruct x; exact H
          end ].

(** Takes a computation apart, down to the calls of other methods. *)
Ltac frame_step :=
  lazymatch goal with
  | |- preserves _ (mret _) => apply preserves_ret
  | |- preserves _ (throw _) => apply preserves_throw
  | |- preserves _ (mbind _ get) => apply preserves_get; intros ? ?
  | |- preserves _ (mbind _ _) => apply preserves_bind; [|intros ?]
  | |- preserves _ (emit _) => frame_modify
  | |- preserves _ (emit_all _) => frame_modify
  | |- preserves _ (modify _) => frame_modify
  | |- preserves _ (when _ _) => apply preserves_when
  | |- preserves _ (try_catch _ _) => apply preserves_try_catch; [|intros ?]
  | |- preserves _ (forEach _ _) => apply preserves_forEach; intros ?
  | |- preserves _ (let '(_, _) := ?e in _) => destruct e
  | |- preserves _ (let _ := _ in _) => cbv zeta
  | |- preserves _ (match ?e with _ => _ end) => destruct e
  end.

Create HintDb frame.

Ltac frame := repeat first [ frame_step | solve [eauto with frame] ].

Section Framed.

Variable s0 : StageGL.

Lemma framed_renderBatch : preserves (framed s0) _renderBatch.
Proof.
  intros s H. rewrite renderBatch_outcome. unfold flushOutcome.
  destruct (_batchVertexCount s <=? 0); [exact H|].
  destruct (_activeShader s); exact H.
Qed.

Lemma framed_renderCover : preserves (framed s0) _renderCover.
Proof. unfold _renderCover. frame. Qed.

Lemma framed_setTextureParams : preserves (framed s0) setTextureParams.
Proof. unfold setTextureParams. frame. Qed.

Lemma framed_bindFramebuffer fb : preserves (framed s0) (bindFramebuffer fb).
Proof. unfold bindFramebuffer. frame. Qed.

Lemma framed_frameBufferOf x : preserves (framed s0) (frameBufferOf x).
Proof. unfold frameBufferOf. frame. Qed.

Lemma framed_frameBufferOrNull x :
  preserves (framed s0) (frameBufferOrNull x).
Proof.
  unfold frameBufferOrNull. destruct x; try apply preserves_ret;
    apply framed_frameBufferOf.
Qed.

Lemma framed_resizeTexture x w h : preserves (framed s0) (resizeTexture x w h).
Proof. unfold resizeTexture. frame. Qed.

Hint Resolve framed_renderBatch framed_renderCover framed_setTextureParams
  framed_bindFramebuffer framed_frameBufferOf framed_frameBufferOrNull
  framed_resizeTexture : frame.

Lemma framed_getBaseTexture w h : preserves (framed s0) (getBaseTexture w h).
Proof. unfold getBaseTexture. frame. Qed.

Hint Resolve framed_getBaseTexture : frame.

Lemma framed_getRenderBufferTexture w h :
  preserves (framed s0) (getRenderBufferTexture w h).
Proof. unfold getRenderBufferTexture. frame. Qed.

Lemma framed_getSafeTexture w h : preserves (framed s0) (_getSafeTexture w h).
Proof. unfold _getSafeTexture. frame. Qed.

Lemma framed_fetchShaderProgram cover frag :
  preserves (framed s0) (_fetchShaderProgram cover frag).
Proof. unfold _fetchShaderProgram. frame. Qed.

End Framed.

#[export] Hint Resolve framed_renderBatch framed_renderCover
  framed_setTextureParams framed_bindFramebuffer framed_frameBufferOf
  framed_frameBufferOrNull framed_resizeTexture framed_getBaseTexture
  framed_getRenderBufferTexture framed_getSafeTexture
  framed_fetchShaderProgram : frame.

Section FramedTextures.

Variable s0 : StageGL.

Lemma framed_unmark (data : list imgref) (s : StageGL) :
  framed s0 s ->
  framed s0 (foldr (fun i s => set_img i (Image.with_storeID None) s) s data).
Proof.
  intros H. destruct (foldr_unmark_frame data s) as [Heq _].
  cbn zeta in Heq. rewrite Heq. exact H.
Qed.

Lemma framed_killTextureObject texture :
  preserves (framed s0) (_killTextureObject texture).
Proof.
  unfold _killTextureObject.
  repeat first
    [ frame_step
    | apply preserves_modify; intros ? ?; now apply framed_unmark ].
Qed.

Lemma framed_updateTextureImageData image :
  preserves (framed s0) (_updateTextureImageData image).
Proof. unfold _updateTextureImageData. frame. Qed.

Lemma framed_scanSlots fuel start look :
  preserves (framed s0) (scanSlots fuel start look).
Proof.
  revert look. induction fuel as [|fuel IH]; intros look;
    [intros s H; exact I|].
  cbn [scanSlots]. frame.
Qed.

Hint Resolve framed_killTextureObject framed_updateTextureImageData
  framed_scanSlots : frame.

Lemma framed_findSlot : preserves (framed s0) findSlot.
Proof. unfold findSlot. frame. Qed.

Hint Resolve framed_findSlot : frame.

Lemma framed_insertTextureInBatch texture :
  preserves (framed s0) (_insertTextureInBatch texture).
Proof. unfold _insertTextureInBatch. frame. Qed.

Hint Resolve framed_insertTextureInBatch : frame.

Lemma framed_loadTextureImage image :
  preserves (framed s0) (_loadTextureImage image).
Proof. unfold _loadTextureImage. frame. Qed.

Hint Resolve framed_loadTextureImage : frame.

Lemma framed_textureFor image : preserves (framed s0) (textureFor image).
Proof. unfold textureFor. frame. Qed.

Lemma framed_buildShaderData newMode blendSrc :
  preserves (framed s0) (buildShaderData newMode blendSrc).
Proof. unfold buildShaderData. frame. Qed.

Hint Resolve framed_buildShaderData : frame.

Lemma framed_switchToMember newMode :
  preserves (framed s0) (switchToMember newMode).
Proof. unfold switchToMember. frame. Qed.

Hint Resolve framed_switchToMember : frame.

Lemma framed_updateRenderMode newMode :
  preserves (framed s0) (_updateRenderMode newMode).
Proof. unfold _updateRenderMode. frame. Qed.

Lemma framed_drawCover out dst srcFilter :
  preserves (framed s0) (_drawCover out dst srcFilter).
Proof. unfold _drawCover. frame. Qed.

Lemma framed_clear : preserves (framed s0) clear.
Proof. unfold clear. frame. Qed.

Lemma framed_purgeData count data :
  preserves (framed s0) (purgeData count data).
Proof. induction data as [|i data IH]; cbn [purgeData]; frame. Qed.

Hint Resolve framed_purgeData : frame.

Lemma framed_purgeAt count i : preserves (framed s0) (purgeAt count i).
Proof. unfold purgeAt. frame. Qed.

Hint Resolve framed_purgeAt : frame.

Lemma framed_purgeTextures count :
  preserves (framed s0) (purgeTextures count).
Proof. unfold purgeTextures. frame. Qed.

End FramedTextures.

#[export] Hint Resolve framed_killTextureObject framed_updateTextureImageData
  framed_scanSlots framed_findSlot framed_insertTextureInBatch
  framed_loadTextureImage framed_textureFor framed_buildShaderData
  framed_updateRenderMode framed_drawCover framed_clear framed_purgeData
  framed_purgeAt framed_purgeTextures : frame.

Lemma framed_kept (s0 s s' : StageGL) : framed s s' -> kept s0 s -> kept s0 s'.
Proof.
  intros [(H1 & H2 & H3 & H4 & H5) _] (K1 & K2 & K3 & K4 & K5).
  unfold kept. rewrite H1, H2, H3, H4, H5. auto.
Qed.

Lemma framed_trans (s0 s s' : StageGL) :
  framed s s' -> framed s0 s -> framed s0 s'.
Proof.
  intros H [K Hu]. split; [exact (framed_kept s0 s s' H K)|].
  intros H0. apply (proj2 H), Hu, H0.
Qed.

Section FramedBatch.

Variable define : DisplayObject -> M (tri source).
Hypothesis Hdefine : forall s0 d, preserves (framed s0) (define d).

Variable s0 : StageGL.

Lemma kept_immediateBatchRender : preserves (kept s0) _immediateBatchRender.
Proof.
  unfold _immediateBatchRender.
  repeat first
    [ frame_step
    | apply preserves_framed; [apply framed_kept | solve [eauto with frame]] ].
Qed.

(** Without a second batch texture the immediate rendering stops before
    it did anything. *)
Lemma immediateBatchRender_undefined (s : StageGL) :
  _batchTextureConcat s = SUndefined ->
  _immediateBatchRender s =
  Throw "TypeError: cannot read properties of undefined (reading '_frameBuffer')"
    s.
Proof. intros E. unfold _immediateBatchRender. run. now rewrite E. Qed.

Lemma framed_immediateBatchRender :
  preserves (framed s0) _immediateBatchRender.
Proof.
  intros s H. destruct (_batchTextureConcat s) eqn:E.
  1: { now rewrite immediateBatchRender_undefined. }
  all: pose proof (kept_immediateBatchRender s (proj1 H)) as K;
    destruct (_immediateBatchRender s) as [a s'|e s'|s']; cbn in *;
    try exact I; (split; [exact K|]); intros H0; apply (proj2 H) in H0;
    congruence.
Qed.

Hint Resolve framed_immediateBatchRender : frame.

Lemma framed_cachelessFilter item ignoreCache :
  preserves (framed s0) (cachelessFilter define item ignoreCache).
Proof. unfold cachelessFilter. frame. Qed.

Hint Resolve framed_cachelessFilter : frame.

Lemma framed_appendItem (recurse : Q -> M unit) (item : DisplayObject)
  (concatAlpha : Q) (ignoreCache : bool) :
  (forall a, preserves (framed s0) (recurse a)) ->
  preserves (framed s0) (appendItem define recurse item concatAlpha ignoreCache).
Proof. intros Hrec. unfold appendItem. frame. Qed.

Lemma framed_appendToBatch_sized (n : nat) :
  forall container concatAlpha ignoreCache,
    (sceneSize container <= n)%nat ->
    preserves (framed s0)
      (_appendToBatch define container concatAlpha ignoreCache).
Proof.
  induction n as [|n IH]; intros container concatAlpha ignoreCache Hn.
  { destruct container as [v al co cc fi bc [l|] st im cf sh];
      cbn [sceneSize children] in Hn; lia. }
  rewrite appendToBatch_unfold.
  apply preserves_get. intros s1 _. cbv zeta.
  apply preserves_bind; [frame|]. intros _. apply preserves_bind.
  - destruct (children container) as [l|] eqn:Hch; [|apply preserves_throw].
    assert (Hl : forall c, In c l -> (sceneSize c <= n)%nat).
    { intros c Hc. pose proof (sceneSize_children container l c Hch Hc). lia. }
    clear Hch. induction l as [|x l IHl]; [apply preserves_ret|].
    cbn [forEach]. apply preserves_bind.
    + apply framed_appendItem. intros a. apply IH. apply Hl. now left.
    + intros _. apply IHl. intros c Hc. apply Hl. now right.
  - intros _. frame.
Qed.

Lemma framed_appendToBatch container concatAlpha ignoreCache :
  preserves (framed s0)
    (_appendToBatch define container concatAlpha ignoreCache).
Proof. now apply (framed_appendToBatch_sized (sceneSize container)). Qed.

Hint Resolve framed_appendToBatch : frame.

Lemma framed_drawContent content ignoreCache :
  preserves (framed s0) (_drawContent define content ignoreCache).
Proof. unfold _drawContent. frame. Qed.

End FramedBatch.

#[export] Hint Resolve framed_immediateBatchRender framed_cachelessFilter
  framed_appendToBatch framed_drawContent : frame.

Section Ends.

Variable P : StageGL -> Prop.

Lemma ends_get {A} (f : StageGL -> M A) (s : StageGL) :
  ends P (f s s) -> ends P ((get ≫= f) s).
Proof. intros H. exact H. Qed.

Lemma ends_modify {A} (g : StageGL -> StageGL) (f : unit -> M A)
  (s : StageGL) :
  ends P (f tt (g s)) -> ends P ((modify g ≫= f) s).
Proof. intros H. exact H. Qed.

Lemma ends_preserves {A} (m : M A) (s : StageGL) :
  preserves P m -> P s -> ends P (m s).
Proof. intros Hm H. exact (Hm s H). Qed.

End Ends.

(** As [frame], for a property [P] that the frame carries over: [carry]
    proves that it does, [assign] that an assignment keeps [P]. *)
Ltac frame_by carry assign :=
  repeat first
    [ lazymatch goal with
      | |- preserves _ (modify _) => apply preserves_modify; assign
      | |- preserves _ (emit _) => apply preserves_modify; assign
      | |- preserves _ (emit_all _) => apply preserves_modify; assign
      | |- preserves _ _ => frame_step
      end
    | apply preserves_framed; [carry | solve [eauto with frame]] ].

Lemma framed_counts (d : Z) (c : bool * bool * bool * number * number * Z * Z)
  (s s' : StageGL) :
  framed s s' ->
  _drawID s = d /\ settings s = c -> _drawID s' = d /\ settings s' = c.
Proof. intros [(H1 & H2 & _) _] [K1 K2]. split; congruence. Qed.

Lemma framed_no_concat (s s' : StageGL) :
  framed s s' -> no_concat s -> no_concat s'.
Proof.
  intros [(_ & _ & _ & H4 & _) Hu] [K1 K2]. split; [auto | congruence].
Qed.

Section FramedDraw.

Variable define : DisplayObject -> M (tri source).
Hypothesis Hdefine : forall s0 d, preserves (framed s0) (define d).

Lemma draw_counts (stage : DisplayObject) (ignoreCache : bool) (s : StageGL) :
  ends (fun s' => _drawID s' = _drawID s + 1 /\ settings s' = settings s)
    (draw define stage ignoreCache s).
Proof.
  unfold draw. apply ends_get. cbv beta zeta. do 3 apply ends_modify.
  apply ends_preserves; [|split; reflexivity].
  frame_by ltac:(apply framed_counts) ltac:(intros ? H; exact H).
Qed.

Lemma draw_no_concat (stage : DisplayObject) (ignoreCache : bool)
  (s : StageGL) :
  no_concat s -> ends no_concat (draw define stage ignoreCache s).
Proof.
  intros Hs. unfold draw. apply ends_get. cbv beta zeta.
  do 3 apply ends_modify.
  apply ends_preserves; [|exact Hs].
  frame_by ltac:(apply framed_no_concat)
           ltac:(let x := fresh in
                 let Ha := fresh in
                 let Hb := fresh in
                 intros x [Ha Hb]; destruct Hs; split; cbn; congruence).
Qed.

End FramedDraw.

(** The assignments of the constructor keep what was never assigned. *)
Ltac no_concat_assign :=
  let x := fresh in
  let Ha := fresh in
  let Hb := fresh in
  intros x [Ha Hb]; split; [exact Ha | exact Hb].

Lemma no_concat_compileMainShader : preserves no_concat compileMainShader.
Proof.
  assert (Hf : preserves no_concat (_fetchShaderProgram false None)).
  { apply preserves_framed; [apply framed_no_concat | eauto with frame]. }
  intros s.
  apply (compileMainShader_elim
           (fun s r => no_concat s -> ends no_concat r)).
  all: intros;
    match goal with
    | E : _fetchShaderProgram false None ?s1 = _, H : no_concat ?s1 |- _ =>
        pose proof (Hf s1 H) as K; rewrite E in K; cbn in K
    end.
  - exact K.
  - exact I.
  - exact K.
  - match goal with IH : _ -> ends _ _ |- _ => apply IH end.
    unfold logReduction. destruct (vocalDebug _); exact K.
Qed.

Lemma no_concat_initMaterials : preserves no_concat _initMaterials.
Proof.
  unfold _initMaterials.
  repeat first
    [ lazymatch goal with
      | |- preserves _ compileMainShader => apply no_concat_compileMainShader
      | |- preserves _ (modify _) => apply preserves_modify; no_concat_assign
      | |- preserves _ (emit _) => apply preserves_modify; no_concat_assign
      | |- preserves _ _ => frame_step
      end
    | apply preserves_framed;
      [apply framed_no_concat | solve [eauto with frame]] ].
Qed.

Lemma no_concat_updateViewport width height :
  preserves no_concat (updateViewport width height).
Proof.
  unfold updateViewport.
  frame_by ltac:(apply framed_no_concat) no_concat_assign.
Qed.

Lemma no_concat_initializeWebGL canvasWidth canvasHeight :
  preserves no_concat (_initializeWebGL canvasWidth canvasHeight).
Proof.
  unfold _initializeWebGL.
  repeat first
    [ lazymatch goal with
      | |- preserves _ _initMaterials => apply no_concat_initMaterials
      | |- preserves _ (updateViewport _ _) => apply no_concat_updateViewport
      | |- preserves _ (modify _) => apply preserves_modify; no_concat_assign
      | |- preserves _ (emit _) => apply preserves_modify; no_concat_assign
      | |- preserves _ _ => frame_step
      end
    | apply preserves_framed;
      [apply framed_no_concat | solve [eauto with frame]] ].
Qed.

Lemma no_concat_constructor StringToNumber gl canvasWidth canvasHeight options :
  ends no_concat
    (constructor StringToNumber gl canvasWidth canvasHeight options).
Proof.
  unfold constructor. do 2 apply ends_modify.
  apply ends_preserves; [|split; reflexivity].
  apply preserves_bind; [apply no_concat_initializeWebGL|]. intros _.
  apply preserves_modify. no_concat_assign.
Qed.

(** X16: a draw counts as one draw.  Whether [draw] returns or throws, it
    leaves [_drawID] one above what it was, and it leaves the settings
    [vocalDebug], [autoClear], [_directDraw], [_autoPurge],
    [_maxBatchVertexCount] and the size of the viewport as they were.  The
    caches that [BitmapCache.define] draws are assumed to leave them too. *)
Theorem draw_counts_once (define : DisplayObject -> M (tri source))
  (stage : DisplayObject) (ignoreCache : bool) (s s' : StageGL) :
  (forall s0 d, preserves (framed s0) (define d)) ->
  (draw define stage ignoreCache s = Ret true s' \/
   exists e, draw define stage ignoreCache s = Throw e s') ->
  _drawID s' = _drawID s + 1 /\ settings s' = settings s.
Proof.
  intros Hdefine Hrun.
  pose proof (draw_counts define Hdefine stage ignoreCache s) as H.
  destruct Hrun as [E|[e E]]; rewrite E in H; exact H.
Qed.

Lemma draw_counts_once_two_bitmaps :
  _drawID
    (final (draw nodefine (container [bitmap 0%nat None; bitmap 2%nat None])
              false (withPictures (exampleStage (Some false))))) =
  _drawID (withPictures (exampleStage (Some false))) + 1 /\
  settings
    (final (draw nodefine (container [bitmap 0%nat None; bitmap 2%nat None])
              false (withPictures (exampleStage (Some false))))) =
  settings (withPictures (exampleStage (Some false))).
Proof.
  apply (draw_counts_once nodefine
           (container [bitmap 0%nat None; bitmap 2%nat None]) false
           (withPictures (exampleStage (Some false)))).
  - intros s0 d s H. exact H.
  - left. vm_compute. reflexivity.
Defined.

(** X17: the constructor assigns no second batch texture.  On the stage
    that [new StageGL(canvas, options)] returns, whatever the context and
    the options, [_batchTextureConcat] and [_bufferTextureConcat] are
    [undefined] (not [null]), and [_immediateBatchRender()] on it throws a
    TypeError before it changed the stage or called the context. *)
Theorem constructor_no_concat (StringToNumber : string -> number)
  (gl : WebGLContext) (canvasWidth canvasHeight : Z)
  (options : StageGLOptions) (s : StageGL) :
  constructor StringToNumber gl canvasWidth canvasHeight options = Ret tt s ->
  _batchTextureConcat s = SUndefined /\
  _bufferTextureConcat s = SUndefined /\
  _immediateBatchRender s =
  Throw "TypeError: cannot read properties of undefined (reading '_frameBuffer')"
    s.
Proof.
  intros E.
  pose proof (no_concat_constructor StringToNumber gl canvasWidth canvasHeight
                options) as H.
  rewrite E in H. destruct H as [Ha Hb].
  split; [exact Ha|]. split; [exact Hb|].
  now apply immediateBatchRender_undefined.
Qed.

Lemma constructor_no_concat_example :
  _batchTextureConcat (exampleStage (Some false)) = SUndefined /\
  _bufferTextureConcat (exampleStage (Some false)) = SUndefined /\
  _immediateBatchRender (exampleStage (Some false)) =
  Throw "TypeError: cannot read properties of undefined (reading '_frameBuffer')"
    (exampleStage (Some false)).
Proof.
  apply (constructor_no_concat (fun _ => NaN) gl0 100 100
           (exampleOptions (Some false))).
  vm_compute. reflexivity.
Defined.

(** X18: a draw assigns no second batch texture either.  If
    [_batchTextureConcat] and [_bufferTextureConcat] are [undefined] before
    a [draw], as the constructor leaves them, they are [undefined] after
    it, whether it returned or threw.  The caches that
    [BitmapCache.define] draws are assumed to leave the frame. *)
Theorem draw_keeps_no_concat (define : DisplayObject -> M (tri source))
  (stage : DisplayObject) (ignoreCache : bool) (s s' : StageGL) :
  (forall s0 d, preserves (framed s0) (define d)) ->
  _batchTextureConcat s = SUndefined ->
  _bufferTextureConcat s = SUndefined ->
  (draw define stage ignoreCache s = Ret true s' \/
   exists e, draw define stage ignoreCache s = Throw e s') ->
  _batchTextureConcat s' = SUndefined /\ _bufferTextureConcat s' = SUndefined.
Proof.
  intros Hdefine Ha Hb Hrun.
  pose proof (draw_no_concat define Hdefine stage ignoreCache s
                (conj Ha Hb)) as H.
  destruct Hrun as [E|[e E]]; rewrite E in H; exact H.
Qed.

Lemma draw_keeps_no_concat_two_bitmaps :
  _batchTextureConcat
    (final (draw nodefine (container [bitmap 0%nat None; bitmap 2%nat None])
              false (withPictures (exampleStage (Some false))))) =
  SUndefined /\
  _bufferTextureConcat
    (final (draw nodefine (container [bitmap 0%nat None; bitmap 2%nat None])
              false (withPictures (exampleStage (Some false))))) =
  SUndefined.
Proof.
  apply (draw_keeps_no_concat nodefine
           (container [bitmap 0%nat None; bitmap 2%nat None]) false
           (withPictures (exampleStage (Some false)))).
  - intros s0 d s H. exact H.
  - vm_compute; reflexivity.
  - vm_compute; reflexivity.
  - left. vm_compute. reflexivity.
Defined.

Section Returns.

Variable Q : StageGL -> Prop.

Lemma returns_get {A} (f : StageGL -> M A) (s : StageGL) :
  returns_in Q (f s s) -> returns_in Q ((get ≫= f) s).
Proof. intros H. exact H. Qed.

Lemma returns_modify {A} (g : StageGL -> StageGL) (f : unit -> M A)
  (s : StageGL) :
  returns_in Q (f tt (g s)) -> returns_in Q ((modify g ≫= f) s).
Proof. intros H. exact H. Qed.

(** Whatever comes first, if what follows returns in [Q]. *)
Lemma returns_skip {A B} (m : M A) (f : A -> M B) (s : StageGL) :
  (forall a s1, returns_in Q (f a s1)) -> returns_in Q ((m ≫= f) s).
Proof.
  intros Hf. unfold mbind, M_bind, bind.
  destruct (m s) as [a s'|e s'|s']; [apply Hf | exact I | exact I].
Qed.

Lemma returns_preserves {A} (m : M A) (s : StageGL) :
  preserves Q m -> Q s -> returns_in Q (m s).
Proof.
  intros Hm H. specialize (Hm s H).
  destruct (m s) as [a s'|e s'|s']; [exact Hm | exact I | exact I].
Qed.

End Returns.

Section Surfaces.

Variable v : surface * surface * surface.

Let P (s : StageGL) : Prop := batch_surfaces s = v.

Lemma surfaces_unmark (data : list imgref) (s : StageGL) :
  P s -> P (foldr (fun i s => set_img i (Image.with_storeID None) s) s data).
Proof.
  intros H. destruct (foldr_unmark_frame data s) as [Heq _].
  cbn zeta in Heq. rewrite Heq. exact H.
Qed.

Lemma surfaces_killTextureObject texture :
  preserves P (_killTextureObject texture).
Proof.
  unfold _killTextureObject.
  repeat first
    [ frame_step
    | apply preserves_modify; intros ? ?; now apply surfaces_unmark ].
Qed.

Lemma surfaces_purgeData count data : preserves P (purgeData count data).
Proof.
  induction data as [|i data IH]; cbn [purgeData];
    repeat first [ frame_step | exact IH ].
Qed.

Lemma surfaces_purgeAt count i : preserves P (purgeAt count i).
Proof.
  unfold purgeAt.
  repeat first
    [ lazymatch goal with
      | |- preserves _ (purgeData _ _) => apply surfaces_purgeData
      | |- preserves _ (_killTextureObject _) =>
          apply surfaces_killTextureObject
      | |- preserves _ _ => frame_step
      end ].
Qed.

Lemma surfaces_purgeTextures count : preserves P (purgeTextures count).
Proof.
  unfold purgeTextures. cbv zeta. apply preserves_get. intros s _.
  apply preserves_forEach. intros i. apply surfaces_purgeAt.
Qed.

End Surfaces.

(** X19: a draw that returns hands back the surfaces of the batch.
    [_batchTextureOutput], [_batchTextureConcat] and [_batchTextureTemp]
    are after the draw what they were before it, whatever was drawn and
    whatever [BitmapCache.define] did in between: the purge that may end
    the draw does not touch them. *)
Theorem draw_restores_surfaces (define : DisplayObject -> M (tri source))
  (stage : DisplayObject) (ignoreCache : bool) (s s' : StageGL) :
  draw define stage ignoreCache s = Ret true s' ->
  batch_surfaces s' = batch_surfaces s.
Proof.
  intros E.
  assert (H : returns_in (fun s' => batch_surfaces s' = batch_surfaces s)
                (draw define stage ignoreCache s));
    [|rewrite E in H; exact H].
  clear E. unfold draw. apply returns_get. cbv beta zeta.
  repeat lazymatch goal with
         | |- returns_in _ (mbind _ (modify (with_batchTextureOutput _)) _) =>
             fail
         | |- returns_in _ (mbind _ _ _) => apply returns_skip; intros ? ?
         end.
  do 3 apply returns_modify.
  apply returns_preserves; [|reflexivity].
  apply preserves_get. intros current _.
  apply preserves_bind; [|intros _; apply preserves_ret].
  destruct (autoPurgeDue _ _); [apply surfaces_purgeTextures|].
  apply preserves_ret.
Qed.

Lemma draw_restores_surfaces_two_bitmaps :
  batch_surfaces
    (final (draw nodefine (container [bitmap 0%nat None; bitmap 2%nat None])
              false (withPictures (exampleStage (Some false))))) =
  batch_surfaces (withPictures (exampleStage (Some false))).
Proof.
  apply (draw_restores_surfaces nodefine
           (container [bitmap 0%nat None; bitmap 2%nat None]) false
           (withPictures (exampleStage (Some false)))).
  vm_compute. reflexivity.
Defined.

Lemma arr_set_end {A} (l : list (option A)) (v : option A) :
  arr_set l (Z.of_nat (length l)) v = l ++ [v].
Proof.
  unfold arr_set. destruct (Z.of_nat (length l) <? 0) eqn:E;
    [apply Z.ltb_lt in E; lia|].
  rewrite Nat2Z.id, Nat.ltb_irrefl, Nat.sub_diag. reflexivity.
Qed.

(** X20: a render buffer texture is registered under its own index.
    [getRenderBufferTexture(w, h)] never throws.  When the context creates
    the texture and the frame buffer, it returns the new texture, appended
    to [_textureDictionary] at the index that its [_storeID] names, with a
    frame buffer and with [w] and [h] as its size; the entries that were in
    the dictionary stay.  When one of the two cannot be created it returns
    [undefined] and leaves the dictionary as it was. *)
Theorem getRenderBufferTexture_registers (w h : Z) (s : StageGL) :
  let t := allocated s in
  let storeID := Z.of_nat (length (_textureDictionary s)) in
  exists s',
    if createTexture (_webGLContext s) t &&
       createFramebuffer (_webGLContext s) (S t)
    then
      getRenderBufferTexture w h s = Ret (STexture t) s' /\
      _textureDictionary s' = _textureDictionary s ++ [Some t] /\
      WebGLTexture._storeID (tex s' t) = Some storeID /\
      arr_get (_textureDictionary s') storeID = Some t /\
      WebGLTexture._frameBuffer (tex s' t) = Some (S t) /\
      WebGLTexture.width (tex s' t) = Some w /\
      WebGLTexture.height (tex s' t) = Some h
    else
      getRenderBufferTexture w h s = Ret SUndefined s' /\
      _textureDictionary s' = _textureDictionary s.
Proof.
  cbv zeta. destruct s.
  unfold getRenderBufferTexture, getBaseTexture, resizeTexture,
    setTextureParams. run.
  cbn [allocated _webGLContext _textureDictionary].
  destruct (createTexture _ _); [|eexists; split; reflexivity].
  cbn [andb]. unfold set_tex, tex.
  cbn -[insert lookup arr_set arr_get Z.of_nat bool_decide].
  rewrite !lookup_insert_eq.
  cbn -[insert lookup arr_set arr_get Z.of_nat bool_decide].
  rewrite (bool_decide_eq_false_2 (None = Some _)) by discriminate.
  cbn -[insert lookup arr_set arr_get Z.of_nat bool_decide].
  destruct (createFramebuffer _ _); [|eexists; split; reflexivity].
  eexists. split; [reflexivity|].
  unfold tex.
  cbn -[insert lookup arr_set arr_get Z.of_nat bool_decide].
  rewrite arr_set_end, !lookup_insert_eq.
  split; [reflexivity|]. split; [reflexivity|].
  split; [|conj; reflexivity].
  unfold arr_get.
  destruct (Z.of_nat (length _textureDictionary0) <? 0) eqn:E;
    [apply Z.ltb_lt in E; lia|].
  rewrite Nat2Z.id, lookup_app_r, Nat.sub_diag by lia. reflexivity.
Qed.
